(** * REST gateway of the node (src/rest.cpp): format negotiation, name
      decoding, the UTXO query handler and the dispatcher.

    The C++ translation unit is embedded shallowly.  [std::string] is
    [string] (a sequence of 8-bit characters), machine integers are [Z],
    [std::vector] is [list].  Code that throws [RestErr], writes to the
    connection stream or reads the shared chain state is written in a small
    state-and-exception monad over an explicit [World]. *)

From Stdlib Require Import ZArith NArith List String Ascii Bool Lia Arith
  DecimalString.
Import ListNotations.

Local Open Scope string_scope.
Local Open Scope list_scope.
Local Open Scope Z_scope.

(** [a +++ b] is [std::string] concatenation, [operator+]. *)
Infix "+++" := String.append (right associativity, at level 60).

(** ** std::string helpers *)

Module Str.

(** [std::string::npos] is the absence of a position. *)
Definition size (s : string) : nat := String.length s.

(** [s.substr(pos)]: the characters from [pos] to the end. *)
Definition substr_from (s : string) (pos : nat) : string :=
  substring pos (String.length s - pos) s.

(** [s.substr(0, n)]. *)
Definition substr_to (s : string) (n : nat) : string := substring 0 n s.

(** [s.rfind(c)]: position of the last occurrence of [c]. *)
Fixpoint rfind (c : ascii) (s : string) : option nat :=
  match s with
  | EmptyString => None
  | String a s' =>
      match rfind c s' with
      | Some p => Some (S p)
      | None => if Ascii.eqb a c then Some 0%nat else None
      end
  end.

(** [s.find(c)]: position of the first occurrence of [c]. *)
Fixpoint find (c : ascii) (s : string) : option nat :=
  match s with
  | EmptyString => None
  | String a s' =>
      if Ascii.eqb a c then Some 0%nat
      else match find c s' with
           | Some p => Some (S p)
           | None => None
           end
  end.

(** Does [c] occur in [s]? *)
Fixpoint mem (c : ascii) (s : string) : bool :=
  match s with
  | EmptyString => false
  | String a s' => Ascii.eqb a c || mem c s'
  end.

(** [strprintf("%d", n)] for a non-negative count. *)
Definition itostr (n : nat) : string := NilEmpty.string_of_uint (Nat.to_uint n).

(** Modelled from the spec: [boost::split(out, s, boost::is_any_of(d))] is a
    library call; it cuts [s] at every occurrence of the delimiter and keeps
    empty tokens, so the result is never empty. *)
Fixpoint split (d : ascii) (s : string) : list string :=
  match s with
  | EmptyString => [EmptyString]
  | String c s' =>
      if Ascii.eqb c d then EmptyString :: split d s'
      else match split d s' with
           | t :: ts => String c t :: ts
           | [] => [String c EmptyString]
           end
  end.

End Str.

(** ** Data model (rest.cpp, lines 24-76) *)

Definition MAX_GETUTXOS_OUTPOINTS : Z := 15.

Inductive RetFormat : Type :=
| RF_UNDEF
| RF_BINARY
| RF_HEX
| RF_JSON.

Definition RetFormat_eqb (a b : RetFormat) : bool :=
  match a, b with
  | RF_UNDEF, RF_UNDEF | RF_BINARY, RF_BINARY
  | RF_HEX, RF_HEX | RF_JSON, RF_JSON => true
  | _, _ => false
  end.

Definition rf_names : list (RetFormat * string) :=
  [ (RF_UNDEF, ""); (RF_BINARY, "bin"); (RF_HEX, "hex"); (RF_JSON, "json") ].

(** The status codes of rpcprotocol.h that rest.cpp uses. *)
Inductive HTTPStatusCode : Type :=
| HTTP_OK
| HTTP_BAD_REQUEST
| HTTP_NOT_FOUND
| HTTP_INTERNAL_SERVER_ERROR
| HTTP_SERVICE_UNAVAILABLE.

Record RestErr : Type := RESTERR { status : HTTPStatusCode; message : string }.

(** ** ParseDataFormat (lines 78-94) *)

(** The [for] loop over [rf_names]: the first entry whose name equals the
    suffix decides. *)
Fixpoint rf_names_scan (tbl : list (RetFormat * string)) (suff : string)
  : option RetFormat :=
  match tbl with
  | [] => None
  | (rf, name) :: tbl' =>
      if String.eqb suff name then Some rf else rf_names_scan tbl' suff
  end.

(** Returns the pair (param, format): [param] is the out-parameter. *)
Definition ParseDataFormat (strReq : string) : string * RetFormat :=
  match Str.rfind "." strReq with
  | None => (strReq, fst (nth 0 rf_names (RF_UNDEF, "")))
  | Some pos =>
      let param := Str.substr_to strReq pos in
      let suff := Str.substr_from strReq (pos + 1) in
      match rf_names_scan rf_names suff with
      | Some rf => (param, rf)
      | None => (param, fst (nth 0 rf_names (RF_UNDEF, "")))
      end
  end.

(** The suffix table as the specification words it. *)
Definition spec_format_of_suffix (suff : string) : RetFormat :=
  if String.eqb suff "bin" then RF_BINARY
  else if String.eqb suff "hex" then RF_HEX
  else if String.eqb suff "json" then RF_JSON
  else RF_UNDEF.

(** ** DecodeName (lines 121-167) *)

(** [valtype] is [std::vector<unsigned char>]. *)
Definition valtype : Type := list ascii.

(** The value of a [char] (signed, 8 bits). *)
Definition char_val (c : ascii) : Z :=
  let n := Z.of_N (N_of_ascii c) in
  if n <? 128 then n else n - 256.

(** [static_cast<char>(intChar)]. *)
Definition static_cast_char (n : Z) : ascii :=
  ascii_of_N (Z.to_N (n mod 256)).

(** The [BOOST_FOREACH] over [hexStr], accumulating [intChar];
    [None] is the inner [return false]. *)
Fixpoint DecodeName_hex (hexStr : list ascii) (intChar : Z) : option Z :=
  match hexStr with
  | [] => Some intChar
  | c :: rest =>
      let intChar := Z.shiftl intChar 4 in
      let cv := char_val c in
      if (char_val "0" <=? cv) && (cv <=? char_val "9") then
        DecodeName_hex rest (intChar + (cv - char_val "0"))
      else
        let cv := Z.lor cv (Z.shiftl 1 5) in
        if (char_val "a" <=? cv) && (cv <=? char_val "f") then
          DecodeName_hex rest (intChar + (cv - char_val "a" + 10))
        else None
  end.

(** The outer loop.  The iterator [i] is the suffix [rest] = [i, end);
    [decoded] is the output built so far; [None] is [return false]. *)
Fixpoint DecodeName_loop (fuel : nat) (rest : list ascii) (decoded : valtype)
  : option valtype :=
  match rest with
  | [] => Some decoded
  | c :: tl =>
      match fuel with
      | O => None
      | S fuel' =>
          if Ascii.eqb c "+" then
            DecodeName_loop fuel' tl (decoded ++ [" "%char])
          else if Ascii.eqb c "%" then
            (* i + 2 >= encoded.end() *)
            if (List.length rest <=? 2)%nat then None
            else
              let hexStr := firstn 2 tl in
              match DecodeName_hex hexStr 0 with
              | None => None
              | Some intChar =>
                  DecodeName_loop fuel' (skipn 2 tl)
                                  (decoded ++ [static_cast_char intChar])
              end
          else DecodeName_loop fuel' tl (decoded ++ [c])
      end
  end.

Definition DecodeName (encoded : string) : option valtype :=
  let cs := list_ascii_of_string encoded in
  DecodeName_loop (List.length cs) cs [].

(** The decoding as the specification words it: one token at a time. *)
Definition spec_hex_digit_value (c : ascii) : option Z :=
  let n := Z.of_N (N_of_ascii c) in
  if (48 <=? n) && (n <=? 57) then Some (n - 48)
  else if (97 <=? n) && (n <=? 102) then Some (n - 97 + 10)
  else if (65 <=? n) && (n <=? 70) then Some (n - 65 + 10)
  else None.

Fixpoint spec_DecodeName (cs : list ascii) : option valtype :=
  match cs with
  | [] => Some []
  | c :: tl =>
      if Ascii.eqb c "+" then option_map (cons " "%char) (spec_DecodeName tl)
      else if Ascii.eqb c "%" then
        match tl with
        | h1 :: h2 :: tl' =>
            match spec_hex_digit_value h1, spec_hex_digit_value h2 with
            | Some d1, Some d2 =>
                option_map (cons (ascii_of_N (Z.to_N (16 * d1 + d2))))
                           (spec_DecodeName tl')
            | _, _ => None
            end
        | _ => None
        end
      else option_map (cons c) (spec_DecodeName tl)
  end.

(** ** Collaborators outside rest.cpp *)

Definition uint256 : Type := Z.

Definition to_uint32 (z : Z) : Z := z mod 2 ^ 32.

(** [COutPoint]: a transaction id and an unsigned 32-bit output index. *)
Record COutPoint : Type := mkOutPoint { op_hash : uint256; op_n : N }.

(** [(uint32_t)nOutput] for a signed 32-bit [nOutput]. *)
Definition int32_to_uint32 (z : Z) : N := Z.to_N (to_uint32 z).

(** Modelled from the spec: [CTxOut] (primitives/transaction.h) is a value
    and a locking script; the null output, which marks a spent entry, has
    value -1 and an empty script. *)
Record CTxOut : Type := mkTxOut { nValue : Z; scriptPubKey : string }.

Definition CTxOut_IsNull (o : CTxOut) : bool := nValue o =? -1.

Definition CTxOut_Null : CTxOut := {| nValue := -1; scriptPubKey := "" |}.

(** Modelled from the spec: [CCoins] (coins.h) is the record of one
    transaction's outputs; spent entries are null. *)
Record CCoins : Type := mkCoins
  { coins_vout : list CTxOut; coins_nHeight : Z; coins_nVersion : Z }.

(** Modelled from the spec: [CCoins::IsAvailable(nPos)] holds when the index
    is inside the output array and the entry is not spent. *)
Definition CCoins_IsAvailable (coins : CCoins) (nPos : N) : bool :=
  match nth_error (coins_vout coins) (N.to_nat nPos) with
  | Some o => negb (CTxOut_IsNull o)
  | None => false
  end.

(** Modelled from the spec: [CCoins::Cleanup] drops the spent entries at the
    end of the output array. *)
Fixpoint CCoins_Cleanup_vout (v : list CTxOut) : list CTxOut :=
  match v with
  | [] => []
  | o :: v' =>
      match CCoins_Cleanup_vout v' with
      | [] => if CTxOut_IsNull o then [] else [o]
      | r => o :: r
      end
  end.

(** [v[i] = x] on a vector, nothing outside it. *)
Fixpoint list_set {A : Type} (l : list A) (i : nat) (x : A) : list A :=
  match l, i with
  | [], _ => []
  | _ :: l', O => x :: l'
  | a :: l', S i' => a :: list_set l' i' x
  end.

(** Modelled from the spec: [CCoins::Spend(nPos)] marks an unspent entry
    spent and cleans up; it leaves the record alone when the index is out of
    range or already spent. *)
Definition CCoins_Spend (coins : CCoins) (nPos : N) : CCoins :=
  if CCoins_IsAvailable coins nPos then
    {| coins_vout :=
         CCoins_Cleanup_vout
           (list_set (coins_vout coins) (N.to_nat nPos) CTxOut_Null);
       coins_nHeight := coins_nHeight coins;
       coins_nVersion := coins_nVersion coins |}
  else coins.

(** [CCoin] (lines 43-57). *)
Record CCoin : Type := mkCoin { nTxVer : Z; nHeight : Z; out : CTxOut }.

(** JSON documents ([UniValue]); [VEXT] is a document built elsewhere. *)
#[warnings="-register-all"]
Inductive UniValue : Type :=
| VSTR (s : string)
| VNUM (z : Z)
| VOBJ (kv : list (string * UniValue))
| VARR (vs : list UniValue)
| VEXT (tag : string) (payload : string).

(** Functions and types of other translation units, taken as they are. *)
Class Extern : Type := {
  (** utilstrencodings *)
  IsHex : string -> bool;
  ParseInt32 : string -> option Z;
  strtol : string -> Z;
  (** uint256 *)
  SetHex : string -> uint256;
  GetHex : uint256 -> string;
  (** streams/serialize: [oss << body; oss >> fCheckMemPool; oss >> vOutPoints];
      [None] is [std::ios_base::failure] *)
  Unserialize_request : string -> option (bool * list COutPoint);
  (** coins: the base [CCoinsView], the dummy backend of a fresh cache *)
  viewDummy_GetCoins : uint256 -> option CCoins;
  (** domain objects and their renderings *)
  CTransaction : Type;
  CBlock : Type;
  CBlockHeader : Type;
  CBlockIndex : Type;
  CNameData : Type;
  ser_CTransaction : CTransaction -> string;
  ser_CBlock : CBlock -> string;
  ser_CBlockHeader : CBlockHeader -> string;
  GetBlockHeader : CBlockIndex -> CBlockHeader;
  BLOCK_HAVE_DATA_set : CBlockIndex -> bool;
  nTx : CBlockIndex -> Z;
  getValue : CNameData -> valtype;
  TxToJSON : CTransaction -> uint256 -> UniValue;
  blockToJSON : CBlock -> CBlockIndex -> bool -> UniValue;
  getNameInfo : valtype -> CNameData -> UniValue;
  ValueFromAmount : Z -> UniValue;
  ScriptPubKeyToJSON : string -> bool -> UniValue;
  UniValue_write : UniValue -> string
}.

(** ** Hex text (utilstrencodings) *)

(** Modelled from the spec: [HexStr] is in utilstrencodings.cpp; it writes
    each byte as two lowercase hexadecimal characters, high nibble first. *)
Definition hexmap : list ascii := list_ascii_of_string "0123456789abcdef".

Definition hex_of_nibble (v : N) : ascii := nth (N.to_nat v) hexmap "0"%char.

Fixpoint HexStr (s : string) : string :=
  match s with
  | EmptyString => EmptyString
  | String c s' =>
      let v := N_of_ascii c in
      String (hex_of_nibble (N.shiftr v 4))
             (String (hex_of_nibble (N.land v 15)) (HexStr s'))
  end.

(** Modelled from the spec: [HexDigit] is the lookup table of
    utilstrencodings.cpp: the value of a hexadecimal character of either
    case, [None] for any other character. *)
Definition HexDigit (c : ascii) : option N :=
  let v := N_of_ascii c in
  if (48 <=? v)%N && (v <=? 57)%N then Some (v - 48)%N
  else if (97 <=? v)%N && (v <=? 102)%N then Some (v - 87)%N
  else if (65 <=? v)%N && (v <=? 70)%N then Some (v - 55)%N
  else None.

(** The white space of the C locale: space, and the controls 9 to 13. *)
Definition isspace (c : ascii) : bool :=
  let v := N_of_ascii c in
  (v =? 32)%N || ((9 <=? v)%N && (v <=? 13)%N).

(** Modelled from the spec: [ParseHex] is in utilstrencodings.cpp; it skips
    white space, reads pairs of hexadecimal characters and stops at the
    first character that is not one. *)
Fixpoint ParseHex (psz : string) : string :=
  match psz with
  | EmptyString => EmptyString
  | String c rest =>
      if isspace c then ParseHex rest
      else
        match HexDigit c with
        | None => EmptyString
        | Some hi =>
            match rest with
            | EmptyString => EmptyString
            | String c2 rest2 =>
                match HexDigit c2 with
                | None => EmptyString
                | Some lo =>
                    String (ascii_of_N (N.lor (N.shiftl hi 4) lo))
                           (ParseHex rest2)
                end
            end
        end
  end.

(** ** Wire layout of the UTXO response (serialize.h) *)

Module Ser.

(** Modelled from the spec: fixed-width integers go out as [k] bytes, least
    significant first. *)
Fixpoint le (k : nat) (z : Z) : string :=
  match k with
  | O => EmptyString
  | S k' => String (ascii_of_N (Z.to_N (z mod 256))) (le k' (z / 256))
  end.

(** The number that a run of bytes denotes, least significant byte first:
    how a reader of the wire format takes a fixed-width integer back. *)
Fixpoint read_le (s : string) : Z :=
  match s with
  | EmptyString => 0
  | String c s' => Z.of_N (N_of_ascii c) + 256 * read_le s'
  end.

(** Modelled from the spec: the count prefix of a sequence
    ([WriteCompactSize]). *)
Definition compact_size (n : nat) : string :=
  let z := Z.of_nat n in
  if z <? 253 then le 1 z
  else if z <=? 65535 then String (ascii_of_N 253) (le 2 z)
  else if z <=? 4294967295 then String (ascii_of_N 254) (le 4 z)
  else String (ascii_of_N 255) (le 8 z).

(** Modelled from the spec: the height is 4 bytes, the tip hash 32 bytes,
    the bitmap a length-prefixed byte sequence. *)
Definition int32 (z : Z) : string := le 4 (z mod 2 ^ 32).

Definition hash256 (h : uint256) : string := le 32 (h mod 2 ^ 256).

Definition bytes (v : list ascii) : string :=
  compact_size (List.length v) +++ string_of_list_ascii v.

(** Modelled from the spec: a serialized output is an 8-byte value and the
    length-prefixed script bytes. *)
Definition txout (o : CTxOut) : string :=
  le 8 (nValue o mod 2 ^ 64)
  +++ compact_size (String.length (scriptPubKey o)) +++ scriptPubKey o.

(** [CCoin::SerializationOp] (lines 50-56). *)
Definition coin (c : CCoin) : string :=
  le 4 (nTxVer c mod 2 ^ 32) +++ le 4 (nHeight c mod 2 ^ 32) +++ txout (out c).

(** Modelled from the spec: the hit list is a count-prefixed sequence. *)
Definition coins (cs : list CCoin) : string :=
  compact_size (List.length cs) +++ String.concat "" (map coin cs).

End Ser.

(** The layout of one coin record as the spec gives it: the transaction
    version and the height in 4 bytes each, the value in 8 bytes, all least
    significant byte first, then the script behind its length. *)
Definition spec_coin_layout (c : CCoin) (s : string) : Prop :=
  exists ver height value : string,
    s = ver +++ height +++ value
        +++ Ser.compact_size (String.length (scriptPubKey (out c)))
        +++ scriptPubKey (out c)
    /\ (String.length ver = 4%nat /\ Ser.read_le ver = nTxVer c mod 2 ^ 32)
    /\ (String.length height = 4%nat
        /\ Ser.read_le height = nHeight c mod 2 ^ 32)
    /\ (String.length value = 8%nat
        /\ Ser.read_le value = nValue (out c) mod 2 ^ 64).

(** ** [boost::dynamic_bitset<unsigned char>] *)

(** A bit sequence as text, one character for each bit in order. *)
Fixpoint bitmap_text (bits : list bool) : string :=
  match bits with
  | [] => EmptyString
  | b :: bits' => (if b then "1" else "0") +++ bitmap_text bits'
  end.

(** [hits[i] = true]. *)
Definition bitset_set (hits : list bool) (i : nat) : list bool :=
  list_set hits i true.

(** Modelled from the spec: the bitmap is packed to bytes with outpoint 0 in
    the lowest-order position of the first byte.  One block: bit [j] of
    the block is element [j]. *)
Definition block_of (bits : list bool) : ascii :=
  Ascii (nth 0 bits false) (nth 1 bits false) (nth 2 bits false)
        (nth 3 bits false) (nth 4 bits false) (nth 5 bits false)
        (nth 6 bits false) (nth 7 bits false).

(** The blocks of a bit set, eight bits at a time; the length of the bit set
    is fuel enough. *)
Fixpoint to_block_range_aux (fuel : nat) (hits : list bool) : list ascii :=
  match fuel, hits with
  | _, [] => []
  | O, _ :: _ => []
  | S fuel', _ :: _ =>
      block_of (firstn 8 hits) :: to_block_range_aux fuel' (skipn 8 hits)
  end.

(** [boost::to_block_range(hits, back_inserter(bitmap))]. *)
Definition to_block_range (hits : list bool) : list ascii :=
  to_block_range_aux (List.length hits) hits.

(** ** Shared state and the connection *)

(** The result of a call: a thrown [RestErr] or a value. *)
Inductive Outcome (A : Type) : Type :=
| Threw (e : RestErr)
| Val (a : A).
Arguments Threw {A} e.
Arguments Val {A} a.

Section Gateway.

Context {X : Extern}.

(** The state guarded by [cs_main] and [mempool.cs], as rest.cpp reads it. *)
Record ChainState : Type := mkChain {
  mapBlockIndex : uint256 -> option CBlockIndex;
  chainActive_Contains : CBlockIndex -> bool;
  chainActive_Next : CBlockIndex -> option CBlockIndex;
  chainActive_Height : Z;
  chainActive_Tip_hash : uint256;
  fHavePruned : bool;
  ReadBlockFromDisk : CBlockIndex -> option CBlock;
  GetTransaction : uint256 -> option (CTransaction * uint256);
  (** [CCoinsViewMemPool(pcoinsTip, mempool).GetCoins] *)
  viewMempool_GetCoins : uint256 -> option CCoins;
  (** the outpoints spent by unconfirmed transactions, [mempool.mapNextTx] *)
  mapNextTx : list COutPoint;
  pcoinsTip_GetName : valtype -> option CNameData;
  RPCIsInWarmup : option string;
  getblockchaininfo : UniValue
}.

(** What a handler writes to [conn->stream()]. *)
Inductive StreamItem : Type :=
| HTTPReply (st : HTTPStatusCode) (strMsg : string)
            (keepalive headersOnly : bool) (contentType : string)
| HTTPReplyHeader (st : HTTPStatusCode) (keepalive : bool)
                  (contentLength : nat) (contentType : string)
| HTTPError (st : HTTPStatusCode) (keepalive : bool)
| Body (s : string)
| Flush.

(** What a handler does to the shared state, in program order. *)
Inductive Event : Type :=
| EvLock
| EvUnlock
| EvGetCoins (h : uint256)
| EvPruneSpent (h : uint256)
| EvChainHeight
| EvChainTip
| EvRead (what : string).

(** [w_chain] is the shared state as last seen.  [w_pending] is what the
    other threads are about to do to it: each time this thread looks at the
    shared state without holding the lock, the next pending change has
    happened.  [w_held] tells whether this thread holds [cs_main]. *)
Record World : Type := mkWorld {
  w_chain : ChainState;
  w_pending : list (ChainState -> ChainState);
  w_held : bool;
  w_log : list Event;
  w_conn : list StreamItem
}.

Definition M (A : Type) : Type := World -> Outcome A * World.

Definition ret {A : Type} (a : A) : M A := fun w => (Val a, w).

Definition throw {A : Type} (e : RestErr) : M A := fun w => (Threw e, w).

Definition bind {A B : Type} (m : M A) (k : A -> M B) : M B :=
  fun w =>
    match m w with
    | (Threw e, w') => (Threw e, w')
    | (Val a, w') => k a w'
    end.

(** Lifting a pure computation that may throw. *)
Definition lift {A : Type} (r : RestErr + A) : M A :=
  match r with
  | inl e => throw e
  | inr a => ret a
  end.

(** [conn->stream() << item]. *)
Definition write (item : StreamItem) : M unit :=
  fun w =>
    (Val tt, {| w_chain := w_chain w; w_pending := w_pending w;
                w_held := w_held w; w_log := w_log w;
                w_conn := w_conn w ++ [item] |}).

(** The world after [items] have gone out on the connection. *)
Definition add_conn (items : list StreamItem) (w : World) : World :=
  {| w_chain := w_chain w; w_pending := w_pending w; w_held := w_held w;
     w_log := w_log w; w_conn := w_conn w ++ items |}.

(** The other threads run, unless this thread holds the lock. *)
Definition yield (w : World) : World :=
  if w_held w then w
  else
    match w_pending w with
    | [] => w
    | f :: rest =>
        {| w_chain := f (w_chain w); w_pending := rest;
           w_held := w_held w; w_log := w_log w; w_conn := w_conn w |}
    end.

Definition log_event (e : Event) (w : World) : World :=
  {| w_chain := w_chain w; w_pending := w_pending w; w_held := w_held w;
     w_log := w_log w ++ [e]; w_conn := w_conn w |}.

(** A read of the shared state: stable under the lock, and otherwise
    whatever the other threads have made of it by now. *)
Definition observe (e : Event) : M ChainState :=
  fun w => let w' := yield w in (Val (w_chain w'), log_event e w').

Definition acquire (w : World) : World :=
  let w' := yield w in
  {| w_chain := w_chain w'; w_pending := w_pending w'; w_held := true;
     w_log := w_log w' ++ [EvLock]; w_conn := w_conn w' |}.

Definition release (w : World) : World :=
  {| w_chain := w_chain w; w_pending := w_pending w; w_held := false;
     w_log := w_log w ++ [EvUnlock]; w_conn := w_conn w |}.

(** [{ LOCK(cs_main); body }]: the lock is released when the scope is left,
    also by an exception. *)
Definition LOCK {A : Type} (body : M A) : M A :=
  fun w => let (r, w') := body (acquire w) in (r, release w').

(** [m] leaves the connection as it found it. *)
Definition writes_nothing {A : Type} (m : M A) : Prop :=
  forall w r w', m w = (r, w') -> w_conn w' = w_conn w.

(** When [m] throws, it has written nothing. *)
Definition throws_before_writing {A : Type} (m : M A) : Prop :=
  forall w e w', m w = (Threw e, w') -> w_conn w' = w_conn w.

(** The only flag [m] returns is [true]. *)
Definition returns_true (m : M bool) : Prop :=
  forall w b w', m w = (Val b, w') -> b = true.

End Gateway.

Notation "x <- m ;; k" := (bind m (fun x => k))
  (at level 61, m at next level, right associativity).
Notation "m ;;; k" := (bind m (fun _ => k))
  (at level 61, right associativity).

Definition LF : string := String (ascii_of_nat 10) EmptyString.

Definition CRLF : string := String (ascii_of_nat 13) LF.

(** [(int32_t)v] for an unsigned 32-bit [v]. *)
Definition to_int32 (z : Z) : Z :=
  let m := z mod 2 ^ 32 in
  if m <? 2 ^ 31 then m else m - 2 ^ 32.

(** ** AvailableDataFormatsString (lines 96-110) *)

Fixpoint AvailableDataFormats_loop (tbl : list (RetFormat * string))
  (formats : string) : string :=
  match tbl with
  | [] => formats
  | (_, name) :: tbl' =>
      if (0 <? String.length name)%nat then
        AvailableDataFormats_loop tbl' (formats +++ "." +++ name +++ ", ")
      else AvailableDataFormats_loop tbl' formats
  end.

Definition AvailableDataFormatsString : string :=
  let formats := AvailableDataFormats_loop rf_names "" in
  if (0 <? String.length formats)%nat then
    Str.substr_to formats (String.length formats - 2)
  else formats.

Definition output_format_not_found : RestErr :=
  RESTERR HTTP_NOT_FOUND
    ("output format not found (available: " +++ AvailableDataFormatsString
     +++ ")").

Definition ERR_empty_request : RestErr :=
  RESTERR HTTP_INTERNAL_SERVER_ERROR "Error: empty request".

Definition ERR_parse_error : RestErr :=
  RESTERR HTTP_INTERNAL_SERVER_ERROR "Parse error".

Definition ERR_combination : RestErr :=
  RESTERR HTTP_INTERNAL_SERVER_ERROR
    "Combination of URI scheme inputs and raw post data is not allowed".

(** [strprintf("Error: max outpoints exceeded (max: %d, tried: %d)", ...)]. *)
Definition ERR_max_outpoints (tried : nat) : RestErr :=
  RESTERR HTTP_INTERNAL_SERVER_ERROR
    ("Error: max outpoints exceeded (max: "
     +++ Str.itostr (Z.to_nat MAX_GETUTXOS_OUTPOINTS)
     +++ ", tried: " +++ Str.itostr tried +++ ")").

(** Modelled from the spec: [CTxMemPool::pruneSpent] (txmempool.cpp) spends,
    in the given record, every output of [hashTx] that an unconfirmed
    transaction consumes. *)
Fixpoint pruneSpent (next : list COutPoint) (hashTx : uint256)
  (coins : CCoins) : CCoins :=
  match next with
  | [] => coins
  | op :: next' =>
      pruneSpent next' hashTx
        (if op_hash op =? hashTx then CCoins_Spend coins (op_n op)
         else coins)
  end.

Section Handlers.

Context {X : Extern}.

(** ** ParseHashStr (lines 112-119) *)

Definition ParseHashStr (strReq : string) : option uint256 :=
  if negb (IsHex strReq) || negb (String.length strReq =? 64)%nat then None
  else Some (SetHex strReq).

(** The three shapes of a success reply. *)
Definition reply_binary (fRun : bool) (body : string) (contentType : string)
  : M bool :=
  write (HTTPReplyHeader HTTP_OK fRun (String.length body) contentType) ;;;
  write (Body body) ;;; write Flush ;;; ret true.

Definition reply_text (fRun : bool) (strHex : string) : M bool :=
  write (HTTPReply HTTP_OK strHex fRun false "text/plain") ;;;
  write Flush ;;; ret true.

Definition reply_json (fRun : bool) (strJSON : string) : M bool :=
  write (HTTPReply HTTP_OK strJSON fRun false "application/json") ;;;
  write Flush ;;; ret true.

(** ** rest_getutxos (lines 389-583) *)

(** Lines 398-403. *)
Definition getutxos_uriParts (param : string) : list string :=
  if (1 <? String.length param)%nat then
    Str.split "/" (Str.substr_from param 1)
  else [].

(** One token [<txid>-<n>] (lines 425-434).  Without a hyphen [find] is
    [npos]: [substr(0, npos)] and [substr(npos + 1)] are both the token. *)
Definition getutxos_token (part : string) : RestErr + COutPoint :=
  let strTxid :=
    match Str.find "-" part with
    | Some p => Str.substr_to part p
    | None => part
    end in
  let strOutput :=
    match Str.find "-" part with
    | Some p => Str.substr_from part (p + 1)
    | None => part
    end in
  match ParseInt32 strOutput with
  | None => inl ERR_parse_error
  | Some nOutput =>
      if negb (IsHex strTxid) then inl ERR_parse_error
      else inr (mkOutPoint (SetHex strTxid) (int32_to_uint32 nOutput))
  end.

(** The [for] loop of lines 423-435. *)
Fixpoint getutxos_uri_loop (parts : list string) (vOutPoints : list COutPoint)
  : RestErr + list COutPoint :=
  match parts with
  | [] => inr vOutPoints
  | part :: parts' =>
      match getutxos_token part with
      | inl e => inl e
      | inr op => getutxos_uri_loop parts' (vOutPoints ++ [op])
      end
  end.

(** The variables the input phase leaves behind. *)
Record UtxoInput : Type := mkInput {
  fInputParsed : bool;
  fCheckMemPool : bool;
  vOutPoints : list COutPoint
}.

(** Lines 405-441: the empty-request check and the URI channel. *)
Definition getutxos_uri (strRequest : string) (uriParts : list string)
  : RestErr + UtxoInput :=
  if (String.length strRequest =? 0)%nat && (List.length uriParts =? 0)%nat
  then inl ERR_empty_request
  else if (0 <? List.length uriParts)%nat then
    let fCheckMemPool :=
      match uriParts with
      | p0 :: _ => String.eqb p0 "checkmempool"
      | [] => false
      end in
    match getutxos_uri_loop
            (skipn (if fCheckMemPool then 1 else 0) uriParts) [] with
    | inl e => inl e
    | inr pts =>
        if (0 <? List.length pts)%nat then inr (mkInput true fCheckMemPool pts)
        else inl ERR_empty_request
    end
  else inr (mkInput false false []).

(** The [RF_BINARY] arm (lines 452-470), which [RF_HEX] falls into. *)
Definition getutxos_body_binary (strRequestMutable : string) (i : UtxoInput)
  : RestErr + UtxoInput :=
  if (0 <? String.length strRequestMutable)%nat then
    if fInputParsed i then inl ERR_combination
    else
      match Unserialize_request strRequestMutable with
      | None => inl ERR_parse_error
      | Some (f, pts) => inr (mkInput (fInputParsed i) f pts)
      end
  else inr i.

(** The [switch (rf)] of lines 443-480. *)
Definition getutxos_body (rf : RetFormat) (strRequest : string) (i : UtxoInput)
  : RestErr + UtxoInput :=
  match rf with
  | RF_HEX => getutxos_body_binary (ParseHex strRequest) i
  | RF_BINARY => getutxos_body_binary strRequest i
  | RF_JSON => if negb (fInputParsed i) then inl ERR_empty_request else inr i
  | RF_UNDEF => inl output_format_not_found
  end.

(** Lines 398-480 together: the resolved query or the error thrown. *)
Definition getutxos_input (rf : RetFormat) (param strRequest : string)
  : RestErr + UtxoInput :=
  match getutxos_uri strRequest (getutxos_uriParts param) with
  | inl e => inl e
  | inr i => getutxos_body rf strRequest i
  end.

(** [view.GetCoins(hash, coins)]: the cache [view] is fresh and sits on the
    dummy backend unless [fCheckMemPool] switched it to the mempool view. *)
Definition view_GetCoins (fCheckMemPool : bool) (h : uint256)
  : M (option CCoins) :=
  c <- observe (EvGetCoins h) ;;
  ret (if fCheckMemPool then viewMempool_GetCoins c h
       else viewDummy_GetCoins h).

(** [mempool.pruneSpent(hash, coins)]. *)
Definition mempool_pruneSpent (h : uint256) (coins : CCoins) : M CCoins :=
  c <- observe (EvPruneSpent h) ;;
  ret (pruneSpent (mapNextTx c) h coins).

(** The variables of the query phase. *)
Record UtxoQuery : Type := mkQuery {
  hits : list bool;
  outs : list CCoin;
  bitmapStringRepresentation : string
}.

(** The body of the [for] loop (lines 504-521) for outpoint [i]. *)
Definition getutxos_step (fCheckMemPool : bool) (i : nat) (op : COutPoint)
  (q : UtxoQuery) : M UtxoQuery :=
  found <- view_GetCoins fCheckMemPool (op_hash op) ;;
  q1 <- match found with
        | Some coins0 =>
            coins <- mempool_pruneSpent (op_hash op) coins0 ;;
            if CCoins_IsAvailable coins (op_n op) then
              let coin :=
                {| nTxVer := to_uint32 (coins_nVersion coins);
                   nHeight := to_uint32 (coins_nHeight coins);
                   out := nth (N.to_nat (op_n op)) (coins_vout coins)
                              CTxOut_Null |} in
              ret (mkQuery (bitset_set (hits q) i) (outs q ++ [coin])
                           (bitmapStringRepresentation q))
            else ret q
        | None => ret q
        end ;;
  ret (mkQuery (hits q1) (outs q1)
               (bitmapStringRepresentation q1
                +++ (if nth i (hits q1) false then "1" else "0"))).

(** The [for] loop of lines 503-522; [i] is the index of the head of
    [todo]. *)
Fixpoint getutxos_loop (fCheckMemPool : bool) (i : nat)
  (todo : list COutPoint) (q : UtxoQuery) : M UtxoQuery :=
  match todo with
  | [] => ret q
  | op :: todo' =>
      q' <- getutxos_step fCheckMemPool i op q ;;
      getutxos_loop fCheckMemPool (S i) todo' q'
  end.

(** Lines 486-523: the bitset is sized to the query, and the loop runs
    under [LOCK2(cs_main, mempool.cs)]. *)
Definition getutxos_query (fCheckMemPool : bool) (vOutPoints : list COutPoint)
  : M UtxoQuery :=
  LOCK (getutxos_loop fCheckMemPool 0 vOutPoints
          (mkQuery (repeat false (List.length vOutPoints)) [] "")).

(** The hit test as the specification words it, on one snapshot [c] of the
    chain: the coin record of an outpoint whose transaction is known to the
    view and whose entry, after the mempool's spends are pruned, is inside
    the output array and not spent; [None] is a miss. *)
Definition spec_utxo_hit (c : ChainState) (fCheckMemPool : bool)
  (op : COutPoint) : option CCoin :=
  match (if fCheckMemPool then viewMempool_GetCoins c (op_hash op)
         else viewDummy_GetCoins (op_hash op)) with
  | None => None
  | Some coins0 =>
      let coins := pruneSpent (mapNextTx c) (op_hash op) coins0 in
      match nth_error (coins_vout coins) (N.to_nat (op_n op)) with
      | None => None
      | Some o =>
          if CTxOut_IsNull o then None
          else Some {| nTxVer := to_uint32 (coins_nVersion coins);
                       nHeight := to_uint32 (coins_nHeight coins);
                       out := o |}
      end
  end.

Definition is_hit (r : option CCoin) : bool :=
  match r with Some _ => true | None => false end.

(** The hit records of a list of lookups, in order. *)
Fixpoint hit_records (rs : list (option CCoin)) : list CCoin :=
  match rs with
  | [] => []
  | Some coin :: rs' => coin :: hit_records rs'
  | None :: rs' => hit_records rs'
  end.

(** Lines 531 and 540: what both streams are filled with. *)
Definition getutxos_serialize (height : Z) (tip : uint256)
  (bitmap : list ascii) (outs : list CCoin) : string :=
  Ser.int32 height +++ Ser.hash256 tip +++ Ser.bytes bitmap +++ Ser.coins outs.

Definition utxo_to_json (coin : CCoin) : UniValue :=
  VOBJ [ ("txvers", VNUM (to_int32 (nTxVer coin)));
         ("height", VNUM (to_int32 (nHeight coin)));
         ("value", ValueFromAmount (nValue (out coin)));
         ("scriptPubKey", ScriptPubKeyToJSON (scriptPubKey (out coin)) true) ].

(** Lines 524-579.  [chainActive] is read here, in the arms of the switch. *)
Definition getutxos_render (rf : RetFormat) (fRun : bool) (q : UtxoQuery)
  : M bool :=
  let bitmap := to_block_range (hits q) in
  match rf with
  | RF_BINARY =>
      c1 <- observe EvChainHeight ;;
      c2 <- observe EvChainTip ;;
      reply_binary fRun
        (getutxos_serialize (chainActive_Height c1) (chainActive_Tip_hash c2)
                            bitmap (outs q))
        "application/octet-stream"
  | RF_HEX =>
      c1 <- observe EvChainHeight ;;
      c2 <- observe EvChainTip ;;
      reply_text fRun
        (HexStr (getutxos_serialize (chainActive_Height c1)
                                    (chainActive_Tip_hash c2)
                                    bitmap (outs q)) +++ LF)
  | RF_JSON =>
      c1 <- observe EvChainHeight ;;
      c2 <- observe EvChainTip ;;
      reply_json fRun
        (UniValue_write
           (VOBJ [ ("chainHeight", VNUM (chainActive_Height c1));
                   ("chaintipHash", VSTR (GetHex (chainActive_Tip_hash c2)));
                   ("bitmap", VSTR (bitmapStringRepresentation q));
                   ("utxos", VARR (map utxo_to_json (outs q))) ]) +++ LF)
  | RF_UNDEF => throw output_format_not_found
  end.

Definition rest_getutxos (strURIPart strRequest : string) (fRun : bool)
  : M bool :=
  let (param, rf) := ParseDataFormat strURIPart in
  i <- lift (getutxos_input rf param strRequest) ;;
  if MAX_GETUTXOS_OUTPOINTS <? Z.of_nat (List.length (vOutPoints i)) then
    throw (ERR_max_outpoints (List.length (vOutPoints i)))
  else
    q <- getutxos_query (fCheckMemPool i) (vOutPoints i) ;;
    getutxos_render rf fRun q.

(** ** rest_headers (lines 169-231) *)

(** The [while] loop of lines 198-203; it stops after [count] headers at the
    latest, so [count] iterations are enough. *)
Fixpoint headers_loop (c : ChainState) (fuel : nat) (count : Z)
  (pindex : option CBlockIndex) (headers : list CBlockHeader)
  : list CBlockHeader :=
  match fuel with
  | O => headers
  | S fuel' =>
      match pindex with
      | None => headers
      | Some p =>
          if chainActive_Contains c p then
            let headers := headers ++ [GetBlockHeader p] in
            if Z.of_nat (List.length headers) =? count then headers
            else headers_loop c fuel' count (chainActive_Next c p) headers
          else headers
      end
  end.

Definition rest_headers (strURIPart strRequest : string) (fRun : bool)
  : M bool :=
  let (param, rf) := ParseDataFormat strURIPart in
  let path := Str.split "/" param in
  if negb (List.length path =? 2)%nat then
    throw (RESTERR HTTP_BAD_REQUEST
      "No header count specified. Use /rest/headers/<count>/<hash>.<ext>.")
  else
    let path0 := nth 0 path "" in
    let count := strtol path0 in
    if (count <? 1) || (2000 <? count) then
      throw (RESTERR HTTP_BAD_REQUEST ("Header count out of range: " +++ path0))
    else
      let hashStr := nth 1 path "" in
      match ParseHashStr hashStr with
      | None => throw (RESTERR HTTP_BAD_REQUEST ("Invalid hash: " +++ hashStr))
      | Some hash =>
          headers <- LOCK (c <- observe (EvRead "mapBlockIndex") ;;
                           ret (headers_loop c (Z.to_nat count) count
                                             (mapBlockIndex c hash) [])) ;;
          let ssHeader := String.concat "" (map ser_CBlockHeader headers) in
          match rf with
          | RF_BINARY => reply_binary fRun ssHeader "application/octet-stream"
          | RF_HEX => reply_text fRun (HexStr ssHeader +++ LF)
          | _ => throw (RESTERR HTTP_NOT_FOUND
                   "output format not found (available: .bin, .hex)")
          end
      end.

(** ** rest_block (lines 233-310) *)

Definition rest_block (strURIPart strRequest : string) (fRun : bool)
  (showTxDetails : bool) : M bool :=
  let (hashStr, rf) := ParseDataFormat strURIPart in
  match ParseHashStr hashStr with
  | None => throw (RESTERR HTTP_BAD_REQUEST ("Invalid hash: " +++ hashStr))
  | Some hash =>
      found <- LOCK (
        c <- observe (EvRead "mapBlockIndex") ;;
        match mapBlockIndex c hash with
        | None => throw (RESTERR HTTP_NOT_FOUND (hashStr +++ " not found"))
        | Some pblockindex =>
            if fHavePruned c && negb (BLOCK_HAVE_DATA_set pblockindex)
               && (0 <? nTx pblockindex)
            then throw (RESTERR HTTP_NOT_FOUND
                          (hashStr +++ " not available (pruned data)"))
            else
              match ReadBlockFromDisk c pblockindex with
              | None =>
                  throw (RESTERR HTTP_NOT_FOUND (hashStr +++ " not found"))
              | Some block => ret (block, pblockindex)
              end
        end) ;;
      let (block, pblockindex) := found : CBlock * CBlockIndex in
      let ssBlock := ser_CBlock block in
      match rf with
      | RF_BINARY => reply_binary fRun ssBlock "application/octet-stream"
      | RF_HEX => reply_text fRun (HexStr ssBlock +++ LF)
      | RF_JSON =>
          reply_json fRun
            (UniValue_write (blockToJSON block pblockindex showTxDetails)
             +++ LF)
      | RF_UNDEF => throw output_format_not_found
      end
  end.

Definition rest_block_extended (strURIPart strRequest : string) (fRun : bool)
  : M bool := rest_block strURIPart strRequest fRun true.

Definition rest_block_notxdetails (strURIPart strRequest : string)
  (fRun : bool) : M bool := rest_block strURIPart strRequest fRun false.

(** ** rest_chaininfo (lines 312-336) *)

Definition rest_chaininfo (strURIPart strRequest : string) (fRun : bool)
  : M bool :=
  let (param, rf) := ParseDataFormat strURIPart in
  match rf with
  | RF_JSON =>
      c <- observe (EvRead "getblockchaininfo") ;;
      reply_json fRun (UniValue_write (getblockchaininfo c) +++ LF)
  | _ => throw (RESTERR HTTP_NOT_FOUND
           "output format not found (available: json)")
  end.

(** ** rest_tx (lines 338-387) *)

Definition rest_tx (strURIPart strRequest : string) (fRun : bool) : M bool :=
  let (hashStr, rf) := ParseDataFormat strURIPart in
  match ParseHashStr hashStr with
  | None => throw (RESTERR HTTP_BAD_REQUEST ("Invalid hash: " +++ hashStr))
  | Some hash =>
      c <- observe (EvRead "GetTransaction") ;;
      match GetTransaction c hash with
      | None => throw (RESTERR HTTP_NOT_FOUND (hashStr +++ " not found"))
      | Some (tx, hashBlock) =>
          let ssTx := ser_CTransaction tx in
          match rf with
          | RF_BINARY => reply_binary fRun ssTx "application/octet-stream"
          | RF_HEX => reply_text fRun (HexStr ssTx +++ LF)
          | RF_JSON =>
              reply_json fRun (UniValue_write (TxToJSON tx hashBlock) +++ LF)
          | RF_UNDEF => throw output_format_not_found
          end
      end
  end.

(** ** rest_name (lines 585-636) *)

Definition ValtypeToString (v : valtype) : string := string_of_list_ascii v.

Definition rest_name (strURIPart strRequest : string) (fRun : bool)
  : M bool :=
  let (encodedName, rf) := ParseDataFormat strURIPart in
  match DecodeName encodedName with
  | None => throw (RESTERR HTTP_BAD_REQUEST
                     ("Invalid encoded name: " +++ encodedName))
  | Some plainName =>
      c <- observe (EvRead "pcoinsTip->GetName") ;;
      match pcoinsTip_GetName c plainName with
      | None => throw (RESTERR HTTP_NOT_FOUND
                  ("'" +++ ValtypeToString plainName +++ "' not found"))
      | Some data =>
          match rf with
          | RF_BINARY =>
              reply_binary fRun (ValtypeToString (getValue data)) "text/plain"
          | RF_HEX =>
              reply_text fRun
                (HexStr (string_of_list_ascii (getValue data)) +++ LF)
          | RF_JSON =>
              reply_json fRun
                (UniValue_write (getNameInfo plainName data) +++ LF)
          | RF_UNDEF => throw output_format_not_found
          end
      end
  end.

(** ** The route table and the dispatcher (lines 638-680) *)

(** A handler takes the residual path, the body and [fRun]; the header map
    is passed along in the source but no handler reads it. *)
Definition Handler : Type := string -> string -> bool -> M bool.

Definition uri_prefixes : list (string * Handler) :=
  [ ("/rest/tx/", rest_tx);
    ("/rest/block/notxdetails/", rest_block_notxdetails);
    ("/rest/block/", rest_block_extended);
    ("/rest/chaininfo", rest_chaininfo);
    ("/rest/headers/", rest_headers);
    ("/rest/getutxos", rest_getutxos);
    ("/rest/name/", rest_name) ].

(** The [for] loop of lines 666-672: [Some b] is the [return] of the first
    matching handler, [None] is falling out of the loop. *)
Fixpoint dispatch (tbl : list (string * Handler))
  (strURI strRequest : string) (fRun : bool) : M (option bool) :=
  match tbl with
  | [] => ret None
  | (prefix, handler) :: tbl' =>
      let plen := String.length prefix in
      if String.eqb (Str.substr_to strURI plen) prefix then
        b <- handler (Str.substr_from strURI plen) strRequest fRun ;;
        ret (Some b)
      else dispatch tbl' strURI strRequest fRun
  end.

(** The [try] block of lines 661-672. *)
Definition HTTPReq_REST_try (tbl : list (string * Handler))
  (strURI strRequest : string) (fRun : bool) : M (option bool) :=
  c <- observe (EvRead "RPCIsInWarmup") ;;
  match RPCIsInWarmup c with
  | Some statusmessage =>
      throw (RESTERR HTTP_SERVICE_UNAVAILABLE
               ("Service temporarily unavailable: " +++ statusmessage))
  | None => dispatch tbl strURI strRequest fRun
  end.

(** The dispatcher over a route table: the returned flag and the world
    afterwards. *)
Definition HTTPReq_REST_on (tbl : list (string * Handler))
  (strURI strRequest : string) (fRun : bool) (w : World) : bool * World :=
  match HTTPReq_REST_try tbl strURI strRequest fRun w with
  | (Threw re, w1) =>
      let (_, w2) :=
        (write (HTTPReply (status re) (message re +++ CRLF) false false
                          "text/plain") ;;; write Flush) w1 in
      (false, w2)
  | (Val (Some b), w1) => (b, w1)
  | (Val None, w1) =>
      let (_, w2) :=
        (write (HTTPError HTTP_NOT_FOUND false) ;;; write Flush) w1 in
      (false, w2)
  end.

Definition HTTPReq_REST : string -> string -> bool -> World -> bool * World :=
  HTTPReq_REST_on uri_prefixes.

End Handlers.

(** ** A concrete node, to run the handlers on *)

Module Demo.

Definition all_hex (s : string) : bool :=
  forallb (fun c => match HexDigit c with Some _ => true | None => false end)
          (list_ascii_of_string s).

(** Hexadecimal text: only hexadecimal characters, an even, non-zero number
    of them. *)
Definition isHexText (s : string) : bool :=
  all_hex s && (0 <? String.length s)%nat && Nat.even (String.length s).

(** The number a hexadecimal text denotes, up to its first other character. *)
Fixpoint hex_value (s : string) (acc : Z) : Z :=
  match s with
  | EmptyString => acc
  | String c s' =>
      match HexDigit c with
      | Some d => hex_value s' (16 * acc + Z.of_N d)
      | None => acc
      end
  end.

Definition setHex (s : string) : uint256 := hex_value s 0 mod 2 ^ 256.

Fixpoint rev_string (s : string) : string :=
  match s with
  | EmptyString => EmptyString
  | String c s' => rev_string s' +++ String c EmptyString
  end.

Definition getHex (h : uint256) : string := HexStr (rev_string (Ser.hash256 h)).

(** What [c_str()] hands to a C function: the text up to its first NUL. *)
Fixpoint c_str (s : string) : string :=
  match s with
  | EmptyString => EmptyString
  | String c s' => if Ascii.eqb c zero then EmptyString else String c (c_str s')
  end.

Fixpoint skip_space (s : string) : string :=
  match s with
  | EmptyString => EmptyString
  | String c s' => if isspace c then skip_space s' else s
  end.

Definition is_digit (c : ascii) : bool :=
  let v := N_of_ascii c in (48 <=? v)%N && (v <=? 57)%N.

(** The decimal digits at the head of a text: the number they denote after
    [acc], and the text that follows them. *)
Fixpoint dec_digits (s : string) (acc : Z) : Z * string :=
  match s with
  | EmptyString => (acc, EmptyString)
  | String c s' =>
      if is_digit c
      then dec_digits s' (10 * acc + (Z.of_N (N_of_ascii c) - 48))
      else (acc, s)
  end.

(** [strtol(str, &endp, 10)], before the number is cut to a [long]: white
    space is skipped, then an optional sign, then digits as far as they go;
    the result is the number and the text at [endp].  With no digit in that
    place nothing is converted: the number is 0 and [endp] is [str]. *)
Definition strtol_scan (str : string) : Z * string :=
  let t := skip_space str in
  let (neg, u) :=
    match t with
    | String "-" u => (true, u)
    | String "+" u => (false, u)
    | _ => (false, t)
    end in
  match u with
  | EmptyString => (0, str)
  | String c _ =>
      if is_digit c
      then let (n, rest) := dec_digits u 0 in
           (if neg then - n else n, rest)
      else (0, str)
  end.

(** [ParseInt32], which calls [strtol] on [str.c_str()]: the whole text must
    have been consumed ([*endp == 0]), without overflow, and the number must
    lie in the signed 32-bit range.  Leading white space and a plus sign
    pass, as they do in [strtol]; so does the empty text, as 0. *)
Definition parseInt32 (s : string) : option Z :=
  let (n, rest) := strtol_scan (c_str s) in
  match rest with
  | EmptyString =>
      if (- 2 ^ 31 <=? n) && (n <=? 2 ^ 31 - 1) then Some n else None
  | String _ _ => None
  end.

(** [strtol(str.c_str(), NULL, 10)] with a 64-bit [long]: the number that
    heads the text, 0 when there is none, the nearest [long] on overflow. *)
Definition strtol10 (s : string) : Z :=
  let n := fst (strtol_scan (c_str s)) in
  Z.max (- 2 ^ 63) (Z.min n (2 ^ 63 - 1)).

Fixpoint le_value (s : string) : Z :=
  match s with
  | EmptyString => 0
  | String c s' => Z.of_N (N_of_ascii c) + 256 * le_value s'
  end.

(** [CDataStream::read]: the next [k] bytes and what follows them; too few
    bytes left is a failure. *)
Definition read_bytes (k : nat) (s : string) : option (string * string) :=
  if (String.length s <? k)%nat then None
  else Some (Str.substr_to s k, Str.substr_from s k).

Definition MAX_SIZE : Z := 33554432.

(** [ReadCompactSize]: a first byte below 253 is the size itself; 253, 254
    and 255 announce a size of 2, 4 and 8 bytes, least significant first.
    A size written longer than it needs, or above [MAX_SIZE], is a
    failure. *)
Definition read_compact_size (s : string) : option (Z * string) :=
  match s with
  | EmptyString => None
  | String c rest =>
      let v := Z.of_N (N_of_ascii c) in
      let wide (k : nat) (least : Z) :=
        match read_bytes k rest with
        | Some (b, rest') =>
            if le_value b <? least then None else Some (le_value b, rest')
        | None => None
        end in
      let size :=
        if v <? 253 then Some (v, rest)
        else if v =? 253 then wide 2%nat 253
        else if v =? 254 then wide 4%nat 65536
        else wide 8%nat 4294967296 in
      match size with
      | Some (n, rest') => if MAX_SIZE <? n then None else Some (n, rest')
      | None => None
      end
  end.

(** [k] outpoints, 36 bytes each: the 32 bytes of the hash, then the index
    in 4 bytes, least significant first. *)
Fixpoint read_outpoints (k : nat) (s : string) : option (list COutPoint) :=
  match k with
  | O => Some []
  | S k' =>
      if (String.length s <? 36)%nat then None
      else
        match read_outpoints k' (Str.substr_from s 36) with
        | None => None
        | Some pts =>
            Some (mkOutPoint (le_value (substring 0 32 s))
                             (Z.to_N (le_value (substring 32 4 s))) :: pts)
        end
  end.

(** Lines 460-463.  [oss << strRequestMutable] writes the body into the
    stream as a string, that is, behind the prefix that holds its length.
    [oss >> fCheckMemPool] then reads the first byte of the stream, which is
    the first byte of that prefix, and [oss >> vOutPoints] reads a count and
    that many outpoints from the body's own bytes.  Bytes left over are not
    looked at. *)
Definition unserialize_request (s : string) : option (bool * list COutPoint) :=
  match Ser.compact_size (String.length s) +++ s with
  | EmptyString => None
  | String f rest =>
      match read_compact_size rest with
      | Some (n, rest') =>
          match read_outpoints (Z.to_nat n) rest' with
          | Some pts => Some (negb (Ascii.eqb f zero), pts)
          | None => None
          end
      | None => None
      end
  end.

Definition QUOTE : string := String (ascii_of_nat 34) EmptyString.

Definition dec_string (z : Z) : string :=
  if z <? 0 then "-" +++ Str.itostr (Z.to_nat (- z)) else Str.itostr (Z.to_nat z).

Fixpoint write_json (v : UniValue) : string :=
  match v with
  | VSTR s => QUOTE +++ s +++ QUOTE
  | VNUM z => dec_string z
  | VOBJ kv =>
      "{" +++ String.concat ","
                (map (fun p => QUOTE +++ fst p +++ QUOTE +++ ":"
                               +++ write_json (snd p)) kv) +++ "}"
  | VARR vs => "[" +++ String.concat "," (map write_json vs) +++ "]"
  | VEXT _ payload => payload
  end.

(** Domain objects are kept in serialized form. *)
#[local] Instance node : Extern := {|
  IsHex := isHexText;
  ParseInt32 := parseInt32;
  strtol := strtol10;
  SetHex := setHex;
  GetHex := getHex;
  Unserialize_request := unserialize_request;
  viewDummy_GetCoins := fun _ => None;
  CTransaction := string;
  CBlock := string;
  CBlockHeader := string;
  CBlockIndex := string;
  CNameData := valtype;
  ser_CTransaction := fun t => t;
  ser_CBlock := fun b => b;
  ser_CBlockHeader := fun h => h;
  GetBlockHeader := fun i => substring 0 80 i;
  BLOCK_HAVE_DATA_set := fun _ => true;
  nTx := fun _ => 1;
  getValue := fun d => d;
  TxToJSON := fun t h => VEXT "tx" (HexStr t);
  blockToJSON := fun b i d => VEXT "block" (HexStr b);
  getNameInfo := fun n d => VOBJ [("name", VSTR (string_of_list_ascii n));
                                  ("value", VSTR (string_of_list_ascii d))];
  ValueFromAmount := fun v => VNUM v;
  ScriptPubKeyToJSON := fun s h => VOBJ [("hex", VSTR (HexStr s))];
  UniValue_write := write_json
|}.

Definition txA : uint256 := setHex "aa".
Definition txB : uint256 := setHex "bb".

(** Transaction [txA] has two outputs; an unconfirmed transaction spends
    the second.  Nothing is known of [txB]. *)
Definition coinsA : CCoins :=
  {| coins_vout := [ mkTxOut 5000 "script0"; mkTxOut 7000 "script1" ];
     coins_nHeight := 90; coins_nVersion := 1 |}.

Definition chain0 : ChainState :=
  {| mapBlockIndex := fun _ => None;
     chainActive_Contains := fun _ => false;
     chainActive_Next := fun _ => None;
     chainActive_Height := 100;
     chainActive_Tip_hash := setHex "c0ffee";
     fHavePruned := false;
     ReadBlockFromDisk := fun _ => None;
     GetTransaction := fun _ => None;
     viewMempool_GetCoins := fun h => if h =? txA then Some coinsA else None;
     mapNextTx := [ mkOutPoint txA 1 ];
     pcoinsTip_GetName := fun _ => None;
     RPCIsInWarmup := None;
     getblockchaininfo := VOBJ [("blocks", VNUM 100)] |}.

(** A block is connected that spends the first output of [txA]. *)
Definition connect_block (c : ChainState) : ChainState :=
  {| mapBlockIndex := mapBlockIndex c;
     chainActive_Contains := chainActive_Contains c;
     chainActive_Next := chainActive_Next c;
     chainActive_Height := chainActive_Height c + 1;
     chainActive_Tip_hash := setHex "decaf";
     fHavePruned := fHavePruned c;
     ReadBlockFromDisk := ReadBlockFromDisk c;
     GetTransaction := GetTransaction c;
     viewMempool_GetCoins :=
       fun h => option_map (fun cs => CCoins_Spend cs 0)
                           (viewMempool_GetCoins c h);
     mapNextTx := mapNextTx c;
     pcoinsTip_GetName := pcoinsTip_GetName c;
     RPCIsInWarmup := RPCIsInWarmup c;
     getblockchaininfo := getblockchaininfo c |}.

(** The residual path of a JSON query for the first output of [txA], asked
    [k] times over, with the mempool. *)
Fixpoint repeat_token (k : nat) : string :=
  match k with
  | O => EmptyString
  | S k' => "/aa-0" +++ repeat_token k'
  end.

Definition query_path (k : nat) : string :=
  "/checkmempool" +++ repeat_token k +++ ".json".

(** A quiet node: no other thread touches the chain. *)
Definition world0 : World :=
  {| w_chain := chain0; w_pending := []; w_held := false;
     w_log := []; w_conn := [] |}.

(** A busy node: nothing happens before this thread looks at the chain for
    the first time, and a block is connected before it looks again. *)
Definition world_busy : World :=
  {| w_chain := chain0; w_pending := [fun c => c; connect_block];
     w_held := false; w_log := []; w_conn := [] |}.

End Demo.

(** ** Definitions for the further properties *)

(** The percent encoding that [DecodeName] reverses, every byte written as a
    percent sign and two hexadecimal characters; rest.cpp holds only the
    decoder, this is the encoder its callers need. *)
Fixpoint percent_encode (v : valtype) : string :=
  match v with
  | [] => EmptyString
  | c :: v' =>
      let n := N_of_ascii c in
      String "%" (String (hex_of_nibble (N.shiftr n 4))
                         (String (hex_of_nibble (N.land n 15))
                                 (percent_encode v')))
  end.

Section MoreDefs.

Context {X : Extern}.

(** What lines 430-434 make of the two pieces of a token, the id text and
    the index text. *)
Definition token_outcome (strTxid strOutput : string) : RestErr + COutPoint :=
  match ParseInt32 strOutput with
  | None => inl ERR_parse_error
  | Some nOutput =>
      if IsHex strTxid
      then inr (mkOutPoint (SetHex strTxid) (int32_to_uint32 nOutput))
      else inl ERR_parse_error
  end.

(** [bs] is a walk along the active chain from [start]: each block is the
    one the pointer stands on, is part of the active chain, and is followed
    by its successor there. *)
Fixpoint walk_from (c : ChainState) (start : option CBlockIndex)
  (bs : list CBlockIndex) : Prop :=
  match bs with
  | [] => True
  | b :: bs' =>
      start = Some b /\ chainActive_Contains c b = true
      /\ walk_from c (chainActive_Next c b) bs'
  end.

(** Where the pointer stands after the walk. *)
Fixpoint walk_end (c : ChainState) (start : option CBlockIndex)
  (bs : list CBlockIndex) : option CBlockIndex :=
  match bs with
  | [] => start
  | b :: bs' => walk_end c (chainActive_Next c b) bs'
  end.

(** The pointer has left the active chain: it is null or on a block that
    the chain does not contain. *)
Definition off_chain (c : ChainState) (p : option CBlockIndex) : Prop :=
  match p with
  | None => True
  | Some b => chainActive_Contains c b = false
  end.

(** A success reply: status OK, the keep-alive flag of the request, and
    either a full reply or a header with the body whose length it
    announces, flushed. *)
Definition ok_reply (fRun : bool) (items : list StreamItem) : Prop :=
  (exists msg ct, items = [HTTPReply HTTP_OK msg fRun false ct; Flush])
  \/ (exists body ct,
        items = [HTTPReplyHeader HTTP_OK fRun (String.length body) ct;
                 Body body; Flush]).

(** A failure reply: a plain-text reply with a status other than OK, or the
    not-found error page; in both keep-alive is off. *)
Definition error_reply (items : list StreamItem) : Prop :=
  (exists st msg,
     st <> HTTP_OK
     /\ items = [HTTPReply st msg false false "text/plain"; Flush])
  \/ items = [HTTPError HTTP_NOT_FOUND false; Flush].

(** When [m] returns, it returns true and has sent exactly one success
    reply. *)
Definition replies_ok (fRun : bool) (m : M bool) : Prop :=
  forall w b w',
    m w = (Val b, w') ->
    b = true
    /\ exists items, w_conn w' = w_conn w ++ items /\ ok_reply fRun items.

(** What [m] throws never carries the status OK. *)
Definition throws_errors {A : Type} (m : M A) : Prop :=
  forall w e w', m w = (Threw e, w') -> status e <> HTTP_OK.

(** [m] never throws a bad-request error. *)
Definition never_bad_request {A : Type} (m : M A) : Prop :=
  forall w e w', m w = (Threw e, w') -> status e <> HTTP_BAD_REQUEST.

(** A bad-request error of [m] comes with the world untouched. *)
Definition bad_request_untouched {A : Type} (m : M A) : Prop :=
  forall w e w', m w = (Threw e, w') -> status e = HTTP_BAD_REQUEST -> w' = w.

End MoreDefs.

(** A request body of two zero bytes.  The first is read as the outpoint
    count, zero; the second is never read. *)
Definition empty_query_body : string := String zero (String zero EmptyString).

(** A second concrete node state: three blocks on the active chain. *)
Module DemoChain.

Definition hash64 : string :=
  "00000000000000000000000000000000000000000000000000000000000000b2".

Definition block_of_hash (h : uint256) : option string :=
  if h =? 177 then Some "b1"
  else if h =? 178 then Some "b2"
  else if h =? 179 then Some "b3"
  else None.

Definition on_chain (b : string) : bool :=
  String.eqb b "b1" || String.eqb b "b2" || String.eqb b "b3".

Definition next_block (b : string) : option string :=
  if String.eqb b "b1" then Some "b2"
  else if String.eqb b "b2" then Some "b3"
  else None.

Definition chain1 : ChainState (X := Demo.node) :=
  @mkChain Demo.node
    block_of_hash on_chain next_block 3 179 false
    (fun b => Some b) (fun _ => None) (fun _ => None) []
    (fun _ => None) None (VOBJ [("blocks", VNUM 3)]).

(** The same chain with one registered name, which holds a dot and a
    slash. *)
Definition the_name : valtype := list_ascii_of_string "d/a.b".

Definition named_chain : ChainState (X := Demo.node) :=
  @mkChain Demo.node
    block_of_hash on_chain next_block 3 179 false
    (fun b => Some b) (fun _ => None) (fun _ => None) []
    (fun n => if String.eqb (string_of_list_ascii n) "d/a.b"
              then Some (list_ascii_of_string "1.2.3.4") else None)
    None (VOBJ [("blocks", VNUM 3)]).

Definition named_world : World (X := Demo.node) :=
  @mkWorld Demo.node named_chain [] false [] [].

(** The same chain while the node is still starting up. *)
Definition warming_chain : ChainState (X := Demo.node) :=
  @mkChain Demo.node
    block_of_hash on_chain next_block 3 179 false
    (fun b => Some b) (fun _ => None) (fun _ => None) []
    (fun _ => None) (Some "Loading block index...")
    (VOBJ [("blocks", VNUM 3)]).

Definition warming_world : World (X := Demo.node) :=
  @mkWorld Demo.node warming_chain [] false [] [].

End DemoChain.

(** * Proofs *)

(** ** Strings *)

Lemma rfind_absent (c : ascii) (s : string) :
  Str.mem c s = false -> Str.rfind c s = None.
Proof.
  induction s as [|a s IH]; simpl; intros H; [reflexivity|].
  apply orb_false_iff in H. destruct H as [Ha Hs].
  rewrite (IH Hs), Ha. reflexivity.
Qed.

Lemma rfind_last (c : ascii) (p suff : string) :
  Str.mem c suff = false ->
  Str.rfind c (p +++ String c suff) = Some (String.length p).
Proof.
  intros H. induction p as [|a p IH]; simpl.
  - rewrite (rfind_absent _ _ H), Ascii.eqb_refl. reflexivity.
  - rewrite IH. reflexivity.
Qed.

Lemma mem_decompose (c : ascii) (s : string) :
  Str.mem c s = true ->
  exists p suff, s = p +++ String c suff /\ Str.mem c suff = false.
Proof.
  induction s as [|a s IH]; simpl; intros H; [discriminate|].
  destruct (Str.mem c s) eqn:Hs.
  - destruct (IH eq_refl) as (p & suff & -> & Hsuff).
    exists (String a p), suff. split; [reflexivity | assumption].
  - rewrite orb_false_r in H. apply Ascii.eqb_eq in H. subst a.
    exists EmptyString, s. split; [reflexivity | assumption].
Qed.

Lemma substr_to_app (p s : string) :
  Str.substr_to (p +++ s) (String.length p) = p.
Proof.
  unfold Str.substr_to.
  induction p as [|a p IH]; simpl.
  - destruct s; reflexivity.
  - rewrite IH. reflexivity.
Qed.

Lemma substring_all (s : string) : substring 0 (String.length s) s = s.
Proof.
  induction s as [|a s IH]; simpl; [reflexivity | rewrite IH; reflexivity].
Qed.

Lemma substr_from_app (p : string) (c : ascii) (s : string) :
  Str.substr_from (p +++ String c s) (String.length p + 1) = s.
Proof.
  unfold Str.substr_from.
  induction p as [|a p IH]; simpl.
  - rewrite Nat.sub_0_r. apply substring_all.
  - exact IH.
Qed.

(** The scan of [rf_names] agrees with the suffix table of the
    specification. *)
Lemma rf_names_scan_table (suff : string) :
  match rf_names_scan rf_names suff with
  | Some rf => rf
  | None => RF_UNDEF
  end = spec_format_of_suffix suff.
Proof.
  unfold spec_format_of_suffix, rf_names; simpl.
  destruct (String.eqb suff "") eqn:E0.
  - apply String.eqb_eq in E0. subst. reflexivity.
  - destruct (String.eqb suff "bin"); [reflexivity|].
    destruct (String.eqb suff "hex"); [reflexivity|].
    destruct (String.eqb suff "json"); reflexivity.
Qed.

(** C7.  [ParseDataFormat] cuts at the last dot.  With no dot the whole
    string is the parameter and the format is undefined.  Otherwise the
    parameter is what stands before the last dot, and the suffix after it
    decides the format by exact comparison with bin, hex and json; any other
    suffix, the empty one included, gives the undefined format while the
    parameter is still cut.  Every string falls under one of the two cases,
    and the function is total. *)
Theorem ParseDataFormat_last_dot (strReq : string) :
  (Str.mem "." strReq = false -> ParseDataFormat strReq = (strReq, RF_UNDEF))
  /\ (forall param suff,
        strReq = param +++ String "." suff ->
        Str.mem "." suff = false ->
        ParseDataFormat strReq = (param, spec_format_of_suffix suff))
  /\ (Str.mem "." strReq = true ->
      exists param suff,
        strReq = param +++ String "." suff /\ Str.mem "." suff = false).
Proof.
  split; [|split].
  - intros H. unfold ParseDataFormat. rewrite (rfind_absent _ _ H). reflexivity.
  - intros param suff -> H. unfold ParseDataFormat.
    rewrite (rfind_last _ _ _ H), substr_to_app, substr_from_app.
    rewrite <- rf_names_scan_table.
    destruct (rf_names_scan rf_names suff); reflexivity.
  - apply mem_decompose.
Qed.

Lemma ParseDataFormat_last_dot_witness :
  ParseDataFormat "abc.json" = ("abc", RF_JSON)
  /\ ParseDataFormat "abc" = ("abc", RF_UNDEF)
  /\ ParseDataFormat "abc.xyz" = ("abc", RF_UNDEF)
  /\ ParseDataFormat "a.b.JSON" = ("a.b", RF_UNDEF).
Proof.
  split; [|split; [|split]].
  - apply (proj1 (proj2 (ParseDataFormat_last_dot "abc.json")) "abc" "json");
      reflexivity.
  - apply (proj1 (ParseDataFormat_last_dot "abc")); reflexivity.
  - apply (proj1 (proj2 (ParseDataFormat_last_dot "abc.xyz")) "abc" "xyz");
      reflexivity.
  - apply (proj1 (proj2 (ParseDataFormat_last_dot "a.b.JSON")) "a.b" "JSON");
      reflexivity.
Defined.

(** ** DecodeName *)

Lemma hex_digit_value_range (c : ascii) (d : Z) :
  spec_hex_digit_value c = Some d -> 0 <= d < 16.
Proof.
  unfold spec_hex_digit_value.
  set (n := Z.of_N (N_of_ascii c)).
  destruct ((48 <=? n) && (n <=? 57)) eqn:E1.
  - intros [= <-]. apply andb_prop in E1. lia.
  - destruct ((97 <=? n) && (n <=? 102)) eqn:E2.
    + intros [= <-]. apply andb_prop in E2. lia.
    + destruct ((65 <=? n) && (n <=? 70)) eqn:E3; [|discriminate].
      intros [= <-]. apply andb_prop in E3. lia.
Qed.

Lemma DecodeName_hex_step (c : ascii) (rest : list ascii) (acc : Z) :
  DecodeName_hex (c :: rest) acc =
  match spec_hex_digit_value c with
  | Some d => DecodeName_hex rest (16 * acc + d)
  | None => None
  end.
Proof.
  cbn [DecodeName_hex].
  rewrite Z.shiftl_mul_pow2 by lia. change (2 ^ 4) with 16.
  rewrite (Z.mul_comm acc 16). generalize (16 * acc). intros x.
  destruct c as [[] [] [] [] [] [] [] []]; reflexivity.
Qed.

Lemma DecodeName_hex_pair (h1 h2 : ascii) :
  DecodeName_hex [h1; h2] 0 =
  match spec_hex_digit_value h1, spec_hex_digit_value h2 with
  | Some d1, Some d2 => Some (16 * d1 + d2)
  | _, _ => None
  end.
Proof.
  rewrite DecodeName_hex_step.
  destruct (spec_hex_digit_value h1) as [d1|]; [|reflexivity].
  rewrite DecodeName_hex_step.
  destruct (spec_hex_digit_value h2) as [d2|]; [|reflexivity].
  cbn [DecodeName_hex]. rewrite Z.mul_0_r, Z.add_0_l. reflexivity.
Qed.

Lemma option_map_push {A : Type} (decoded : list A) (x : A)
  (r : option (list A)) :
  option_map (app (decoded ++ [x])) r
  = option_map (app decoded) (option_map (cons x) r).
Proof.
  destruct r as [l|]; simpl; [|reflexivity].
  rewrite <- app_assoc. reflexivity.
Qed.

(** The loop, started anywhere with enough fuel, appends the decoding of
    what is left to what it has. *)
Lemma DecodeName_loop_spec (fuel : nat) :
  forall (rest : list ascii) (decoded : valtype),
    (List.length rest <= fuel)%nat ->
    DecodeName_loop fuel rest decoded
    = option_map (app decoded) (spec_DecodeName rest).
Proof.
  induction fuel as [|fuel IH]; intros rest decoded Hlen.
  - destruct rest; [|simpl in Hlen; lia].
    simpl. rewrite app_nil_r. reflexivity.
  - destruct rest as [|c tl].
    + simpl. rewrite app_nil_r. reflexivity.
    + simpl in Hlen.
      cbn [DecodeName_loop spec_DecodeName].
      destruct (Ascii.eqb c "+").
      * rewrite IH by lia. apply option_map_push.
      * destruct (Ascii.eqb c "%").
        -- destruct tl as [|h1 [|h2 tl']]; try reflexivity.
           change (List.length (c :: h1 :: h2 :: tl') <=? 2)%nat with false.
           cbn [firstn skipn]. rewrite DecodeName_hex_pair.
           destruct (spec_hex_digit_value h1) as [d1|] eqn:E1; [|reflexivity].
           destruct (spec_hex_digit_value h2) as [d2|] eqn:E2; [|reflexivity].
           simpl in Hlen. rewrite IH by lia.
           rewrite option_map_push. unfold static_cast_char.
           apply hex_digit_value_range in E1, E2.
           rewrite Z.mod_small by lia. reflexivity.
        -- rewrite IH by lia. apply option_map_push.
Qed.

(** C8.  [DecodeName] computes exactly the token-by-token decoding: a plus
    sign gives a space, a percent sign followed by two hexadecimal
    characters of either case gives the byte they denote, any other
    character is copied, and the call fails when a percent sign is followed
    by fewer than two characters or by one that is not hexadecimal; on
    success the output is the decodings in input order. *)
Theorem DecodeName_decodes (encoded : string) :
  DecodeName encoded = spec_DecodeName (list_ascii_of_string encoded).
Proof.
  unfold DecodeName.
  rewrite DecodeName_loop_spec by apply Nat.le_refl.
  destruct (spec_DecodeName (list_ascii_of_string encoded)); reflexivity.
Qed.

(** The two decodings of the specification's test list. *)
Lemma DecodeName_examples :
  DecodeName "a+b%20c" = Some (list_ascii_of_string "a b c")
  /\ DecodeName "a%2" = None
  /\ DecodeName "%4a%4A" = Some (list_ascii_of_string "JJ")
  /\ DecodeName "%4g" = None.
Proof. repeat split. Qed.

(** ** Coin records *)

Lemma Cleanup_keeps_available (v : list CTxOut) :
  forall n : nat,
    match nth_error (CCoins_Cleanup_vout v) n with
    | Some o => negb (CTxOut_IsNull o)
    | None => false
    end
    = match nth_error v n with
      | Some o => negb (CTxOut_IsNull o)
      | None => false
      end.
Proof.
  induction v as [|a v IH]; intros n; [reflexivity|].
  simpl. destruct (CCoins_Cleanup_vout v) as [|b r] eqn:E.
  - destruct (CTxOut_IsNull a) eqn:Ea.
    + destruct n as [|m]; simpl; [rewrite Ea; reflexivity|].
      rewrite <- IH. destruct m; reflexivity.
    + destruct n as [|m]; simpl; [reflexivity|].
      rewrite <- IH. destruct m; reflexivity.
  - destruct n as [|m]; simpl; [reflexivity | apply IH].
Qed.

Lemma list_set_null_available (v : list CTxOut) :
  forall m n : nat,
    match nth_error (list_set v m CTxOut_Null) n with
    | Some o => negb (CTxOut_IsNull o)
    | None => false
    end
    = match nth_error v n with
      | Some o => negb (CTxOut_IsNull o)
      | None => false
      end && negb (n =? m)%nat.
Proof.
  induction v as [|a v IH]; intros m n.
  - destruct m, n; reflexivity.
  - destruct m as [|m], n as [|n]; simpl.
    + rewrite andb_false_r. reflexivity.
    + rewrite andb_true_r. reflexivity.
    + rewrite andb_true_r. reflexivity.
    + apply IH.
Qed.

Lemma IsAvailable_Spend (coins : CCoins) (m n : N) :
  CCoins_IsAvailable (CCoins_Spend coins m) n
  = CCoins_IsAvailable coins n && negb (N.to_nat n =? N.to_nat m)%nat.
Proof.
  unfold CCoins_Spend. destruct (CCoins_IsAvailable coins m) eqn:Em.
  - unfold CCoins_IsAvailable; simpl.
    rewrite Cleanup_keeps_available. apply list_set_null_available.
  - destruct (N.to_nat n =? N.to_nat m)%nat eqn:E.
    + apply Nat.eqb_eq in E. apply N2Nat.inj in E. subst n.
      rewrite Em. reflexivity.
    + rewrite andb_true_r. reflexivity.
Qed.

Lemma pruneSpent_stays_spent (next : list COutPoint) (h : uint256) (n : N) :
  forall coins,
    CCoins_IsAvailable coins n = false ->
    CCoins_IsAvailable (pruneSpent next h coins) n = false.
Proof.
  induction next as [|op next IH]; intros coins H; simpl; [assumption|].
  apply IH. destruct (op_hash op =? h); [|assumption].
  rewrite IsAvailable_Spend, H. reflexivity.
Qed.

Lemma pruneSpent_spends (next : list COutPoint) (h : uint256) (n : N) :
  forall coins,
    In (mkOutPoint h n) next ->
    CCoins_IsAvailable (pruneSpent next h coins) n = false.
Proof.
  induction next as [|op next IH]; intros coins Hin; simpl; [contradiction|].
  destruct Hin as [-> | Hin].
  - simpl. rewrite Z.eqb_refl. apply pruneSpent_stays_spent.
    rewrite IsAvailable_Spend, Nat.eqb_refl. apply andb_false_r.
  - apply IH, Hin.
Qed.

(** What line 515 reads is the entry [IsAvailable] looked at, and the
    assertion of line 516 holds. *)
Lemma IsAvailable_at (coins : CCoins) (n : N) :
  CCoins_IsAvailable coins n = true ->
  nth_error (coins_vout coins) (N.to_nat n)
  = Some (nth (N.to_nat n) (coins_vout coins) CTxOut_Null)
  /\ CTxOut_IsNull (nth (N.to_nat n) (coins_vout coins) CTxOut_Null) = false.
Proof.
  unfold CCoins_IsAvailable.
  destruct (nth_error (coins_vout coins) (N.to_nat n)) as [o|] eqn:E;
    [|discriminate].
  intros H. rewrite (nth_error_nth _ _ CTxOut_Null E).
  split; [reflexivity|]. apply negb_true_iff, H.
Qed.

(** ** Lists as bit sets *)

Lemma list_set_length {A : Type} (l : list A) :
  forall i x, List.length (list_set l i x) = List.length l.
Proof.
  induction l as [|a l IH]; intros [|i] x; simpl; auto.
Qed.

Lemma list_set_firstn {A : Type} (l : list A) :
  forall i x, firstn i (list_set l i x) = firstn i l.
Proof.
  induction l as [|a l IH]; intros [|i] x; simpl; auto.
  rewrite IH. reflexivity.
Qed.

Lemma list_set_nth_same {A : Type} (l : list A) :
  forall i x d, (i < List.length l)%nat -> nth i (list_set l i x) d = x.
Proof.
  induction l as [|a l IH]; intros [|i] x d H; simpl in *; try lia; auto.
  apply IH. lia.
Qed.

Lemma list_set_nth_other {A : Type} (l : list A) :
  forall i j x d, i <> j -> nth j (list_set l i x) d = nth j l d.
Proof.
  induction l as [|a l IH]; intros [|i] [|j] x d H; simpl; auto;
    try contradiction.
Qed.

Lemma list_set_same {A : Type} (l : list A) :
  forall i x d, (i < List.length l)%nat -> nth i l d = x -> list_set l i x = l.
Proof.
  induction l as [|a l IH]; intros [|i] x d H E; simpl in *; try lia.
  - congruence.
  - rewrite (IH i x d); [reflexivity | lia | assumption].
Qed.

Lemma firstn_snoc_nth {A : Type} (l : list A) (d : A) :
  forall i, (i < List.length l)%nat ->
            firstn (S i) l = firstn i l ++ [nth i l d].
Proof.
  induction l as [|a l IH]; intros [|i] H; simpl in *; try lia; auto.
  rewrite <- IH by lia. reflexivity.
Qed.

Lemma append_assoc (a b c : string) : (a +++ b) +++ c = a +++ b +++ c.
Proof.
  induction a as [|x a IH]; simpl; [reflexivity | rewrite IH; reflexivity].
Qed.

Lemma append_length (a b : string) :
  String.length (a +++ b) = (String.length a + String.length b)%nat.
Proof.
  induction a as [|x a IH]; simpl; [reflexivity | rewrite IH; reflexivity].
Qed.

Lemma bitmap_text_length (bits : list bool) :
  String.length (bitmap_text bits) = List.length bits.
Proof.
  induction bits as [|b bits IH]; simpl; [reflexivity|].
  destruct b; simpl; rewrite IH; reflexivity.
Qed.

Section HandlerProofs.

Context {X : Extern}.

(** ** The UTXO query loop *)

Lemma observe_held (e : Event) (w : World) :
  w_held w = true -> observe e w = (Val (w_chain w), log_event e w).
Proof.
  intros H. unfold observe, yield. rewrite H. reflexivity.
Qed.

Lemma firstn_exact {A : Type} (l : list A) (i : nat) :
  List.length l = i -> firstn i l = l.
Proof. intros <-. apply firstn_all. Qed.

Lemma append_nil_r (s : string) : s +++ EmptyString = s.
Proof.
  induction s as [|a s IH]; simpl; [reflexivity | rewrite IH; reflexivity].
Qed.

Lemma bind_Val {A B : Type} (m : M A) (k : A -> M B) (w w1 : World) (a : A) :
  m w = (Val a, w1) -> bind m k w = k a w1.
Proof. intros H. unfold bind. rewrite H. reflexivity. Qed.

Lemma bind_Threw {A B : Type} (m : M A) (k : A -> M B) (w w1 : World)
  (e : RestErr) :
  m w = (Threw e, w1) -> bind m k w = (Threw e, w1).
Proof. intros H. unfold bind. rewrite H. reflexivity. Qed.

Lemma view_GetCoins_held (flag : bool) (h : uint256) (w : World) :
  w_held w = true ->
  view_GetCoins flag h w
  = (Val (if flag then viewMempool_GetCoins (w_chain w) h
          else viewDummy_GetCoins h), log_event (EvGetCoins h) w).
Proof.
  intros H. unfold view_GetCoins.
  rewrite (bind_Val _ _ _ _ _ (observe_held _ _ H)). reflexivity.
Qed.

Lemma mempool_pruneSpent_held (h : uint256) (coins : CCoins) (w : World) :
  w_held w = true ->
  mempool_pruneSpent h coins w
  = (Val (pruneSpent (mapNextTx (w_chain w)) h coins),
     log_event (EvPruneSpent h) w).
Proof.
  intros H. unfold mempool_pruneSpent.
  rewrite (bind_Val _ _ _ _ _ (observe_held _ _ H)). reflexivity.
Qed.

(** One turn of the loop under the lock, on a bit that is still clear. *)
Lemma getutxos_step_spec (flag : bool) (i : nat) (op : COutPoint)
  (q : UtxoQuery) (w : World) :
  w_held w = true ->
  (i < List.length (hits q))%nat ->
  nth i (hits q) false = false ->
  exists w',
    getutxos_step flag i op q w
    = (Val (mkQuery
              (list_set (hits q) i (is_hit (spec_utxo_hit (w_chain w) flag op)))
              (outs q ++ hit_records [spec_utxo_hit (w_chain w) flag op])
              (bitmapStringRepresentation q
               +++ bitmap_text [is_hit (spec_utxo_hit (w_chain w) flag op)])),
       w')
    /\ w_held w' = true /\ w_chain w' = w_chain w
    /\ w_conn w' = w_conn w /\ w_pending w' = w_pending w
    /\ exists evs, w_log w' = w_log w ++ evs
                   /\ Forall (fun e => e <> EvUnlock /\ e <> EvLock) evs.
Proof.
  intros Hheld Hi Hclear. unfold getutxos_step.
  rewrite (bind_Val _ _ _ _ _ (view_GetCoins_held flag (op_hash op) w Hheld)).
  unfold spec_utxo_hit.
  destruct (if flag then viewMempool_GetCoins (w_chain w) (op_hash op)
            else viewDummy_GetCoins (op_hash op)) as [coins0|].
  - unfold bind. rewrite mempool_pruneSpent_held by exact Hheld.
    cbn [w_chain log_event].
    set (coins := pruneSpent (mapNextTx (w_chain w)) (op_hash op) coins0).
    destruct (CCoins_IsAvailable coins (op_n op)) eqn:Ea.
    + destruct (IsAvailable_at _ _ Ea) as [En Enull].
      rewrite En, Enull. unfold ret. cbn [hits outs bitmapStringRepresentation].
      unfold bitset_set. rewrite (list_set_nth_same _ _ _ _ Hi).
      eexists. split; [reflexivity|].
      cbn. repeat split; try assumption.
      exists [EvGetCoins (op_hash op); EvPruneSpent (op_hash op)].
      split; [rewrite <- app_assoc; reflexivity|].
      repeat constructor; discriminate.
    + assert (Hmiss :
        match nth_error (coins_vout coins) (N.to_nat (op_n op)) with
        | Some o =>
            if CTxOut_IsNull o then None
            else Some {| nTxVer := to_uint32 (coins_nVersion coins);
                         nHeight := to_uint32 (coins_nHeight coins);
                         out := o |}
        | None => None
        end = None).
      { unfold CCoins_IsAvailable in Ea.
        destruct (nth_error (coins_vout coins) (N.to_nat (op_n op)));
          [|reflexivity].
        apply negb_false_iff in Ea. rewrite Ea. reflexivity. }
      rewrite Hmiss. unfold ret. rewrite Hclear.
      cbn [is_hit hit_records bitmap_text]. rewrite app_nil_r.
      rewrite (list_set_same _ _ _ _ Hi Hclear).
      eexists. split; [reflexivity|].
      cbn. repeat split; try assumption.
      exists [EvGetCoins (op_hash op); EvPruneSpent (op_hash op)].
      split; [rewrite <- app_assoc; reflexivity|].
      repeat constructor; discriminate.
  - unfold bind, ret. rewrite Hclear.
    cbn [is_hit hit_records bitmap_text]. rewrite app_nil_r.
    rewrite (list_set_same _ _ _ _ Hi Hclear).
    eexists. split; [reflexivity|].
    cbn. repeat split; try assumption.
    exists [EvGetCoins (op_hash op)]. split; [reflexivity|].
    repeat constructor; discriminate.
Qed.

(** The loop under the lock, started at index [i] with the bits from [i] on
    still clear: it never throws, it fills in one bit for each outpoint left
    and appends the records of the hits, and it only adds to the log. *)
Lemma getutxos_loop_spec (flag : bool) (todo : list COutPoint) :
  forall (i : nat) (q : UtxoQuery) (w : World),
    w_held w = true ->
    List.length (hits q) = (i + List.length todo)%nat ->
    (forall j, (i <= j)%nat -> nth j (hits q) false = false) ->
    exists w',
      getutxos_loop flag i todo q w
      = (Val (mkQuery
                (firstn i (hits q)
                 ++ map (fun op => is_hit (spec_utxo_hit (w_chain w) flag op))
                        todo)
                (outs q
                 ++ hit_records (map (spec_utxo_hit (w_chain w) flag) todo))
                (bitmapStringRepresentation q
                 +++ bitmap_text
                       (map (fun op =>
                               is_hit (spec_utxo_hit (w_chain w) flag op))
                            todo))), w')
      /\ w_held w' = true /\ w_chain w' = w_chain w
      /\ w_conn w' = w_conn w /\ w_pending w' = w_pending w
      /\ exists evs, w_log w' = w_log w ++ evs
                     /\ Forall (fun e => e <> EvUnlock /\ e <> EvLock) evs.
Proof.
  induction todo as [|op todo IH]; intros i q w Hheld Hlen Hclear.
  - exists w. simpl in *. rewrite Nat.add_0_r in Hlen.
    rewrite (firstn_exact _ _ Hlen), !app_nil_r, append_nil_r.
    destruct q. repeat split; try assumption.
    exists []. rewrite app_nil_r. split; [reflexivity | constructor].
  - cbn [getutxos_loop List.length] in *.
    assert (Hi : (i < List.length (hits q))%nat) by lia.
    destruct (getutxos_step_spec flag i op q w Hheld Hi (Hclear i (Nat.le_refl i)))
      as (w1 & Estep & Hheld1 & Hchain1 & Hconn1 & Hpend1 & evs1 & Hlog1 & Hev1).
    rewrite (bind_Val _ _ _ _ _ Estep).
    set (b := is_hit (spec_utxo_hit (w_chain w) flag op)) in *.
    match type of Estep with
    | _ = (Val ?q1, _) =>
        destruct (IH (S i) q1 w1 Hheld1) as
          (w2 & Eloop & Hheld2 & Hchain2 & Hconn2 & Hpend2 & evs2 & Hlog2 & Hev2)
    end.
    + cbn [hits]. rewrite list_set_length. lia.
    + intros j Hj. cbn [hits].
      rewrite list_set_nth_other by lia. apply Hclear. lia.
    + exists w2. rewrite Eloop. cbn [hits outs bitmapStringRepresentation].
      rewrite Hchain1.
      rewrite (firstn_snoc_nth _ false) by (rewrite list_set_length; exact Hi).
      rewrite list_set_firstn, (list_set_nth_same _ _ _ _ Hi).
      rewrite <- !app_assoc, append_assoc.
      cbn [map hit_records bitmap_text app].
      split; [|repeat split; try congruence].
      * rewrite append_nil_r. subst b.
        destruct (spec_utxo_hit (w_chain w) flag op); reflexivity.
      * exists (evs1 ++ evs2). split.
        -- rewrite Hlog2, Hlog1, app_assoc. reflexivity.
        -- apply Forall_app. split; assumption.
Qed.

End HandlerProofs.

Lemma hit_records_count (rs : list (option CCoin)) :
  List.length (hit_records rs) = count_occ bool_dec (map is_hit rs) true.
Proof.
  induction rs as [|[coin|] rs IH]; simpl; [reflexivity | |exact IH].
  rewrite IH. reflexivity.
Qed.

Lemma to_block_range_aux_length (fuel : nat) :
  forall bits : list bool,
    (List.length bits <= fuel)%nat ->
    List.length (to_block_range_aux fuel bits)
    = ((List.length bits + 7) / 8)%nat.
Proof.
  induction fuel as [|fuel IH]; intros bits Hlen.
  - destruct bits; [reflexivity | simpl in Hlen; lia].
  - destruct bits as [|b bits]; [reflexivity|].
    cbn [to_block_range_aux List.length].
    rewrite IH by (rewrite length_skipn; simpl in *; lia).
    rewrite length_skipn. cbn [List.length].
    set (n := List.length bits).
    destruct (Nat.le_gt_cases 7 n) as [Hge|Hlt].
    + replace (S n + 7)%nat with ((S n - 8 + 7) + 1 * 8)%nat by lia.
      rewrite Nat.div_add by lia. lia.
    + replace (S n - 8)%nat with 0%nat by lia.
      change ((0 + 7) / 8)%nat with 0%nat.
      apply (Nat.div_unique (S n + 7) 8 1 n); lia.
Qed.

Section QueryProofs.

Context {X : Extern}.

(** The query phase: it never throws; it decides each outpoint on the one
    snapshot the lock pins, and it touches neither the connection nor the
    lock in between. *)
Lemma getutxos_query_spec (flag : bool) (ops : list COutPoint) (w : World) :
  exists w' evs,
    getutxos_query flag ops w
    = (Val (mkQuery
              (map (fun op => is_hit (spec_utxo_hit (w_chain (yield w)) flag op))
                   ops)
              (hit_records (map (spec_utxo_hit (w_chain (yield w)) flag) ops))
              (bitmap_text
                 (map (fun op =>
                         is_hit (spec_utxo_hit (w_chain (yield w)) flag op))
                      ops))), w')
    /\ w_held w' = false
    /\ w_chain w' = w_chain (yield w)
    /\ w_pending w' = w_pending (yield w)
    /\ w_conn w' = w_conn w
    /\ w_log w' = w_log w ++ EvLock :: evs ++ [EvUnlock]
    /\ Forall (fun e => e <> EvUnlock /\ e <> EvLock) evs.
Proof.
  unfold getutxos_query, LOCK.
  destruct (getutxos_loop_spec flag ops 0
              (mkQuery (repeat false (List.length ops)) [] "") (acquire w))
    as (w1 & E & Hheld & Hchain & Hconn & Hpend & evs & Hlog & Hev).
  - reflexivity.
  - cbn [hits]. rewrite repeat_length. reflexivity.
  - intros j _. cbn [hits]. apply nth_repeat.
  - rewrite E. cbn [hits outs bitmapStringRepresentation firstn app].
    exists (release w1), evs. split; [reflexivity|].
    cbn [release w_held w_chain w_pending w_conn w_log acquire] in *.
    repeat split; try assumption.
    + rewrite Hconn. unfold yield.
      destruct (w_held w); [reflexivity|]. destruct (w_pending w); reflexivity.
    + rewrite Hlog, <- !app_assoc. f_equal. unfold yield.
      destruct (w_held w); [reflexivity|]. destruct (w_pending w); reflexivity.
Qed.

(** C1.  A query of N outpoints that reaches the query phase yields a bit
    set of exactly N bits, bit [i] telling whether outpoint [i] is a hit on
    the snapshot taken under the lock; a miss (transaction unknown to the
    view, index outside the output array, entry spent) leaves the bit clear
    and adds no record; the hit list is the records of the set bits in
    the order of the outpoints, so it has one record for each set bit; the
    text form of the bitmap has N characters and the packed form the bytes
    that N bits need. *)
Theorem getutxos_query_bitmap (flag : bool) (ops : list COutPoint) (w : World) :
  exists q w',
    getutxos_query flag ops w = (Val q, w')
    /\ List.length (hits q) = List.length ops
    /\ hits q
       = map (fun op => is_hit (spec_utxo_hit (w_chain (yield w)) flag op)) ops
    /\ outs q = hit_records (map (spec_utxo_hit (w_chain (yield w)) flag) ops)
    /\ List.length (outs q) = count_occ bool_dec (hits q) true
    /\ bitmapStringRepresentation q = bitmap_text (hits q)
    /\ String.length (bitmapStringRepresentation q) = List.length ops
    /\ List.length (to_block_range (hits q))
       = ((List.length ops + 7) / 8)%nat.
Proof.
  destruct (getutxos_query_spec flag ops w) as (w' & evs & E & _).
  eexists. exists w'. split; [exact E|].
  cbn [hits outs bitmapStringRepresentation].
  repeat split.
  - apply length_map.
  - rewrite hit_records_count, map_map. reflexivity.
  - rewrite bitmap_text_length. apply length_map.
  - unfold to_block_range.
    rewrite to_block_range_aux_length by apply Nat.le_refl.
    rewrite length_map. reflexivity.
Qed.

Lemma spec_utxo_hit_mempool_spent (c : ChainState) (flag : bool)
  (op : COutPoint) :
  In op (mapNextTx c) -> spec_utxo_hit c flag op = None.
Proof.
  intros Hin. unfold spec_utxo_hit.
  destruct (if flag then viewMempool_GetCoins c (op_hash op)
            else viewDummy_GetCoins (op_hash op)) as [coins0|]; [|reflexivity].
  destruct op as [h n]. cbn [op_hash op_n] in *.
  pose proof (pruneSpent_spends _ h n coins0 Hin) as Hs.
  unfold CCoins_IsAvailable in Hs.
  destruct (nth_error (coins_vout (pruneSpent (mapNextTx c) h coins0))
                      (N.to_nat n)) as [o|]; [|reflexivity].
  apply negb_false_iff in Hs. rewrite Hs. reflexivity.
Qed.

(** C10.  The mempool's spends are pruned from every record the view
    finds, whatever the check-mempool flag says: an outpoint that an
    unconfirmed transaction consumes gets a clear bit, with the flag set and
    with the flag clear. *)
Theorem getutxos_prunes_mempool_spends (flag : bool) (ops : list COutPoint)
  (w w' : World) (q : UtxoQuery) (i : nat) (op : COutPoint) :
  getutxos_query flag ops w = (Val q, w') ->
  nth_error ops i = Some op ->
  In op (mapNextTx (w_chain (yield w))) ->
  nth i (hits q) false = false.
Proof.
  intros E Hi Hin.
  destruct (getutxos_query_spec flag ops w) as (w1 & evs & E1 & _).
  rewrite E1 in E. injection E as <- _. cbn [hits].
  apply nth_error_nth. rewrite nth_error_map, Hi. cbn [option_map].
  rewrite (spec_utxo_hit_mempool_spent _ _ _ Hin). reflexivity.
Qed.

End QueryProofs.

(** ** Hex text *)

Lemma hex_pair_reads_back (c : ascii) :
  let v := N_of_ascii c in
  isspace (hex_of_nibble (N.shiftr v 4)) = false
  /\ HexDigit (hex_of_nibble (N.shiftr v 4)) = Some (N.shiftr v 4)
  /\ HexDigit (hex_of_nibble (N.land v 15)) = Some (N.land v 15)
  /\ ascii_of_N (N.lor (N.shiftl (N.shiftr v 4) 4) (N.land v 15)) = c
  /\ In (hex_of_nibble (N.shiftr v 4)) hexmap
  /\ In (hex_of_nibble (N.land v 15)) hexmap.
Proof.
  destruct c as [[] [] [] [] [] [] [] []]; vm_compute;
    repeat split; tauto.
Qed.

(** Reading hex text back gives the bytes it was written from. *)
Lemma ParseHex_HexStr (s rest : string) :
  ParseHex (HexStr s +++ rest) = s +++ ParseHex rest.
Proof.
  induction s as [|c s IH]; [reflexivity|].
  destruct (hex_pair_reads_back c) as (Hsp & Hhi & Hlo & Hc & _).
  cbn [HexStr String.append ParseHex].
  rewrite Hsp, Hhi, Hlo, Hc, IH. reflexivity.
Qed.

Lemma HexStr_lowercase (s : string) :
  Forall (fun ch => In ch hexmap) (list_ascii_of_string (HexStr s)).
Proof.
  induction s as [|c s IH]; [constructor|].
  destruct (hex_pair_reads_back c) as (_ & _ & _ & _ & H1 & H2).
  cbn [HexStr list_ascii_of_string].
  constructor; [exact H1 | constructor; [exact H2 | exact IH]].
Qed.

(** ** The wire layout: fixed-width integers and the packed bitmap *)

Lemma Ser_le_length (k : nat) : forall z, String.length (Ser.le k z) = k.
Proof.
  induction k as [|k IH]; intros z; [reflexivity|].
  cbn [Ser.le String.length]. rewrite IH. reflexivity.
Qed.

Lemma read_le_le (k : nat) :
  forall z, Ser.read_le (Ser.le k z) = z mod 256 ^ Z.of_nat k.
Proof.
  induction k as [|k IH]; intros z.
  - cbn [Ser.le Ser.read_le]. change (256 ^ Z.of_nat 0) with 1.
    rewrite Z.mod_1_r. reflexivity.
  - cbn [Ser.le Ser.read_le]. rewrite IH.
    rewrite N_ascii_embedding.
    + rewrite Z2N.id by (apply Z.mod_pos_bound; lia).
      rewrite Nat2Z.inj_succ, Z.pow_succ_r by lia.
      rewrite Z.rem_mul_r by lia. reflexivity.
    + assert (H := Z.mod_pos_bound z 256 ltac:(lia)).
      apply N2Z.inj_lt. rewrite Z2N.id by lia. simpl. lia.
Qed.

Lemma block_of_testbit (bits : list bool) (j : nat) :
  (j < 8)%nat ->
  N.testbit (N_of_ascii (block_of bits)) (N.of_nat j) = nth j bits false.
Proof.
  intros Hj. unfold block_of.
  do 8 (destruct j as [|j]; [destruct (nth 0 bits false), (nth 1 bits false),
    (nth 2 bits false), (nth 3 bits false), (nth 4 bits false),
    (nth 5 bits false), (nth 6 bits false), (nth 7 bits false);
    reflexivity|]).
  lia.
Qed.

Lemma to_block_range_aux_bit (fuel : nat) :
  forall (bits : list bool) (i : nat),
    (List.length bits <= fuel)%nat ->
    (i < List.length bits)%nat ->
    N.testbit (N_of_ascii (nth (i / 8) (to_block_range_aux fuel bits) zero))
              (N.of_nat (i mod 8))
    = nth i bits false.
Proof.
  induction fuel as [|fuel IH]; intros bits i Hlen Hi; [lia|].
  destruct bits as [|b bits]; [simpl in Hi; lia|].
  cbn [to_block_range_aux].
  remember (nth i (b :: bits) false) as r eqn:Hr.
  destruct (Nat.lt_ge_cases i 8) as [Hlt|Hge].
  - rewrite (Nat.div_small i 8 Hlt), (Nat.mod_small i 8 Hlt).
    cbn [nth]. rewrite (block_of_testbit _ _ Hlt), nth_firstn.
    apply Nat.ltb_lt in Hlt. rewrite Hlt. symmetry. exact Hr.
  - replace i with ((i - 8) + 1 * 8)%nat at 1 2 by lia.
    rewrite Nat.div_add by lia. rewrite Nat.Div0.mod_add.
    rewrite Nat.add_1_r. cbn [nth].
    rewrite IH.
    + rewrite nth_skipn, Hr. f_equal. lia.
    + rewrite length_skipn. simpl in Hlen. simpl. lia.
    + rewrite length_skipn. lia.
Qed.

Lemma to_block_range_bit (hits : list bool) (i : nat) :
  (i < List.length hits)%nat ->
  N.testbit (N_of_ascii (nth (i / 8) (to_block_range hits) zero))
            (N.of_nat (i mod 8))
  = nth i hits false.
Proof. apply to_block_range_aux_bit, Nat.le_refl. Qed.

Lemma to_block_range_length (hits : list bool) :
  List.length (to_block_range hits) = ((List.length hits + 7) / 8)%nat.
Proof. apply to_block_range_aux_length, Nat.le_refl. Qed.

Lemma compact_size_small (n : nat) :
  (n < 253)%nat ->
  Ser.compact_size n = String (ascii_of_nat n) EmptyString.
Proof.
  intros Hn. unfold Ser.compact_size.
  destruct (Z.ltb_spec (Z.of_nat n) 253) as [_|H]; [|lia].
  cbn [Ser.le]. rewrite Z.mod_small by lia.
  unfold ascii_of_nat. rewrite <- Z_nat_N, Nat2Z.id. reflexivity.
Qed.

Lemma coin_layout (c : CCoin) : spec_coin_layout c (Ser.coin c).
Proof.
  exists (Ser.le 4 (nTxVer c mod 2 ^ 32)), (Ser.le 4 (nHeight c mod 2 ^ 32)),
         (Ser.le 8 (nValue (out c) mod 2 ^ 64)).
  rewrite !Ser_le_length, !read_le_le.
  change (256 ^ Z.of_nat 4) with (2 ^ 32).
  change (256 ^ Z.of_nat 8) with (2 ^ 64).
  rewrite !Z.mod_mod by lia.
  split; [reflexivity|]. repeat split.
Qed.

Section GetutxosProofs.

Context {X : Extern}.

Lemma reply_binary_spec (fRun : bool) (body ct : string) (w : World) :
  reply_binary fRun body ct w
  = (Val true,
     add_conn [HTTPReplyHeader HTTP_OK fRun (String.length body) ct;
               Body body; Flush] w).
Proof.
  unfold reply_binary, bind, write, ret, add_conn. cbn [w_chain w_pending w_held w_log w_conn].
  rewrite <- !app_assoc. reflexivity.
Qed.

Lemma reply_text_spec (fRun : bool) (strHex : string) (w : World) :
  reply_text fRun strHex w
  = (Val true,
     add_conn [HTTPReply HTTP_OK strHex fRun false "text/plain"; Flush] w).
Proof.
  unfold reply_text, bind, write, ret, add_conn. cbn [w_chain w_pending w_held w_log w_conn].
  rewrite <- !app_assoc. reflexivity.
Qed.

Lemma reply_json_spec (fRun : bool) (strJSON : string) (w : World) :
  reply_json fRun strJSON w
  = (Val true,
     add_conn [HTTPReply HTTP_OK strJSON fRun false "application/json"; Flush]
              w).
Proof.
  unfold reply_json, bind, write, ret, add_conn. cbn [w_chain w_pending w_held w_log w_conn].
  rewrite <- !app_assoc. reflexivity.
Qed.

Lemma observe_eq (e : Event) (w : World) :
  observe e w = (Val (w_chain (yield w)), log_event e (yield w)).
Proof. reflexivity. Qed.

Lemma yield_conn (w : World) : w_conn (yield w) = w_conn w.
Proof.
  unfold yield. destruct (w_held w); [reflexivity|].
  destruct (w_pending w); reflexivity.
Qed.

Lemma yield_log (w : World) : w_log (yield w) = w_log w.
Proof.
  unfold yield. destruct (w_held w); [reflexivity|].
  destruct (w_pending w); reflexivity.
Qed.

Lemma yield_held (w : World) : w_held (yield w) = w_held w.
Proof.
  unfold yield. destruct (w_held w) eqn:E; [exact E|].
  destruct (w_pending w); [exact E | reflexivity].
Qed.

(** C6.  For every query result the binary and the hex reply carry the
    same serialization.  The binary body is, in this order, the chain height
    as read, in 4 bytes; the tip hash as read, in 32 bytes; the packed
    bitmap behind its byte count; and the coin records behind their count.
    The hex body is the lowercase hex text of exactly these bytes followed
    by a line feed, and reading it back gives them byte for byte.  The
    height and the hash are read back from their fields, least significant
    byte first; the bitmap has one byte for every eight outpoints, rounded
    up, and outpoint [i] is bit [i mod 8] of byte [i / 8]; a count below
    253 is one byte; every coin record is its version, height and value in
    4, 4 and 8 bytes and its script behind the script's length. *)
Theorem getutxos_hex_matches_binary (fRun : bool) (q : UtxoQuery) (w : World) :
  let height := chainActive_Height (w_chain (yield w)) in
  let tip :=
    chainActive_Tip_hash
      (w_chain (yield (log_event EvChainHeight (yield w)))) in
  let bitmap := to_block_range (hits q) in
  let body :=
    Ser.int32 height +++ Ser.hash256 tip
    +++ (Ser.compact_size (List.length bitmap) +++ string_of_list_ascii bitmap)
    +++ (Ser.compact_size (List.length (outs q))
         +++ String.concat EmptyString (map Ser.coin (outs q))) in
  (exists wb wh : World,
     getutxos_render RF_BINARY fRun q w = (Val true, wb)
     /\ getutxos_render RF_HEX fRun q w = (Val true, wh)
     /\ w_conn wb
        = w_conn w ++ [ HTTPReplyHeader HTTP_OK fRun (String.length body)
                                        "application/octet-stream";
                        Body body; Flush ]
     /\ w_conn wh
        = w_conn w ++ [ HTTPReply HTTP_OK (HexStr body +++ LF) fRun false
                                  "text/plain"; Flush ])
  /\ ParseHex (HexStr body +++ LF) = body
  /\ Forall (fun ch => In ch hexmap) (list_ascii_of_string (HexStr body))
  /\ (String.length (Ser.int32 height) = 4%nat
      /\ Ser.read_le (Ser.int32 height) = height mod 2 ^ 32)
  /\ (String.length (Ser.hash256 tip) = 32%nat
      /\ Ser.read_le (Ser.hash256 tip) = tip mod 2 ^ 256)
  /\ List.length bitmap = ((List.length (hits q) + 7) / 8)%nat
  /\ (forall i : nat,
        (i < List.length (hits q))%nat ->
        N.testbit (N_of_ascii (nth (i / 8) bitmap zero)) (N.of_nat (i mod 8))
        = nth i (hits q) false)
  /\ (forall n : nat,
        (n < 253)%nat ->
        Ser.compact_size n = String (ascii_of_nat n) EmptyString)
  /\ Forall (fun c => spec_coin_layout c (Ser.coin c)) (outs q).
Proof.
  intros height tip bitmap body.
  assert (Hbody : getutxos_serialize height tip bitmap (outs q) = body)
    by reflexivity.
  split; [|split; [|split; [|split; [|split; [|split; [|split; [|split]]]]]]].
  - do 2 eexists. split; [|split].
    + unfold getutxos_render.
      rewrite (bind_Val _ _ _ _ _ (observe_eq _ _)).
      rewrite (bind_Val _ _ _ _ _ (observe_eq _ _)).
      fold height tip bitmap. rewrite Hbody. apply reply_binary_spec.
    + unfold getutxos_render.
      rewrite (bind_Val _ _ _ _ _ (observe_eq _ _)).
      rewrite (bind_Val _ _ _ _ _ (observe_eq _ _)).
      fold height tip bitmap. rewrite Hbody. apply reply_text_spec.
    + unfold add_conn. repeat (rewrite yield_conn || cbn [w_conn log_event]).
      split; reflexivity.
  - rewrite ParseHex_HexStr. apply append_nil_r.
  - apply HexStr_lowercase.
  - unfold Ser.int32. rewrite Ser_le_length, read_le_le.
    split; [reflexivity|]. change (256 ^ Z.of_nat 4) with (2 ^ 32).
    apply Z.mod_mod. lia.
  - unfold Ser.hash256. rewrite Ser_le_length, read_le_le.
    split; [reflexivity|]. change (256 ^ Z.of_nat 32) with (2 ^ 256).
    apply Z.mod_mod. lia.
  - apply to_block_range_length.
  - intros i Hi. apply to_block_range_bit, Hi.
  - apply compact_size_small.
  - apply Forall_forall. intros c _. apply coin_layout.
Qed.

(** ** The input phase and the limit *)

Lemma getutxos_render_ok (rf : RetFormat) (fRun : bool) (q : UtxoQuery)
  (w : World) :
  rf <> RF_UNDEF ->
  exists items,
    getutxos_render rf fRun q w
    = (Val true,
       add_conn items
         (log_event EvChainTip (yield (log_event EvChainHeight (yield w))))).
Proof.
  intros Hrf. unfold getutxos_render.
  destruct rf; [contradiction | | |];
    rewrite (bind_Val _ _ _ _ _ (observe_eq _ _));
    rewrite (bind_Val _ _ _ _ _ (observe_eq _ _)).
  - rewrite reply_binary_spec. eexists. reflexivity.
  - rewrite reply_text_spec. eexists. reflexivity.
  - rewrite reply_json_spec. eexists. reflexivity.
Qed.

Lemma getutxos_input_format (rf : RetFormat) (param strRequest : string)
  (i : UtxoInput) :
  getutxos_input rf param strRequest = inr i -> rf <> RF_UNDEF.
Proof.
  unfold getutxos_input. intros H ->.
  destruct (getutxos_uri strRequest (getutxos_uriParts param));
    discriminate.
Qed.

Lemma rest_getutxos_unfold (strURIPart strRequest param : string)
  (rf : RetFormat) (fRun : bool) :
  ParseDataFormat strURIPart = (param, rf) ->
  rest_getutxos strURIPart strRequest fRun
  = (i <- lift (getutxos_input rf param strRequest) ;;
     if MAX_GETUTXOS_OUTPOINTS <? Z.of_nat (List.length (vOutPoints i)) then
       throw (ERR_max_outpoints (List.length (vOutPoints i)))
     else
       q <- getutxos_query (fCheckMemPool i) (vOutPoints i) ;;
       getutxos_render rf fRun q).
Proof. intros H. unfold rest_getutxos. rewrite H. reflexivity. Qed.

(** C3.  When the resolved outpoint list has more than 15 entries the
    handler throws an internal-error whose message names the maximum, 15,
    and the number tried, and it does so with the world untouched: no lock
    taken, no lookup made, nothing written.  A list of at most 15 entries,
    so one of exactly 15, passes the check and the request is answered. *)
Theorem getutxos_outpoint_limit (strURIPart strRequest param : string)
  (rf : RetFormat) (fRun : bool) (i : UtxoInput) (w : World) :
  ParseDataFormat strURIPart = (param, rf) ->
  getutxos_input rf param strRequest = inr i ->
  ((15 < List.length (vOutPoints i))%nat ->
   rest_getutxos strURIPart strRequest fRun w
   = (Threw (RESTERR HTTP_INTERNAL_SERVER_ERROR
               ("Error: max outpoints exceeded (max: 15, tried: "
                +++ Str.itostr (List.length (vOutPoints i)) +++ ")")), w))
  /\ ((List.length (vOutPoints i) <= 15)%nat ->
      exists w', rest_getutxos strURIPart strRequest fRun w = (Val true, w')).
Proof.
  intros Hfmt Hin. rewrite (rest_getutxos_unfold _ _ _ _ _ Hfmt), Hin.
  unfold lift. rewrite (bind_Val _ _ w w i) by reflexivity.
  unfold MAX_GETUTXOS_OUTPOINTS. split; intros Hn.
  - destruct (Z.ltb_spec 15 (Z.of_nat (List.length (vOutPoints i))));
      [reflexivity | lia].
  - destruct (Z.ltb_spec 15 (Z.of_nat (List.length (vOutPoints i))));
      [lia|].
    destruct (getutxos_query_spec (fCheckMemPool i) (vOutPoints i) w)
      as (w1 & evs & E & _).
    rewrite (bind_Val _ _ _ _ _ E).
    destruct (getutxos_render_ok rf fRun
                (mkQuery
                   (map (fun op => is_hit (spec_utxo_hit (w_chain (yield w))
                                             (fCheckMemPool i) op))
                        (vOutPoints i))
                   (hit_records (map (spec_utxo_hit (w_chain (yield w))
                                        (fCheckMemPool i)) (vOutPoints i)))
                   (bitmap_text
                      (map (fun op => is_hit (spec_utxo_hit (w_chain (yield w))
                                                (fCheckMemPool i) op))
                           (vOutPoints i)))) w1
                (getutxos_input_format _ _ _ _ Hin)) as (items & Er).
    rewrite Er. eexists. reflexivity.
Qed.

(** Every request that is answered has read the height and the tip after
    the query's lock was released. *)
Lemma getutxos_reads_chain_after_unlock (strURIPart strRequest : string)
  (fRun : bool) (w w' : World) :
  rest_getutxos strURIPart strRequest fRun w = (Val true, w') ->
  exists evs,
    w_log w' = w_log w ++ EvLock :: evs ++ [EvUnlock; EvChainHeight; EvChainTip]
    /\ Forall (fun e => e <> EvUnlock /\ e <> EvLock) evs.
Proof.
  destruct (ParseDataFormat strURIPart) as [param rf] eqn:Hfmt.
  rewrite (rest_getutxos_unfold _ _ _ _ _ Hfmt).
  destruct (getutxos_input rf param strRequest) as [e|i] eqn:Hin;
    [discriminate|].
  unfold lift. rewrite (bind_Val _ _ w w i) by reflexivity.
  destruct (MAX_GETUTXOS_OUTPOINTS <? _); [discriminate|].
  destruct (getutxos_query_spec (fCheckMemPool i) (vOutPoints i) w)
    as (w1 & evs & E & _ & _ & _ & _ & Hlog & Hev).
  rewrite (bind_Val _ _ _ _ _ E).
  match goal with
  | |- getutxos_render rf fRun ?q w1 = _ -> _ =>
      destruct (getutxos_render_ok rf fRun q w1
                  (getutxos_input_format _ _ _ _ Hin)) as (items & Er)
  end.
  rewrite Er. intros [= <-]. exists evs. split; [|exact Hev].
  unfold add_conn. repeat (rewrite yield_log || cbn [w_log log_event]).
  rewrite Hlog.
  rewrite <- !app_assoc. cbn [app]. rewrite <- app_assoc. reflexivity.
Qed.

Lemma length_pos_nonempty (s : string) :
  s <> EmptyString -> (0 <? String.length s)%nat = true.
Proof. destruct s; [contradiction | reflexivity]. Qed.

(** C2, as the code has it.  When the URI supplied at least one outpoint
    and the body is not empty (for hex: the body decodes to at least one
    byte), a binary or hex request throws the internal-error about combined
    inputs with the world untouched, so before any outpoint is resolved and
    without merging the channels.  A JSON request does not look at the body:
    its query is the URI's. *)
Theorem getutxos_both_channels (strURIPart strRequest param : string)
  (rf : RetFormat) (fRun : bool) (i : UtxoInput) (w : World) :
  ParseDataFormat strURIPart = (param, rf) ->
  getutxos_uri strRequest (getutxos_uriParts param) = inr i ->
  fInputParsed i = true ->
  (rf = RF_BINARY -> strRequest <> EmptyString ->
   rest_getutxos strURIPart strRequest fRun w
   = (Threw (RESTERR HTTP_INTERNAL_SERVER_ERROR
        "Combination of URI scheme inputs and raw post data is not allowed"),
      w))
  /\ (rf = RF_HEX -> ParseHex strRequest <> EmptyString ->
      rest_getutxos strURIPart strRequest fRun w
      = (Threw (RESTERR HTTP_INTERNAL_SERVER_ERROR
           "Combination of URI scheme inputs and raw post data is not allowed"),
         w))
  /\ (rf = RF_JSON -> getutxos_input rf param strRequest = inr i).
Proof.
  intros Hfmt Huri Hparsed.
  rewrite (rest_getutxos_unfold _ _ _ _ _ Hfmt).
  unfold getutxos_input. rewrite Huri.
  split; [|split]; intros -> .
  - intros Hbody. unfold getutxos_body, getutxos_body_binary.
    rewrite (length_pos_nonempty _ Hbody), Hparsed. reflexivity.
  - intros Hbody. unfold getutxos_body, getutxos_body_binary.
    rewrite (length_pos_nonempty _ Hbody), Hparsed. reflexivity.
  - unfold getutxos_body. rewrite Hparsed. reflexivity.
Qed.

Lemma getutxos_uri_parsed (strRequest : string) (parts : list string)
  (i : UtxoInput) :
  parts <> [] ->
  getutxos_uri strRequest parts = inr i ->
  fInputParsed i = true /\ vOutPoints i <> [].
Proof.
  intros Hparts. unfold getutxos_uri.
  destruct parts as [|p0 parts]; [contradiction|].
  rewrite andb_false_r. cbn [List.length Nat.ltb Nat.leb].
  destruct (getutxos_uri_loop _ []) as [e|pts]; [discriminate|].
  destruct pts as [|op pts]; [discriminate|].
  intros [= <-]. split; [reflexivity | discriminate].
Qed.

Lemma getutxos_uri_body_blind (s1 s2 : string) (parts : list string) :
  parts <> [] -> getutxos_uri s1 parts = getutxos_uri s2 parts.
Proof.
  intros Hparts. unfold getutxos_uri.
  destruct parts as [|p0 parts]; [contradiction|].
  rewrite !andb_false_r. reflexivity.
Qed.

Lemma getutxos_uri_loop_status (parts : list string) :
  forall acc e,
    getutxos_uri_loop parts acc = inl e ->
    status e = HTTP_INTERNAL_SERVER_ERROR.
Proof.
  induction parts as [|p parts IH]; intros acc e; simpl; [discriminate|].
  unfold getutxos_token.
  destruct (ParseInt32 _); [|intros [= <-]; reflexivity].
  destruct (negb (IsHex _)); [intros [= <-]; reflexivity|].
  apply IH.
Qed.

(** C4.  With the JSON format the body channel is closed: the resolved
    query is a function of the URI alone, so a body, empty or not, is never
    deserialized; a request whose URI supplies no outpoint parts fails with
    the internal-error for an empty request, every failure of the input
    phase is an internal-error, and a query that gets through is the one the
    URI spelled out in full. *)
Theorem getutxos_json_body_closed (param : string) :
  (forall strRequest,
     getutxos_input RF_JSON param strRequest
     = match getutxos_uriParts param with
       | [] => inl ERR_empty_request
       | _ :: _ => getutxos_uri EmptyString (getutxos_uriParts param)
       end)
  /\ (forall strRequest strRequest',
        getutxos_input RF_JSON param strRequest
        = getutxos_input RF_JSON param strRequest')
  /\ (forall strRequest i,
        getutxos_input RF_JSON param strRequest = inr i ->
        fInputParsed i = true /\ vOutPoints i <> [])
  /\ (forall strRequest e,
        getutxos_input RF_JSON param strRequest = inl e ->
        status e = HTTP_INTERNAL_SERVER_ERROR)
  /\ (forall strURIPart strRequest strRequest' fRun w,
        ParseDataFormat strURIPart = (param, RF_JSON) ->
        rest_getutxos strURIPart strRequest fRun w
        = rest_getutxos strURIPart strRequest' fRun w).
Proof.
  assert (H1 : forall strRequest,
     getutxos_input RF_JSON param strRequest
     = match getutxos_uriParts param with
       | [] => inl ERR_empty_request
       | _ :: _ => getutxos_uri EmptyString (getutxos_uriParts param)
       end).
  { intros strRequest. unfold getutxos_input.
    destruct (getutxos_uriParts param) as [|p0 parts] eqn:Eparts.
    - unfold getutxos_uri. cbn [List.length Nat.eqb Nat.ltb Nat.leb].
      rewrite andb_true_r.
      destruct (String.length strRequest =? 0)%nat; reflexivity.
    - rewrite (getutxos_uri_body_blind strRequest EmptyString)
        by discriminate.
      destruct (getutxos_uri EmptyString (p0 :: parts)) as [e|i] eqn:E;
        [reflexivity|].
      assert (Hne : p0 :: parts <> []) by discriminate.
      destruct (getutxos_uri_parsed _ _ _ Hne E) as [Hp _].
      unfold getutxos_body. rewrite Hp. reflexivity. }
  assert (H2 : forall strRequest strRequest',
        getutxos_input RF_JSON param strRequest
        = getutxos_input RF_JSON param strRequest').
  { intros s s'. rewrite (H1 s), (H1 s'). reflexivity. }
  split; [exact H1|]. split; [exact H2|]. split; [|split].
  - intros strRequest i. rewrite H1.
    destruct (getutxos_uriParts param) as [|p0 parts]; [discriminate|].
    apply getutxos_uri_parsed. discriminate.
  - intros strRequest e. rewrite H1.
    destruct (getutxos_uriParts param) as [|p0 parts];
      [intros [= <-]; reflexivity|].
    unfold getutxos_uri. rewrite andb_false_r.
    cbn [List.length Nat.ltb Nat.leb].
    destruct (getutxos_uri_loop _ []) as [e'|pts] eqn:El.
    + intros [= <-]. apply (getutxos_uri_loop_status _ _ _ El).
    + destruct pts; [intros [= <-]; reflexivity | discriminate].
  - intros strURIPart s s' fRun w Hfmt.
    rewrite !(rest_getutxos_unfold _ _ _ _ _ Hfmt), (H2 s s'). reflexivity.
Qed.

End GetutxosProofs.

(** ** Handlers throw before they write *)

Section DispatcherProofs.

Context {X : Extern}.

Lemma wn_ret {A : Type} (a : A) : writes_nothing (ret a).
Proof. intros w r w' [= _ <-]. reflexivity. Qed.

Lemma wn_throw {A : Type} (e : RestErr) : writes_nothing (@throw X A e).
Proof. intros w r w' [= _ <-]. reflexivity. Qed.

Lemma wn_observe (e : Event) : writes_nothing (observe e).
Proof.
  intros w r w' [= _ <-]. cbn [log_event w_conn]. apply yield_conn.
Qed.

Lemma wn_bind {A B : Type} (m : M A) (k : A -> M B) :
  writes_nothing m -> (forall a, writes_nothing (k a)) ->
  writes_nothing (bind m k).
Proof.
  intros Hm Hk w r w'. unfold bind.
  destruct (m w) as [[e|a] w1] eqn:E.
  - intros [= _ <-]. apply (Hm _ _ _ E).
  - intros E2. rewrite (Hk a _ _ _ E2). apply (Hm _ _ _ E).
Qed.

Lemma wn_LOCK {A : Type} (body : M A) :
  writes_nothing body -> writes_nothing (LOCK body).
Proof.
  intros Hb w r w'. unfold LOCK.
  destruct (body (acquire w)) as [r1 w1] eqn:E.
  intros [= _ <-]. cbn [release w_conn].
  rewrite (Hb _ _ _ E). cbn [acquire w_conn]. apply yield_conn.
Qed.

Lemma wn_getutxos_query (flag : bool) (ops : list COutPoint) :
  writes_nothing (getutxos_query flag ops).
Proof.
  intros w r w' E.
  destruct (getutxos_query_spec flag ops w) as (w1 & evs & E1 & _ & _ & _ & Hc & _).
  rewrite E1 in E. injection E as _ <-. exact Hc.
Qed.

Lemma tbw_of_wn {A : Type} (m : M A) :
  writes_nothing m -> throws_before_writing m.
Proof. intros H w e w' E. apply (H _ _ _ E). Qed.

Lemma tbw_bind {A B : Type} (m : M A) (k : A -> M B) :
  writes_nothing m -> (forall a, throws_before_writing (k a)) ->
  throws_before_writing (bind m k).
Proof.
  intros Hm Hk w e w'. unfold bind.
  destruct (m w) as [[e1|a] w1] eqn:E.
  - intros [= _ <-]. apply (Hm _ _ _ E).
  - intros E2. rewrite (Hk a _ _ _ E2). apply (Hm _ _ _ E).
Qed.

Lemma tbw_throw {A : Type} (e : RestErr) :
  throws_before_writing (@throw X A e).
Proof. apply tbw_of_wn, wn_throw. Qed.

Lemma tbw_reply_binary (fRun : bool) (body ct : string) :
  throws_before_writing (reply_binary fRun body ct).
Proof. intros w e w'. rewrite reply_binary_spec. discriminate. Qed.

Lemma tbw_reply_text (fRun : bool) (s : string) :
  throws_before_writing (reply_text fRun s).
Proof. intros w e w'. rewrite reply_text_spec. discriminate. Qed.

Lemma tbw_reply_json (fRun : bool) (s : string) :
  throws_before_writing (reply_json fRun s).
Proof. intros w e w'. rewrite reply_json_spec. discriminate. Qed.

Lemma wn_lift {A : Type} (r : RestErr + A) : writes_nothing (lift r).
Proof. destruct r; [apply wn_throw | apply wn_ret]. Qed.

Create HintDb quiet.

#[local] Hint Resolve wn_ret wn_throw wn_observe wn_getutxos_query wn_lift
  tbw_throw tbw_reply_binary tbw_reply_text tbw_reply_json : quiet.

Ltac quiet :=
  repeat first
    [ progress intros
    | progress cbv beta zeta
    | solve [auto with quiet]
    | apply wn_LOCK
    | apply tbw_bind
    | apply wn_bind
    | match goal with
      | |- context [match ?x with _ => _ end] => destruct x
      | |- context [if ?x then _ else _] => destruct x
      end ].

Lemma tbw_getutxos_render (rf : RetFormat) (fRun : bool) (q : UtxoQuery) :
  throws_before_writing (getutxos_render rf fRun q).
Proof. unfold getutxos_render. quiet. Qed.

Lemma tbw_rest_getutxos (strURIPart strRequest : string) (fRun : bool) :
  throws_before_writing (rest_getutxos strURIPart strRequest fRun).
Proof.
  unfold rest_getutxos. destruct (ParseDataFormat strURIPart) as [param rf].
  apply tbw_bind; [apply wn_lift|]. intros i.
  destruct (MAX_GETUTXOS_OUTPOINTS <? _); [apply tbw_throw|].
  apply tbw_bind; [apply wn_getutxos_query|]. intros q.
  apply tbw_getutxos_render.
Qed.

Lemma tbw_rest_tx (strURIPart strRequest : string) (fRun : bool) :
  throws_before_writing (rest_tx strURIPart strRequest fRun).
Proof. unfold rest_tx. quiet. Qed.

Lemma tbw_rest_chaininfo (strURIPart strRequest : string) (fRun : bool) :
  throws_before_writing (rest_chaininfo strURIPart strRequest fRun).
Proof. unfold rest_chaininfo. quiet. Qed.

Lemma tbw_rest_name (strURIPart strRequest : string) (fRun : bool) :
  throws_before_writing (rest_name strURIPart strRequest fRun).
Proof. unfold rest_name. quiet. Qed.

Lemma tbw_rest_block (strURIPart strRequest : string) (fRun details : bool) :
  throws_before_writing (rest_block strURIPart strRequest fRun details).
Proof. unfold rest_block. quiet. Qed.

Lemma tbw_rest_headers (strURIPart strRequest : string) (fRun : bool) :
  throws_before_writing (rest_headers strURIPart strRequest fRun).
Proof. unfold rest_headers. quiet. Qed.

Lemma rt_bind {A : Type} (m : M A) (k : A -> M bool) :
  (forall a, returns_true (k a)) -> returns_true (bind m k).
Proof.
  intros Hk w b w'. unfold bind.
  destruct (m w) as [[e|a] w1]; [discriminate|]. apply Hk.
Qed.

Lemma rt_throw (e : RestErr) : returns_true (@throw X bool e).
Proof. intros w b w'. discriminate. Qed.

Lemma rt_reply_binary (fRun : bool) (body ct : string) :
  returns_true (reply_binary fRun body ct).
Proof. intros w b w'. rewrite reply_binary_spec. intros [= <- _]. reflexivity. Qed.

Lemma rt_reply_text (fRun : bool) (s : string) :
  returns_true (reply_text fRun s).
Proof. intros w b w'. rewrite reply_text_spec. intros [= <- _]. reflexivity. Qed.

Lemma rt_reply_json (fRun : bool) (s : string) :
  returns_true (reply_json fRun s).
Proof. intros w b w'. rewrite reply_json_spec. intros [= <- _]. reflexivity. Qed.

#[local] Hint Resolve rt_throw rt_reply_binary rt_reply_text rt_reply_json
  : quiet.

Ltac only_true :=
  repeat first
    [ progress intros
    | progress cbv beta zeta
    | solve [auto with quiet]
    | apply rt_bind
    | match goal with
      | |- context [match ?x with _ => _ end] => destruct x
      | |- context [if ?x then _ else _] => destruct x
      end ].

Lemma rt_uri_prefixes :
  Forall (fun ph : string * Handler =>
            forall part req fRun, returns_true (snd ph part req fRun))
         uri_prefixes.
Proof.
  unfold uri_prefixes. repeat constructor; cbn [snd]; intros.
  - unfold rest_tx. only_true.
  - unfold rest_block_notxdetails, rest_block. only_true.
  - unfold rest_block_extended, rest_block. only_true.
  - unfold rest_chaininfo. only_true.
  - unfold rest_headers. only_true.
  - unfold rest_getutxos, getutxos_render. only_true.
  - unfold rest_name. only_true.
Qed.

Lemma dispatch_true (tbl : list (string * Handler))
  (strURI strRequest : string) (fRun : bool) :
  Forall (fun ph : string * Handler =>
            forall part req fRun, returns_true (snd ph part req fRun))
         tbl ->
  forall w b w1,
    dispatch tbl strURI strRequest fRun w = (Val (Some b), w1) -> b = true.
Proof.
  induction 1 as [|[prefix handler] tbl Hh _ IH]; cbn [dispatch];
    intros w b w1.
  - discriminate.
  - destruct (String.eqb _ prefix); [|apply IH]. unfold bind.
    destruct (handler _ strRequest fRun w) as [[e1|b1] w2] eqn:E;
      [discriminate|].
    intros [= <- _]. apply (Hh _ _ _ _ _ _ E).
Qed.

Lemma tbw_uri_prefixes :
  Forall (fun ph : string * Handler =>
            forall part req fRun, throws_before_writing (snd ph part req fRun))
         uri_prefixes.
Proof.
  unfold uri_prefixes. repeat constructor; cbn [snd]; intros.
  - apply tbw_rest_tx.
  - apply tbw_rest_block.
  - apply tbw_rest_block.
  - apply tbw_rest_chaininfo.
  - apply tbw_rest_headers.
  - apply tbw_rest_getutxos.
  - apply tbw_rest_name.
Qed.

(** The loop over the table: a handler that throws has written nothing, and
    falling out of the loop has touched nothing at all. *)
Lemma dispatch_quiet (tbl : list (string * Handler))
  (strURI strRequest : string) (fRun : bool) :
  Forall (fun ph : string * Handler =>
            forall part req fRun, throws_before_writing (snd ph part req fRun))
         tbl ->
  throws_before_writing (dispatch tbl strURI strRequest fRun)
  /\ (forall w w1, dispatch tbl strURI strRequest fRun w = (Val None, w1) ->
                   w1 = w).
Proof.
  induction 1 as [|[prefix handler] tbl Hh _ IH]; cbn [dispatch].
  - split; [apply tbw_of_wn, wn_ret|]. intros w w1 [= <-]. reflexivity.
  - destruct (String.eqb _ prefix); [|exact IH]. split.
    + intros w e w'. unfold bind.
      destruct (handler _ strRequest fRun w) as [[e1|b] w1] eqn:E;
        [|discriminate].
      intros [= _ <-]. apply (Hh _ _ _ _ _ _ E).
    + intros w w1. unfold bind.
      destruct (handler _ strRequest fRun w) as [[e1|b] w2]; discriminate.
Qed.

Lemma write_pair_spec (a b : StreamItem) (w : World) :
  (write a ;;; write b) w = (Val tt, add_conn [a; b] w).
Proof.
  unfold bind, write, add_conn. cbn [w_chain w_pending w_held w_log w_conn].
  rewrite <- app_assoc. reflexivity.
Qed.

(** C9, as the code has it.  Whatever a request does, the dispatcher ends
    in one of three ways.  A typed error, thrown by the selected handler or
    by the warm-up check, reaches the dispatcher with nothing written for
    the request; the dispatcher alone renders it, as a plain-text reply that
    carries the error's status and its message, without keep-alive, and
    returns false, so the connection serves no further request.  A handler
    that returns hands its flag on.  A request that matches no prefix gets
    the not-found reply and false as well. *)
Theorem HTTPReq_REST_outcomes (strURI strRequest : string) (fRun : bool)
  (w : World) :
  match HTTPReq_REST_try uri_prefixes strURI strRequest fRun w with
  | (Threw re, w1) =>
      w_conn w1 = w_conn w
      /\ HTTPReq_REST strURI strRequest fRun w
         = (false,
            add_conn [ HTTPReply (status re) (message re +++ CRLF) false false
                                 "text/plain"; Flush ] w1)
  | (Val (Some b), w1) =>
      b = true /\ HTTPReq_REST strURI strRequest fRun w = (true, w1)
  | (Val None, w1) =>
      w_conn w1 = w_conn w
      /\ HTTPReq_REST strURI strRequest fRun w
         = (false, add_conn [ HTTPError HTTP_NOT_FOUND false; Flush ] w1)
  end.
Proof.
  unfold HTTPReq_REST, HTTPReq_REST_on.
  destruct (HTTPReq_REST_try uri_prefixes strURI strRequest fRun w)
    as [[re|[b|]] w1] eqn:E.
  - rewrite write_pair_spec. split; [|reflexivity].
    revert E. unfold HTTPReq_REST_try.
    rewrite (bind_Val _ _ _ _ _ (observe_eq _ _)).
    destruct (RPCIsInWarmup (w_chain (yield w))).
    + intros [= _ <-]. cbn [log_event w_conn]. apply yield_conn.
    + intros E.
      rewrite (proj1 (dispatch_quiet _ _ _ _ tbw_uri_prefixes) _ _ _ E).
      cbn [log_event w_conn]. apply yield_conn.
  - assert (Hb : b = true).
    { revert E. unfold HTTPReq_REST_try.
      rewrite (bind_Val _ _ _ _ _ (observe_eq _ _)).
      destruct (RPCIsInWarmup (w_chain (yield w))); [discriminate|].
      apply (dispatch_true _ _ _ _ rt_uri_prefixes). }
    subst b. split; reflexivity.
  - rewrite write_pair_spec. split; [|reflexivity].
    revert E. unfold HTTPReq_REST_try.
    rewrite (bind_Val _ _ _ _ _ (observe_eq _ _)).
    destruct (RPCIsInWarmup (w_chain (yield w))); [discriminate|].
    intros E.
    rewrite (proj2 (dispatch_quiet _ _ _ _ tbw_uri_prefixes) _ _ E).
    cbn [log_event w_conn]. apply yield_conn.
Qed.

End DispatcherProofs.

(** ** The handlers on the concrete node *)

(** Two outpoints, the first unspent and the second unknown: the bitmap
    reads 10 and the hit list holds the one record. *)
Lemma getutxos_known_and_unknown :
  fst (getutxos_query (X := Demo.node) true
         [mkOutPoint Demo.txA 0; mkOutPoint Demo.txB 3] Demo.world0)
  = Val (mkQuery [true; false]
                 [mkCoin 1 90 (mkTxOut 5000 "script0")] "10").
Proof. reflexivity. Qed.

Lemma AvailableDataFormatsString_value :
  AvailableDataFormatsString = ".bin, .hex, .json".
Proof. reflexivity. Qed.

Lemma getutxos_prunes_mempool_spends_witness :
  In (mkOutPoint Demo.txA 1) (mapNextTx (w_chain (yield Demo.world0)))
  /\ fst (getutxos_query (X := Demo.node) true [mkOutPoint Demo.txA 1]
                         Demo.world0) = Val (mkQuery [false] [] "0")
  /\ nth 0 (hits (mkQuery [false] [] "0")) false = false
  /\ fst (getutxos_query (X := Demo.node) false [mkOutPoint Demo.txA 1]
                         Demo.world0) = Val (mkQuery [false] [] "0").
Proof.
  split; [left; reflexivity|]. split; [reflexivity|]. split; [|reflexivity].
  apply (getutxos_prunes_mempool_spends (X := Demo.node) true
           [mkOutPoint Demo.txA 1] Demo.world0
           (snd (getutxos_query (X := Demo.node) true
                   [mkOutPoint Demo.txA 1] Demo.world0))
           (mkQuery [false] [] "0") 0 (mkOutPoint Demo.txA 1)).
  - reflexivity.
  - reflexivity.
  - left; reflexivity.
Defined.

Lemma getutxos_outpoint_limit_witness :
  rest_getutxos (X := Demo.node) (Demo.query_path 16) "" true Demo.world0
  = (Threw (RESTERR HTTP_INTERNAL_SERVER_ERROR
              "Error: max outpoints exceeded (max: 15, tried: 16)"),
     Demo.world0)
  /\ exists w',
       rest_getutxos (X := Demo.node) (Demo.query_path 15) "" true Demo.world0
       = (Val true, w').
Proof.
  split.
  - apply (proj1 (getutxos_outpoint_limit (X := Demo.node)
                    (Demo.query_path 16) "" ("/checkmempool" +++ Demo.repeat_token 16)
                    RF_JSON true
                    (mkInput true true (repeat (mkOutPoint Demo.txA 0) 16))
                    Demo.world0 eq_refl eq_refl)).
    simpl; lia.
  - apply (proj2 (getutxos_outpoint_limit (X := Demo.node)
                    (Demo.query_path 15) "" ("/checkmempool" +++ Demo.repeat_token 15)
                    RF_JSON true
                    (mkInput true true (repeat (mkOutPoint Demo.txA 0) 15))
                    Demo.world0 eq_refl eq_refl)).
    simpl; lia.
Defined.

(** A JSON request with an outpoint in the URI and a body is answered from
    the URI, and so is a hex request whose body holds no hex digits: neither
    fails. *)
Lemma getutxos_json_with_body_answered :
  getutxos_uri (X := Demo.node) "raw body"
               (getutxos_uriParts "/checkmempool/aa-0")
  = inr (mkInput true true [mkOutPoint Demo.txA 0])
  /\ fst (rest_getutxos (X := Demo.node) "/checkmempool/aa-0.json" "raw body"
                        true Demo.world0) = Val true
  /\ w_conn (snd (rest_getutxos (X := Demo.node) "/checkmempool/aa-0.json"
                                "raw body" true Demo.world0))
     = [ HTTPReply HTTP_OK
           (Demo.write_json
              (VOBJ [ ("chainHeight", VNUM 100);
                      ("chaintipHash", VSTR (Demo.getHex (Demo.setHex "c0ffee")));
                      ("bitmap", VSTR "1");
                      ("utxos",
                       VARR [ VOBJ [ ("txvers", VNUM 1);
                                     ("height", VNUM 90);
                                     ("value", VNUM 5000);
                                     ("scriptPubKey",
                                      VOBJ [("hex", VSTR (HexStr "script0"))])
                                   ] ]) ]) +++ LF)
           true false "application/json"; Flush ]
  /\ fst (rest_getutxos (X := Demo.node) "/checkmempool/aa-0.hex" "zz" true
                        Demo.world0) = Val true.
Proof. split; [|split; [|split]]; vm_compute; reflexivity. Qed.

Lemma getutxos_both_channels_witness :
  rest_getutxos (X := Demo.node) "/checkmempool/aa-0.bin" "raw body" true
                Demo.world0
  = (Threw (RESTERR HTTP_INTERNAL_SERVER_ERROR
       "Combination of URI scheme inputs and raw post data is not allowed"),
     Demo.world0)
  /\ rest_getutxos (X := Demo.node) "/checkmempool/aa-0.hex" "00" true
                   Demo.world0
     = (Threw (RESTERR HTTP_INTERNAL_SERVER_ERROR
          "Combination of URI scheme inputs and raw post data is not allowed"),
        Demo.world0)
  /\ getutxos_input (X := Demo.node) RF_JSON "/checkmempool/aa-0" "raw body"
     = inr (mkInput true true [mkOutPoint Demo.txA 0]).
Proof.
  split; [|split].
  - apply (proj1 (getutxos_both_channels (X := Demo.node)
                    "/checkmempool/aa-0.bin" "raw body" "/checkmempool/aa-0"
                    RF_BINARY true
                    (mkInput true true [mkOutPoint Demo.txA 0]) Demo.world0
                    eq_refl eq_refl eq_refl) eq_refl).
    discriminate.
  - apply (proj1 (proj2 (getutxos_both_channels (X := Demo.node)
                    "/checkmempool/aa-0.hex" "00" "/checkmempool/aa-0"
                    RF_HEX true
                    (mkInput true true [mkOutPoint Demo.txA 0]) Demo.world0
                    eq_refl eq_refl eq_refl)) eq_refl).
    discriminate.
  - apply (proj2 (proj2 (getutxos_both_channels (X := Demo.node)
                    "/checkmempool/aa-0.json" "raw body" "/checkmempool/aa-0"
                    RF_JSON true
                    (mkInput true true [mkOutPoint Demo.txA 0]) Demo.world0
                    eq_refl eq_refl eq_refl)) eq_refl).
Defined.

Lemma getutxos_json_body_closed_witness :
  getutxos_input (X := Demo.node) RF_JSON "" "raw body" = inl ERR_empty_request
  /\ rest_getutxos (X := Demo.node) "/checkmempool/aa-0.json" "raw body" true
                   Demo.world0
     = rest_getutxos (X := Demo.node) "/checkmempool/aa-0.json" "" true
                     Demo.world0.
Proof.
  split.
  - apply (proj1 (getutxos_json_body_closed (X := Demo.node) "") "raw body").
  - apply (proj2 (proj2 (proj2 (proj2
             (getutxos_json_body_closed (X := Demo.node)
                                        "/checkmempool/aa-0"))))
             "/checkmempool/aa-0.json" "raw body" "" true Demo.world0 eq_refl).
Defined.

(** A handler error ends the connection's keep-alive loop, as a dispatch
    miss does: the format of the request is one the chain-info handler does
    not serve, the handler throws, and the dispatcher returns false. *)
Lemma HTTPReq_REST_handler_error_closes :
  fst (rest_chaininfo (X := Demo.node) ".bin" "" true Demo.world0)
  = Threw (RESTERR HTTP_NOT_FOUND "output format not found (available: json)")
  /\ fst (HTTPReq_REST (X := Demo.node) "/rest/chaininfo.bin" "" true
                       Demo.world0) = false
  /\ w_conn (snd (HTTPReq_REST (X := Demo.node) "/rest/chaininfo.bin" "" true
                               Demo.world0))
     = [ HTTPReply HTTP_NOT_FOUND
           ("output format not found (available: json)" +++ CRLF)
           false false "text/plain"; Flush ].
Proof. split; [|split]; vm_compute; reflexivity. Qed.

(** C5.  On a node where a block is connected right after the query's lock
    is released, the handler reads the height and the tip once the lock is
    gone: the log shows both reads after the unlock, and the reply pairs the
    height and tip of the new block with the bit of the old state, although
    the output is spent on the chain the reply names. *)
Theorem getutxos_height_read_after_unlock :
  fst (rest_getutxos (X := Demo.node) "/checkmempool/aa-0.json" "" true
                     Demo.world_busy) = Val true
  /\ w_log (snd (rest_getutxos (X := Demo.node) "/checkmempool/aa-0.json" ""
                               true Demo.world_busy))
     = [ EvLock; EvGetCoins Demo.txA; EvPruneSpent Demo.txA; EvUnlock;
         EvChainHeight; EvChainTip ]
  /\ w_conn (snd (rest_getutxos (X := Demo.node) "/checkmempool/aa-0.json" ""
                                true Demo.world_busy))
     = [ HTTPReply HTTP_OK
           (Demo.write_json
              (VOBJ [ ("chainHeight", VNUM 101);
                      ("chaintipHash", VSTR (Demo.getHex (Demo.setHex "decaf")));
                      ("bitmap", VSTR "1");
                      ("utxos",
                       VARR [ VOBJ [ ("txvers", VNUM 1);
                                     ("height", VNUM 90);
                                     ("value", VNUM 5000);
                                     ("scriptPubKey",
                                      VOBJ [("hex", VSTR (HexStr "script0"))])
                                   ] ]) ]) +++ LF)
           true false "application/json"; Flush ]
  /\ chainActive_Height Demo.chain0 = 100
  /\ is_hit (spec_utxo_hit (X := Demo.node) Demo.chain0 true
                           (mkOutPoint Demo.txA 0)) = true
  /\ chainActive_Height (Demo.connect_block Demo.chain0) = 101
  /\ is_hit (spec_utxo_hit (X := Demo.node) (Demo.connect_block Demo.chain0)
                           true (mkOutPoint Demo.txA 0)) = false.
Proof. repeat split; vm_compute; reflexivity. Qed.

(** * Further properties *)

(** ** DecodeName *)

Lemma list_ascii_of_append (a b : string) :
  list_ascii_of_string (a +++ b)
  = list_ascii_of_string a ++ list_ascii_of_string b.
Proof.
  induction a as [|c a IH]; simpl; [reflexivity | rewrite IH; reflexivity].
Qed.

Lemma list_ascii_length (s : string) :
  List.length (list_ascii_of_string s) = String.length s.
Proof.
  induction s as [|c s IH]; simpl; [reflexivity | rewrite IH; reflexivity].
Qed.

(** The decoder and the token-by-token decoding agree (the loop lemma at the
    start of the input). *)
Lemma DecodeName_tokens (encoded : string) :
  DecodeName encoded = spec_DecodeName (list_ascii_of_string encoded).
Proof.
  unfold DecodeName. rewrite DecodeName_loop_spec by apply Nat.le_refl.
  destruct (spec_DecodeName (list_ascii_of_string encoded)); reflexivity.
Qed.

Lemma spec_DecodeName_plain (cs : list ascii) :
  forallb (fun c => negb (Ascii.eqb c "+") && negb (Ascii.eqb c "%")) cs = true ->
  spec_DecodeName cs = Some cs.
Proof.
  induction cs as [|c cs IH]; simpl; [reflexivity|].
  intros H. apply andb_prop in H. destruct H as [Hc Hcs].
  apply andb_prop in Hc. destruct Hc as [Hplus Hpct].
  apply negb_true_iff in Hplus, Hpct. rewrite Hplus, Hpct, (IH Hcs).
  reflexivity.
Qed.

Lemma mem_false_forallb (x y : ascii) (s : string) :
  Str.mem x s = false -> Str.mem y s = false ->
  forallb (fun c => negb (Ascii.eqb c x) && negb (Ascii.eqb c y))
          (list_ascii_of_string s) = true.
Proof.
  induction s as [|c s IH]; simpl; [reflexivity|].
  intros Hx Hy. apply orb_false_iff in Hx, Hy.
  destruct Hx as [Hx Hxs], Hy as [Hy Hys].
  rewrite Hx, Hy, (IH Hxs Hys). reflexivity.
Qed.

(** X1.  A name without plus and percent signs decodes to itself. *)
Theorem DecodeName_plain (encoded : string) :
  Str.mem "+" encoded = false ->
  Str.mem "%" encoded = false ->
  DecodeName encoded = Some (list_ascii_of_string encoded).
Proof.
  intros Hplus Hpct. rewrite DecodeName_tokens.
  apply spec_DecodeName_plain, mem_false_forallb; assumption.
Qed.

Lemma DecodeName_plain_witness :
  DecodeName "d/example" = Some (list_ascii_of_string "d/example").
Proof. apply DecodeName_plain; reflexivity. Defined.

Lemma spec_DecodeName_length (n : nat) :
  forall cs v, (List.length cs <= n)%nat ->
               spec_DecodeName cs = Some v ->
               (List.length v <= List.length cs)%nat.
Proof.
  induction n as [|n IH]; intros cs v Hn.
  - destruct cs; [|simpl in Hn; lia]. intros [= <-]. apply Nat.le_refl.
  - destruct cs as [|c tl]; [intros [= <-]; apply Nat.le_refl|].
    simpl in Hn. cbn [spec_DecodeName].
    destruct (Ascii.eqb c "+").
    + destruct (spec_DecodeName tl) as [v'|] eqn:E; [|discriminate].
      intros [= <-]. simpl. apply le_n_S, (IH tl v'); [lia | exact E].
    + destruct (Ascii.eqb c "%").
      * destruct tl as [|h1 [|h2 tl']]; try discriminate.
        destruct (spec_hex_digit_value h1); [|discriminate].
        destruct (spec_hex_digit_value h2); [|discriminate].
        destruct (spec_DecodeName tl') as [v'|] eqn:E; [|discriminate].
        intros [= <-]. simpl in *.
        assert (List.length v' <= List.length tl')%nat
          by (apply (IH tl' v'); [lia | exact E]).
        lia.
      * destruct (spec_DecodeName tl) as [v'|] eqn:E; [|discriminate].
        intros [= <-]. simpl. apply le_n_S, (IH tl v'); [lia | exact E].
Qed.

(** X2.  Decoding never lengthens: a decoded name has at most as many bytes
    as its encoding has characters. *)
Theorem DecodeName_shrinks (encoded : string) (decoded : valtype) :
  DecodeName encoded = Some decoded ->
  (List.length decoded <= String.length encoded)%nat.
Proof.
  rewrite DecodeName_tokens. intros H. rewrite <- list_ascii_length.
  apply (spec_DecodeName_length _ _ _ (Nat.le_refl _) H).
Qed.

Lemma DecodeName_shrinks_witness :
  (List.length (list_ascii_of_string "a b") <= String.length "a%20b")%nat.
Proof. apply DecodeName_shrinks. reflexivity. Defined.

Lemma spec_DecodeName_app (n : nat) :
  forall a va b, (List.length a <= n)%nat ->
                 spec_DecodeName a = Some va ->
                 spec_DecodeName (a ++ b)
                 = option_map (app va) (spec_DecodeName b).
Proof.
  induction n as [|n IH]; intros a va b Hn.
  - destruct a; [|simpl in Hn; lia]. intros [= <-]. cbn [app].
    destruct (spec_DecodeName b); reflexivity.
  - destruct a as [|c tl].
    + intros [= <-]. cbn [app]. destruct (spec_DecodeName b); reflexivity.
    + simpl in Hn. cbn [spec_DecodeName app].
      destruct (Ascii.eqb c "+").
      * destruct (spec_DecodeName tl) as [v'|] eqn:E; [|discriminate].
        intros [= <-]. rewrite (IH tl v' b) by (lia || exact E).
        destruct (spec_DecodeName b); reflexivity.
      * destruct (Ascii.eqb c "%").
        -- destruct tl as [|h1 [|h2 tl']]; try discriminate.
           cbn [app].
           destruct (spec_hex_digit_value h1); [|discriminate].
           destruct (spec_hex_digit_value h2); [|discriminate].
           destruct (spec_DecodeName tl') as [v'|] eqn:E; [|discriminate].
           intros [= <-]. simpl in Hn.
           rewrite (IH tl' v' b) by (lia || exact E).
           destruct (spec_DecodeName b); reflexivity.
        -- destruct (spec_DecodeName tl) as [v'|] eqn:E; [|discriminate].
           intros [= <-]. rewrite (IH tl v' b) by (lia || exact E).
           destruct (spec_DecodeName b); reflexivity.
Qed.

(** X3.  Decoding goes piece by piece: after a piece that decodes, the rest
    is decoded on its own and the results are joined; the whole fails
    exactly when the rest fails. *)
Theorem DecodeName_append (a b : string) (va : valtype) :
  DecodeName a = Some va ->
  DecodeName (a +++ b) = option_map (app va) (DecodeName b).
Proof.
  rewrite !DecodeName_tokens, list_ascii_of_append. intros H.
  apply (spec_DecodeName_app _ _ _ _ (Nat.le_refl _) H).
Qed.

Lemma DecodeName_append_witness :
  DecodeName ("a%20" +++ "b+c")
  = option_map (app (list_ascii_of_string "a ")) (DecodeName "b+c")
  /\ DecodeName ("a%20" +++ "%4")
     = option_map (app (list_ascii_of_string "a ")) (DecodeName "%4").
Proof.
  split; apply DecodeName_append; reflexivity.
Defined.

Lemma hex_nibbles_decode (c : ascii) :
  let n := N_of_ascii c in
  spec_hex_digit_value (hex_of_nibble (N.shiftr n 4))
  = Some (Z.of_N (N.shiftr n 4))
  /\ spec_hex_digit_value (hex_of_nibble (N.land n 15))
     = Some (Z.of_N (N.land n 15))
  /\ ascii_of_N (Z.to_N (16 * Z.of_N (N.shiftr n 4) + Z.of_N (N.land n 15)))
     = c.
Proof.
  destruct c as [[] [] [] [] [] [] [] []]; vm_compute; auto.
Qed.

Lemma spec_DecodeName_percent_encode (v : valtype) :
  spec_DecodeName (list_ascii_of_string (percent_encode v)) = Some v.
Proof.
  induction v as [|c v IH]; [reflexivity|].
  destruct (hex_nibbles_decode c) as (H1 & H2 & Hc).
  cbn [percent_encode list_ascii_of_string spec_DecodeName].
  change (Ascii.eqb "%" "+") with false. change (Ascii.eqb "%" "%") with true.
  cbv iota. rewrite H1, H2, IH, Hc. reflexivity.
Qed.

(** X4.  Every byte sequence can be asked for: its percent encoding decodes
    back to it, whatever the bytes are. *)
Theorem DecodeName_percent_encode (v : valtype) :
  DecodeName (percent_encode v) = Some v.
Proof.
  rewrite DecodeName_tokens. apply spec_DecodeName_percent_encode.
Qed.

(** ** ParseDataFormat *)

Lemma ParseDataFormat_cut (param suff : string) :
  Str.mem "." suff = false ->
  ParseDataFormat (param +++ String "." suff)
  = (param, spec_format_of_suffix suff).
Proof.
  intros H. unfold ParseDataFormat.
  rewrite (rfind_last _ _ _ H), substr_to_app, substr_from_app.
  rewrite <- rf_names_scan_table.
  destruct (rf_names_scan rf_names suff); reflexivity.
Qed.

Lemma ParseDataFormat_whole (strReq : string) :
  Str.mem "." strReq = false -> ParseDataFormat strReq = (strReq, RF_UNDEF).
Proof.
  intros H. unfold ParseDataFormat. rewrite (rfind_absent _ _ H). reflexivity.
Qed.

Lemma spec_format_of_suffix_inv (suff : string) :
  (spec_format_of_suffix suff = RF_BINARY -> suff = "bin")
  /\ (spec_format_of_suffix suff = RF_HEX -> suff = "hex")
  /\ (spec_format_of_suffix suff = RF_JSON -> suff = "json").
Proof.
  unfold spec_format_of_suffix.
  destruct (String.eqb suff "bin") eqn:Eb.
  { apply String.eqb_eq in Eb. repeat split; (discriminate || auto). }
  destruct (String.eqb suff "hex") eqn:Eh.
  { apply String.eqb_eq in Eh. repeat split; (discriminate || auto). }
  destruct (String.eqb suff "json") eqn:Ej.
  { apply String.eqb_eq in Ej. repeat split; (discriminate || auto). }
  repeat split; discriminate.
Qed.

(** X5.  What [ParseDataFormat] returns can be read backwards: the
    parameter is always a prefix of the request, and a concrete format is
    reported only for a request that is the parameter followed by a dot and
    that format's name, in lower case. *)
Theorem ParseDataFormat_format_is_suffix (strReq param : string)
  (rf : RetFormat) :
  ParseDataFormat strReq = (param, rf) ->
  (exists rest, strReq = param +++ rest)
  /\ (rf = RF_BINARY -> strReq = param +++ ".bin")
  /\ (rf = RF_HEX -> strReq = param +++ ".hex")
  /\ (rf = RF_JSON -> strReq = param +++ ".json").
Proof.
  destruct (Str.mem "." strReq) eqn:Hdot.
  - destruct (mem_decompose _ _ Hdot) as (p & suff & -> & Hsuff).
    rewrite (ParseDataFormat_cut _ _ Hsuff). intros [= <- <-].
    destruct (spec_format_of_suffix_inv suff) as (Hb & Hh & Hj).
    split; [eexists; reflexivity|].
    split; [|split]; intros H; [rewrite (Hb H) | rewrite (Hh H) | rewrite (Hj H)];
      reflexivity.
  - rewrite (ParseDataFormat_whole _ Hdot). intros [= <- <-].
    split; [exists EmptyString; symmetry; apply append_nil_r|].
    repeat split; discriminate.
Qed.

Lemma ParseDataFormat_format_is_suffix_witness :
  "00ff.JSON.hex" = "00ff.JSON" +++ ".hex".
Proof.
  apply (proj1 (proj2 (proj2
           (ParseDataFormat_format_is_suffix "00ff.JSON.hex" "00ff.JSON" RF_HEX
              eq_refl)))).
  reflexivity.
Defined.

(** ** The URI channel of the UTXO query *)

Lemma find_absent (c : ascii) (s : string) :
  Str.mem c s = false -> Str.find c s = None.
Proof.
  induction s as [|a s IH]; simpl; intros H; [reflexivity|].
  apply orb_false_iff in H. destruct H as [Ha Hs].
  rewrite Ha, (IH Hs). reflexivity.
Qed.

Lemma find_first (c : ascii) (p s : string) :
  Str.mem c p = false -> Str.find c (p +++ String c s) = Some (String.length p).
Proof.
  induction p as [|a p IH]; simpl; intros H.
  - rewrite Ascii.eqb_refl. reflexivity.
  - apply orb_false_iff in H. destruct H as [Ha Hp].
    rewrite Ha, (IH Hp). reflexivity.
Qed.

Section UriProofs.

Context {X : Extern}.

(** X7.  A token is cut at its first hyphen: the text before it is the
    transaction id and all the text after it, further hyphens included, is
    the index.  A token with no hyphen at all is not refused for that: the
    whole token is taken both as the id and as the index. *)
Theorem getutxos_token_cut :
  (forall strTxid strOutput,
     Str.mem "-" strTxid = false ->
     getutxos_token (strTxid +++ String "-" strOutput)
     = token_outcome strTxid strOutput)
  /\ (forall part,
        Str.mem "-" part = false ->
        getutxos_token part = token_outcome part part).
Proof.
  split.
  - intros strTxid strOutput H. unfold getutxos_token, token_outcome.
    rewrite (find_first _ _ _ H), substr_to_app, substr_from_app.
    destruct (ParseInt32 strOutput); [|reflexivity].
    destruct (IsHex strTxid); reflexivity.
  - intros part H. unfold getutxos_token, token_outcome.
    rewrite (find_absent _ _ H).
    destruct (ParseInt32 part); [|reflexivity].
    destruct (IsHex part); reflexivity.
Qed.

Lemma getutxos_token_error (part : string) (e : RestErr) :
  getutxos_token part = inl e -> e = ERR_parse_error.
Proof.
  unfold getutxos_token.
  destruct (ParseInt32 _); [|intros [= <-]; reflexivity].
  destruct (negb (IsHex _)); [intros [= <-]; reflexivity | discriminate].
Qed.

(** X6.  The URI tokens are taken all or none: when the loop succeeds it
    has added exactly one outpoint for each token, in token order, to what
    it started with; when it fails, some token is malformed and the error is
    the parse error, with no outpoint kept. *)
Theorem getutxos_uri_loop_all_or_none (parts : list string) :
  forall acc : list COutPoint,
    match getutxos_uri_loop parts acc with
    | inr pts =>
        exists ops,
          pts = acc ++ ops
          /\ Forall2 (fun part op => getutxos_token part = inr op) parts ops
    | inl e =>
        e = ERR_parse_error
        /\ Exists (fun part => getutxos_token part = inl ERR_parse_error) parts
    end.
Proof.
  induction parts as [|part parts IH]; intros acc; cbn [getutxos_uri_loop].
  - exists []. split; [symmetry; apply app_nil_r | constructor].
  - destruct (getutxos_token part) as [e|op] eqn:E.
    + pose proof (getutxos_token_error _ _ E) as ->.
      split; [reflexivity | left; exact E].
    + specialize (IH (acc ++ [op])).
      destruct (getutxos_uri_loop parts (acc ++ [op])) as [e|pts].
      * destruct IH as [-> Hex]. split; [reflexivity | right; exact Hex].
      * destruct IH as (ops & -> & Hall). exists (op :: ops).
        split; [rewrite <- app_assoc; reflexivity | constructor; assumption].
Qed.

End UriProofs.

Lemma getutxos_token_cut_witness :
  getutxos_token (X := Demo.node) "aa--1"
  = inr (mkOutPoint Demo.txA 4294967295)
  /\ getutxos_token (X := Demo.node) "12" = inr (mkOutPoint 18 12).
Proof.
  split.
  - apply (proj1 (getutxos_token_cut (X := Demo.node)) "aa" "-1"). reflexivity.
  - apply (proj2 (getutxos_token_cut (X := Demo.node)) "12"). reflexivity.
Defined.

Section MoreGetutxosProofs.

Context {X : Extern}.

Lemma getutxos_uri_error (strRequest : string) (parts : list string)
  (e : RestErr) :
  getutxos_uri strRequest parts = inl e ->
  status e = HTTP_INTERNAL_SERVER_ERROR.
Proof.
  unfold getutxos_uri.
  destruct ((String.length strRequest =? 0)%nat && (List.length parts =? 0)%nat);
    [intros [= <-]; reflexivity|].
  destruct (0 <? List.length parts)%nat; [|discriminate].
  destruct (getutxos_uri_loop _ []) as [e'|pts] eqn:El.
  - intros [= <-]. apply (getutxos_uri_loop_status _ _ _ El).
  - destruct (0 <? List.length pts)%nat; [discriminate|].
    intros [= <-]. reflexivity.
Qed.

Lemma getutxos_body_error (rf : RetFormat) (strRequest : string)
  (i : UtxoInput) (e : RestErr) :
  getutxos_body rf strRequest i = inl e ->
  status e = HTTP_INTERNAL_SERVER_ERROR
  \/ (rf = RF_UNDEF /\ e = output_format_not_found).
Proof.
  unfold getutxos_body, getutxos_body_binary. destruct rf.
  - intros [= <-]. right. split; reflexivity.
  - destruct (0 <? String.length strRequest)%nat; [|discriminate].
    destruct (fInputParsed i); [intros [= <-]; left; reflexivity|].
    destruct (Unserialize_request strRequest) as [[f pts]|];
      [discriminate | intros [= <-]; left; reflexivity].
  - destruct (0 <? String.length (ParseHex strRequest))%nat; [|discriminate].
    destruct (fInputParsed i); [intros [= <-]; left; reflexivity|].
    destruct (Unserialize_request (ParseHex strRequest)) as [[f pts]|];
      [discriminate | intros [= <-]; left; reflexivity].
  - destruct (negb (fInputParsed i)); [|discriminate].
    intros [= <-]. left. reflexivity.
Qed.

(** X8.  A UTXO request that fails has failed before the query: the world
    is as it was, with no lock taken, no lookup made and nothing written.
    The error is an internal-error, except for a request with no known
    format suffix, which gets the not-found error that lists the formats;
    the handler never answers bad-request. *)
Theorem rest_getutxos_fails_before_query (strURIPart strRequest : string)
  (fRun : bool) (w w' : World) (e : RestErr) :
  rest_getutxos strURIPart strRequest fRun w = (Threw e, w') ->
  w' = w
  /\ (status e = HTTP_INTERNAL_SERVER_ERROR
      \/ (snd (ParseDataFormat strURIPart) = RF_UNDEF
          /\ e = output_format_not_found)).
Proof.
  destruct (ParseDataFormat strURIPart) as [param rf] eqn:Hfmt.
  rewrite (rest_getutxos_unfold _ _ _ _ _ Hfmt). cbn [snd].
  destruct (getutxos_input rf param strRequest) as [e0|i] eqn:Hin.
  - unfold lift, bind, throw. intros [= <- <-]. split; [reflexivity|].
    revert Hin. unfold getutxos_input.
    destruct (getutxos_uri strRequest (getutxos_uriParts param)) as [e1|i]
      eqn:Huri.
    + intros [= <-]. left. apply (getutxos_uri_error _ _ _ Huri).
    + apply getutxos_body_error.
  - unfold lift. rewrite (bind_Val _ _ w w i) by reflexivity.
    destruct (MAX_GETUTXOS_OUTPOINTS <? _).
    + intros [= <- <-]. split; [reflexivity | left; reflexivity].
    + destruct (getutxos_query_spec (fCheckMemPool i) (vOutPoints i) w)
        as (w1 & evs & E & _).
      rewrite (bind_Val _ _ _ _ _ E).
      match goal with
      | |- getutxos_render rf fRun ?q w1 = _ -> _ =>
          destruct (getutxos_render_ok rf fRun q w1
                      (getutxos_input_format _ _ _ _ Hin)) as (items & Er)
      end.
      rewrite Er. discriminate.
Qed.

Lemma spec_utxo_hit_dummy (c : ChainState) (op : COutPoint) :
  (forall h, viewDummy_GetCoins h = None) ->
  spec_utxo_hit c false op = None.
Proof. intros H. unfold spec_utxo_hit. rewrite H. reflexivity. Qed.

Lemma map_const_repeat {A B : Type} (f : A -> B) (b : B) (l : list A) :
  (forall a, f a = b) -> map f l = repeat b (List.length l).
Proof.
  intros H. induction l as [|a l IH]; simpl; [reflexivity|].
  rewrite H, IH. reflexivity.
Qed.

Lemma hit_records_none (l : list (option CCoin)) :
  Forall (fun r => r = None) l -> hit_records l = [].
Proof.
  induction 1 as [|r l Hr _ IH]; [reflexivity|]. subst r. exact IH.
Qed.

(** X9.  Without the check-mempool flag the cache keeps its dummy backend,
    and a dummy backend that knows no transaction makes every outpoint a
    miss: all bits are clear and no coin is reported, whatever the chain
    state holds. *)
Theorem getutxos_without_checkmempool (ops : list COutPoint) (w : World) :
  (forall h, viewDummy_GetCoins h = None) ->
  exists w',
    getutxos_query false ops w
    = (Val (mkQuery (repeat false (List.length ops)) []
                    (bitmap_text (repeat false (List.length ops)))), w').
Proof.
  intros Hdummy.
  destruct (getutxos_query_spec false ops w) as (w' & evs & E & _).
  exists w'. rewrite E.
  rewrite (map_const_repeat
             (fun op => is_hit (spec_utxo_hit (w_chain (yield w)) false op))
             false ops)
    by (intros op; rewrite (spec_utxo_hit_dummy _ _ Hdummy); reflexivity).
  rewrite hit_records_none; [reflexivity|].
  apply Forall_forall. intros r Hr. apply in_map_iff in Hr.
  destruct Hr as (op & <- & _). apply (spec_utxo_hit_dummy _ _ Hdummy).
Qed.

(** X10.  A binary request with no URI outpoints whose body deserializes to
    an empty outpoint list is not an empty request: it passes the input
    phase with no outpoint and is answered. *)
Theorem getutxos_body_with_no_outpoints (strURIPart strRequest param : string)
  (fRun f : bool) (w : World) :
  ParseDataFormat strURIPart = (param, RF_BINARY) ->
  getutxos_uriParts param = [] ->
  strRequest <> EmptyString ->
  Unserialize_request strRequest = Some (f, []) ->
  getutxos_input RF_BINARY param strRequest = inr (mkInput false f [])
  /\ exists height tip w',
       rest_getutxos strURIPart strRequest fRun w = (Val true, w')
       /\ w_conn w'
          = w_conn w
            ++ [ HTTPReplyHeader HTTP_OK fRun
                   (String.length (getutxos_serialize height tip [] []))
                   "application/octet-stream";
                 Body (getutxos_serialize height tip [] []);
                 Flush ].
Proof.
  intros Hfmt Hparts Hbody Hun.
  assert (Hin : getutxos_input RF_BINARY param strRequest
                = inr (mkInput false f [])).
  { unfold getutxos_input, getutxos_uri. rewrite Hparts.
    destruct strRequest as [|c s]; [contradiction|].
    cbn [String.length Nat.eqb andb List.length Nat.ltb Nat.leb].
    unfold getutxos_body, getutxos_body_binary.
    cbn [String.length Nat.ltb Nat.leb fInputParsed]. rewrite Hun. reflexivity. }
  split; [exact Hin|].
  rewrite (rest_getutxos_unfold _ _ _ _ _ Hfmt), Hin.
  unfold lift. rewrite (bind_Val _ _ w w _) by reflexivity.
  cbn [vOutPoints fCheckMemPool List.length].
  change (MAX_GETUTXOS_OUTPOINTS <? Z.of_nat 0) with false. cbv iota.
  destruct (getutxos_query_spec f [] w) as (w1 & evs & E & _ & _ & _ & Hc & _).
  rewrite (bind_Val _ _ _ _ _ E). cbn [map hit_records bitmap_text].
  unfold getutxos_render.
  rewrite (bind_Val _ _ _ _ _ (observe_eq _ _)).
  rewrite (bind_Val _ _ _ _ _ (observe_eq _ _)).
  rewrite reply_binary_spec. do 3 eexists. split; [reflexivity|].
  unfold add_conn. repeat (rewrite yield_conn || cbn [w_conn log_event hits outs]).
  rewrite Hc. reflexivity.
Qed.

End MoreGetutxosProofs.

Lemma rest_getutxos_fails_before_query_witness :
  rest_getutxos (X := Demo.node) "/checkmempool/zz-0.json" "" true Demo.world0
  = (Threw ERR_parse_error, Demo.world0)
  /\ (status ERR_parse_error = HTTP_INTERNAL_SERVER_ERROR
      \/ (snd (ParseDataFormat "/checkmempool/zz-0.json") = RF_UNDEF
          /\ ERR_parse_error = output_format_not_found)).
Proof.
  split; [reflexivity|].
  apply (proj2 (rest_getutxos_fails_before_query (X := Demo.node)
                  "/checkmempool/zz-0.json" "" true Demo.world0 Demo.world0
                  ERR_parse_error eq_refl)).
Defined.

Lemma getutxos_without_checkmempool_witness :
  exists w',
    getutxos_query (X := Demo.node) false
      [mkOutPoint Demo.txA 0; mkOutPoint Demo.txB 3] Demo.world0
    = (Val (mkQuery [false; false] [] "00"), w').
Proof.
  apply (getutxos_without_checkmempool (X := Demo.node)
           [mkOutPoint Demo.txA 0; mkOutPoint Demo.txB 3] Demo.world0).
  reflexivity.
Defined.

Lemma getutxos_body_with_no_outpoints_witness :
  getutxos_input (X := Demo.node) RF_BINARY "" empty_query_body
  = inr (mkInput false true [])
  /\ exists height tip w',
       rest_getutxos (X := Demo.node) ".bin" empty_query_body true
                     Demo.world0 = (Val true, w')
       /\ w_conn w'
          = w_conn Demo.world0
            ++ [ HTTPReplyHeader HTTP_OK true
                   (String.length (getutxos_serialize height tip [] []))
                   "application/octet-stream";
                 Body (getutxos_serialize height tip [] []);
                 Flush ].
Proof.
  apply (getutxos_body_with_no_outpoints (X := Demo.node) ".bin"
           empty_query_body "" true true Demo.world0).
  - reflexivity.
  - reflexivity.
  - discriminate.
  - reflexivity.
Defined.

(** ** Headers and blocks *)

Section HeadersProofs.

Context {X : Extern}.

(** The loop of rest_headers, with [fuel] turns left before the count is
    reached: what it adds is the headers of a walk along the active chain,
    and it stops short of the count only where the chain ends. *)
Lemma headers_loop_walk (c : ChainState) (count : Z) (fuel : nat) :
  forall (pindex : option CBlockIndex) (acc : list CBlockHeader),
    Z.of_nat (fuel + List.length acc) = count ->
    exists bs,
      headers_loop c fuel count pindex acc = acc ++ map GetBlockHeader bs
      /\ walk_from c pindex bs
      /\ (List.length bs <= fuel)%nat
      /\ (List.length bs = fuel \/ off_chain c (walk_end c pindex bs)).
Proof.
  induction fuel as [|fuel IH]; intros pindex acc Hcount.
  - exists []. cbn. rewrite app_nil_r. repeat split; auto.
  - cbn [headers_loop]. destruct pindex as [p|].
    + destruct (chainActive_Contains c p) eqn:Hc.
      * destruct (Z.eqb_spec (Z.of_nat (List.length (acc ++ [GetBlockHeader p])))
                             count) as [Heq|Hne].
        -- exists [p]. cbn. repeat split; auto; try lia.
           left. rewrite length_app in Heq. simpl in Heq. lia.
        -- destruct (IH (chainActive_Next c p) (acc ++ [GetBlockHeader p]))
             as (bs & E & Hw & Hlen & Hend).
           { rewrite length_app. simpl. lia. }
           exists (p :: bs). rewrite E, <- app_assoc. cbn.
           repeat split; auto; try lia.
           destruct Hend as [Hend|Hend]; [left; lia | right; exact Hend].
      * exists []. cbn. rewrite app_nil_r. repeat split; auto; try lia.
    + exists []. cbn. rewrite app_nil_r. repeat split; auto; try lia.
Qed.

(** X12.  The headers that rest_headers collects for a count of at least
    one are those of consecutive blocks of the active chain, starting at the
    block asked for: there are never more than the count, and fewer only
    when the walk has reached the end of the active chain (or the start
    block is unknown or not on it, which gives none at all). *)
Theorem headers_loop_is_chain_walk (c : ChainState) (count : Z)
  (pindex : option CBlockIndex) :
  1 <= count ->
  exists bs,
    headers_loop c (Z.to_nat count) count pindex [] = map GetBlockHeader bs
    /\ walk_from c pindex bs
    /\ Z.of_nat (List.length bs) <= count
    /\ (Z.of_nat (List.length bs) = count
        \/ off_chain c (walk_end c pindex bs)).
Proof.
  intros Hcount.
  destruct (headers_loop_walk c count (Z.to_nat count) pindex [])
    as (bs & E & Hw & Hlen & Hend).
  { cbn [List.length]. lia. }
  exists bs. cbn [app] in E. repeat split; auto; try lia.
  destruct Hend as [Hend|Hend]; [left; lia | right; exact Hend].
Qed.

(** X11.  A well-formed headers request for a hash the block index does
    not know is not an error: in the binary format it is answered with
    status OK and an empty body. *)
Theorem rest_headers_unknown_hash (strURIPart strRequest param : string)
  (cnt hashStr : string) (h : uint256) (fRun : bool) (w : World) :
  ParseDataFormat strURIPart = (param, RF_BINARY) ->
  Str.split "/" param = [cnt; hashStr] ->
  1 <= strtol cnt <= 2000 ->
  ParseHashStr hashStr = Some h ->
  mapBlockIndex (w_chain (yield w)) h = None ->
  exists w',
    rest_headers strURIPart strRequest fRun w = (Val true, w')
    /\ w_conn w'
       = w_conn w ++ [ HTTPReplyHeader HTTP_OK fRun 0
                                       "application/octet-stream";
                       Body EmptyString; Flush ].
Proof.
  intros Hfmt Hsplit Hrange Hhash Hmiss.
  unfold rest_headers. rewrite Hfmt, Hsplit.
  cbn [List.length Nat.eqb negb nth].
  destruct (Z.ltb_spec (strtol cnt) 1); [lia|].
  destruct (Z.ltb_spec 2000 (strtol cnt)); [lia|].
  cbn [orb]. rewrite Hhash.
  unfold bind at 1. unfold LOCK.
  rewrite (bind_Val _ _ _ _ _ (observe_held _ (acquire w) eq_refl)).
  unfold ret at 1. cbn [w_chain acquire]. rewrite Hmiss.
  replace (headers_loop _ _ _ None []) with (@nil CBlockHeader)
    by (destruct (Z.to_nat (strtol cnt)); reflexivity).
  cbn [map String.concat]. rewrite reply_binary_spec.
  eexists. split; [reflexivity|].
  unfold add_conn, release, log_event, acquire. cbn [w_conn String.length].
  rewrite yield_conn. reflexivity.
Qed.

(** X13.  The transaction-details switch of the two block routes matters
    for JSON only: for any other format the two handlers do the same, down
    to the reply and the error. *)
Theorem rest_block_details_only_json (strURIPart strRequest : string)
  (fRun : bool) (w : World) :
  snd (ParseDataFormat strURIPart) <> RF_JSON ->
  rest_block_extended strURIPart strRequest fRun w
  = rest_block_notxdetails strURIPart strRequest fRun w.
Proof.
  unfold rest_block_extended, rest_block_notxdetails, rest_block.
  destruct (ParseDataFormat strURIPart) as [hashStr rf]. cbn [snd].
  intros Hrf. destruct (ParseHashStr hashStr); [|reflexivity].
  unfold bind at 1 3.
  match goal with
  | |- match ?m with _ => _ end = _ => destruct m as [[e|[block idx]] w1]
  end; [reflexivity|].
  destruct rf; try reflexivity. contradiction.
Qed.

End HeadersProofs.

(** ** The dispatcher and its routes *)

Lemma substr_from_prefix (p s : string) :
  Str.substr_from (p +++ s) (String.length p) = s.
Proof.
  unfold Str.substr_from.
  induction p as [|a p IH]; simpl.
  - rewrite Nat.sub_0_r. apply substring_all.
  - exact IH.
Qed.

Lemma substr_to_nested (s : string) :
  forall n k, (k <= n)%nat ->
              Str.substr_to (Str.substr_to s n) k = Str.substr_to s k.
Proof.
  unfold Str.substr_to.
  induction s as [|a s IH]; intros n k Hk.
  - destruct n, k; reflexivity.
  - destruct k as [|k]; [destruct n; reflexivity|].
    destruct n as [|n]; [lia|]. simpl. rewrite IH by lia. reflexivity.
Qed.

Section RouteProofs.

Context {X : Extern}.

Lemma rk_bind {A : Type} (fRun : bool) (m : M A) (k : A -> M bool) :
  writes_nothing m -> (forall a, replies_ok fRun (k a)) ->
  replies_ok fRun (bind m k).
Proof.
  intros Hm Hk w b w'. unfold bind.
  destruct (m w) as [[e|a] w1] eqn:E; [discriminate|].
  intros E2. destruct (Hk a _ _ _ E2) as (Hb & items & Hc & Hok).
  split; [exact Hb|]. exists items. rewrite Hc, (Hm _ _ _ E).
  split; [reflexivity | exact Hok].
Qed.

Lemma rk_throw (fRun : bool) (e : RestErr) :
  replies_ok fRun (@throw X bool e).
Proof. intros w b w'. discriminate. Qed.

Lemma rk_reply_binary (fRun : bool) (body ct : string) :
  replies_ok fRun (reply_binary fRun body ct).
Proof.
  intros w b w'. rewrite reply_binary_spec. intros [= <- <-].
  split; [reflexivity|]. eexists. split; [reflexivity|].
  right. do 2 eexists. reflexivity.
Qed.

Lemma rk_reply_text (fRun : bool) (s : string) :
  replies_ok fRun (reply_text fRun s).
Proof.
  intros w b w'. rewrite reply_text_spec. intros [= <- <-].
  split; [reflexivity|]. eexists. split; [reflexivity|].
  left. do 2 eexists. reflexivity.
Qed.

Lemma rk_reply_json (fRun : bool) (s : string) :
  replies_ok fRun (reply_json fRun s).
Proof.
  intros w b w'. rewrite reply_json_spec. intros [= <- <-].
  split; [reflexivity|]. eexists. split; [reflexivity|].
  left. do 2 eexists. reflexivity.
Qed.

Create HintDb replies.

#[local] Hint Resolve wn_ret wn_throw wn_observe wn_getutxos_query wn_lift
  rk_throw rk_reply_binary rk_reply_text rk_reply_json : replies.

Ltac reply_ok :=
  repeat first
    [ progress intros
    | progress cbv beta zeta
    | solve [auto with replies]
    | apply wn_LOCK
    | apply rk_bind
    | apply wn_bind
    | match goal with
      | |- context [match ?x with _ => _ end] => destruct x
      | |- context [if ?x then _ else _] => destruct x
      end ].

Lemma rk_uri_prefixes (fRun : bool) :
  Forall (fun ph : string * Handler =>
            forall part req, replies_ok fRun (snd ph part req fRun))
         uri_prefixes.
Proof.
  unfold uri_prefixes.
  repeat (apply Forall_cons; [cbn beta; cbn [snd]; intros part req|]);
    [..|apply Forall_nil].
  - unfold rest_tx. reply_ok.
  - unfold rest_block_notxdetails, rest_block. reply_ok.
  - unfold rest_block_extended, rest_block. reply_ok.
  - unfold rest_chaininfo. reply_ok.
  - unfold rest_headers. reply_ok.
  - unfold rest_getutxos, getutxos_render. reply_ok.
  - unfold rest_name. reply_ok.
Qed.

Lemma te_bind {A B : Type} (m : M A) (k : A -> M B) :
  throws_errors m -> (forall a, throws_errors (k a)) ->
  throws_errors (bind m k).
Proof.
  intros Hm Hk w e w'. unfold bind.
  destruct (m w) as [[e1|a] w1] eqn:E.
  - intros [= <- _]. apply (Hm _ _ _ E).
  - apply Hk.
Qed.

Lemma te_ret {A : Type} (a : A) : throws_errors (@ret X A a).
Proof. intros w e w'. discriminate. Qed.

Lemma te_observe (e : Event) : throws_errors (observe e).
Proof. intros w e' w'. discriminate. Qed.

Lemma te_throw {A : Type} (e : RestErr) :
  status e <> HTTP_OK -> throws_errors (@throw X A e).
Proof. intros H w e' w' [= <- _]. exact H. Qed.

Lemma te_LOCK {A : Type} (body : M A) :
  throws_errors body -> throws_errors (LOCK body).
Proof.
  intros Hb w e w'. unfold LOCK.
  destruct (body (acquire w)) as [[e1|a] w1] eqn:E; [|discriminate].
  intros [= <- _]. apply (Hb _ _ _ E).
Qed.

Lemma te_reply_binary (fRun : bool) (body ct : string) :
  throws_errors (reply_binary fRun body ct).
Proof. intros w e w'. rewrite reply_binary_spec. discriminate. Qed.

Lemma te_reply_text (fRun : bool) (s : string) :
  throws_errors (reply_text fRun s).
Proof. intros w e w'. rewrite reply_text_spec. discriminate. Qed.

Lemma te_reply_json (fRun : bool) (s : string) :
  throws_errors (reply_json fRun s).
Proof. intros w e w'. rewrite reply_json_spec. discriminate. Qed.

Lemma te_getutxos_query (flag : bool) (ops : list COutPoint) :
  throws_errors (getutxos_query flag ops).
Proof.
  intros w e w' E.
  destruct (getutxos_query_spec flag ops w) as (w1 & evs & E1 & _).
  rewrite E1 in E. discriminate.
Qed.

Lemma te_getutxos_input (rf : RetFormat) (param strRequest : string) :
  throws_errors (lift (getutxos_input rf param strRequest)).
Proof.
  intros w e w'. unfold lift.
  destruct (getutxos_input rf param strRequest) as [e0|i] eqn:Hin;
    [|discriminate].
  intros [= <- _]. revert Hin. unfold getutxos_input.
  destruct (getutxos_uri strRequest (getutxos_uriParts param)) as [e1|i] eqn:Hu.
  - intros [= <-]. rewrite (getutxos_uri_error _ _ _ Hu). discriminate.
  - intros Hb. destruct (getutxos_body_error _ _ _ _ Hb) as [Hs|[_ ->]];
      [rewrite Hs|]; discriminate.
Qed.

#[local] Hint Resolve te_ret te_observe te_reply_binary te_reply_text
  te_reply_json te_getutxos_query te_getutxos_input : replies.

Ltac only_errors :=
  repeat first
    [ progress intros
    | progress cbv beta zeta
    | solve [auto with replies]
    | solve [apply te_throw; intros Hs; lazy in Hs; discriminate Hs]
    | apply te_LOCK
    | apply te_bind
    | match goal with
      | |- context [match ?x with _ => _ end] => destruct x
      | |- context [if ?x then _ else _] => destruct x
      end ].

Lemma te_uri_prefixes :
  Forall (fun ph : string * Handler =>
            forall part req fRun, throws_errors (snd ph part req fRun))
         uri_prefixes.
Proof.
  unfold uri_prefixes. repeat constructor; cbn [snd]; intros.
  - unfold rest_tx. only_errors.
  - unfold rest_block_notxdetails, rest_block. only_errors.
  - unfold rest_block_extended, rest_block. only_errors.
  - unfold rest_chaininfo. only_errors.
  - unfold rest_headers. only_errors.
  - unfold rest_getutxos, getutxos_render. only_errors.
  - unfold rest_name. only_errors.
Qed.

Lemma dispatch_replies_ok (tbl : list (string * Handler))
  (strURI strRequest : string) (fRun : bool) :
  Forall (fun ph : string * Handler =>
            forall part req, replies_ok fRun (snd ph part req fRun))
         tbl ->
  forall w b w1,
    dispatch tbl strURI strRequest fRun w = (Val (Some b), w1) ->
    b = true
    /\ exists items, w_conn w1 = w_conn w ++ items /\ ok_reply fRun items.
Proof.
  induction 1 as [|[prefix handler] tbl Hh _ IH]; cbn [dispatch];
    intros w b w1.
  - discriminate.
  - destruct (String.eqb _ prefix); [|apply IH]. unfold bind.
    destruct (handler _ strRequest fRun w) as [[e1|b1] w2] eqn:E;
      [discriminate|].
    intros [= <- <-]. apply (Hh _ _ _ _ _ E).
Qed.

Lemma dispatch_throws_errors (tbl : list (string * Handler))
  (strURI strRequest : string) (fRun : bool) :
  Forall (fun ph : string * Handler =>
            forall part req fRun, throws_errors (snd ph part req fRun))
         tbl ->
  throws_errors (dispatch tbl strURI strRequest fRun).
Proof.
  induction 1 as [|[prefix handler] tbl Hh _ IH]; cbn [dispatch].
  - apply te_ret.
  - destruct (String.eqb _ prefix); [|exact IH].
    apply te_bind; [apply Hh | intros b; apply te_ret].
Qed.

(** X14.  Every request gets exactly one reply, and the flag the
    dispatcher returns tells which kind.  It returns true only after one
    success reply: status OK, the keep-alive flag of the request, and for a
    binary reply a header announcing the length of the body that follows.
    It returns false only after one failure reply: plain text with a status
    other than OK, or the not-found page, with keep-alive off. *)
Theorem HTTPReq_REST_reply_matches_flag (strURI strRequest : string)
  (fRun : bool) (w : World) :
  exists items,
    w_conn (snd (HTTPReq_REST strURI strRequest fRun w)) = w_conn w ++ items
    /\ (if fst (HTTPReq_REST strURI strRequest fRun w)
        then ok_reply fRun items
        else error_reply items).
Proof.
  unfold HTTPReq_REST, HTTPReq_REST_on.
  destruct (HTTPReq_REST_try uri_prefixes strURI strRequest fRun w)
    as [[re|[b|]] w1] eqn:E;
    revert E; unfold HTTPReq_REST_try;
    rewrite (bind_Val _ _ _ _ _ (observe_eq _ _));
    destruct (RPCIsInWarmup (w_chain (yield w))) as [msg|].
  - intros [= <- <-]. rewrite write_pair_spec. eexists.
    cbn [fst snd add_conn w_conn log_event]. rewrite yield_conn.
    split; [reflexivity|]. left. do 2 eexists.
    split; [|reflexivity]. discriminate.
  - intros E. rewrite write_pair_spec. eexists.
    cbn [fst snd add_conn w_conn].
    rewrite (proj1 (dispatch_quiet _ _ _ _ tbw_uri_prefixes) _ _ _ E).
    cbn [log_event w_conn]. rewrite yield_conn.
    split; [reflexivity|]. left. do 2 eexists.
    split; [|reflexivity].
    apply (dispatch_throws_errors _ _ _ _ te_uri_prefixes _ _ _ E).
  - discriminate.
  - intros E. cbn [fst snd].
    destruct (dispatch_replies_ok _ _ _ _ (rk_uri_prefixes fRun) _ _ _ E)
      as (-> & items & Hc & Hok).
    exists items. rewrite Hc. cbn [log_event w_conn]. rewrite yield_conn.
    split; [reflexivity | exact Hok].
  - discriminate.
  - intros E. rewrite write_pair_spec. eexists.
    cbn [fst snd add_conn w_conn].
    rewrite (proj2 (dispatch_quiet _ _ _ _ tbw_uri_prefixes) _ _ E).
    cbn [log_event w_conn]. rewrite yield_conn.
    split; [reflexivity|]. right. reflexivity.
Qed.

End RouteProofs.

Section RoutingProofs.

Context {X : Extern}.

(** Decides the prefix tests of the route table on a URI whose start is
    known. *)
Ltac route :=
  unfold uri_prefixes; cbn [dispatch];
  repeat match goal with
         | |- context [String.eqb ?a ?b] =>
             let v := eval lazy in (String.eqb a b) in
             match v with
             | true => change (String.eqb a b) with true
             | false => change (String.eqb a b) with false
             end; cbv iota
         end.

(** X15.  No route shadows another, bar one: a URI that starts with a route
    prefix reaches that route's handler with the rest of the URI, for every
    row of the table; only the block route gives way, to the no-details
    route listed before it, for a rest that starts with notxdetails/. *)
Theorem dispatch_routes (rest strRequest : string) (fRun : bool) :
  dispatch uri_prefixes ("/rest/tx/" +++ rest) strRequest fRun
  = (b <- rest_tx rest strRequest fRun ;; ret (Some b))
  /\ dispatch uri_prefixes ("/rest/block/notxdetails/" +++ rest) strRequest fRun
     = (b <- rest_block_notxdetails rest strRequest fRun ;; ret (Some b))
  /\ (Str.substr_to rest 12 <> "notxdetails/" ->
      dispatch uri_prefixes ("/rest/block/" +++ rest) strRequest fRun
      = (b <- rest_block_extended rest strRequest fRun ;; ret (Some b)))
  /\ dispatch uri_prefixes ("/rest/chaininfo" +++ rest) strRequest fRun
     = (b <- rest_chaininfo rest strRequest fRun ;; ret (Some b))
  /\ dispatch uri_prefixes ("/rest/headers/" +++ rest) strRequest fRun
     = (b <- rest_headers rest strRequest fRun ;; ret (Some b))
  /\ dispatch uri_prefixes ("/rest/getutxos" +++ rest) strRequest fRun
     = (b <- rest_getutxos rest strRequest fRun ;; ret (Some b))
  /\ dispatch uri_prefixes ("/rest/name/" +++ rest) strRequest fRun
     = (b <- rest_name rest strRequest fRun ;; ret (Some b)).
Proof.
  repeat match goal with |- _ /\ _ => split end.
  - route. rewrite substr_to_app, String.eqb_refl, substr_from_prefix.
    reflexivity.
  - route. rewrite substr_to_app, String.eqb_refl, substr_from_prefix.
    reflexivity.
  - intros Hrest. route.
    change (String.eqb (Str.substr_to ("/rest/block/" +++ rest)
                          (String.length "/rest/block/notxdetails/"))
                       "/rest/block/notxdetails/")
      with (String.eqb (Str.substr_to rest 12) "notxdetails/").
    rewrite (proj2 (String.eqb_neq _ _) Hrest).
    rewrite substr_to_app, String.eqb_refl, substr_from_prefix. reflexivity.
  - route. rewrite substr_to_app, String.eqb_refl, substr_from_prefix.
    reflexivity.
  - route. rewrite substr_to_app, String.eqb_refl, substr_from_prefix.
    reflexivity.
  - route. rewrite substr_to_app, String.eqb_refl, substr_from_prefix.
    reflexivity.
  - route. rewrite substr_to_app, String.eqb_refl, substr_from_prefix.
    reflexivity.
Qed.

Lemma prefix_starts_with_rest (tbl : list (string * Handler))
  (strURI strRequest : string) (fRun : bool) :
  Forall (fun ph : string * Handler =>
            Str.substr_to (fst ph) 6 = "/rest/"
            /\ (6 <= String.length (fst ph))%nat) tbl ->
  Str.substr_to strURI 6 <> "/rest/" ->
  dispatch tbl strURI strRequest fRun = ret None.
Proof.
  intros Htbl Huri.
  induction Htbl as [|[prefix handler] tbl [Hp Hlen] _ IH]; cbn [dispatch];
    [reflexivity|].
  cbn [fst] in *.
  destruct (String.eqb_spec (Str.substr_to strURI (String.length prefix)) prefix)
    as [Heq|_]; [|exact IH].
  exfalso. apply Huri.
  rewrite <- (substr_to_nested strURI (String.length prefix) 6 Hlen), Heq.
  exact Hp.
Qed.

(** X16.  Nothing outside the rest tree is served: a URI whose first six
    characters are not the rest prefix matches no route, so once the node is
    warm it gets the not-found error page and the connection is dropped,
    with no handler run. *)
Theorem HTTPReq_REST_outside_rest (strURI strRequest : string) (fRun : bool)
  (w : World) :
  Str.substr_to strURI 6 <> "/rest/" ->
  RPCIsInWarmup (w_chain (yield w)) = None ->
  HTTPReq_REST strURI strRequest fRun w
  = (false,
     add_conn [HTTPError HTTP_NOT_FOUND false; Flush]
              (log_event (EvRead "RPCIsInWarmup") (yield w))).
Proof.
  intros Huri Hwarm.
  unfold HTTPReq_REST, HTTPReq_REST_on, HTTPReq_REST_try.
  rewrite (bind_Val _ _ _ _ _ (observe_eq _ _)), Hwarm.
  rewrite prefix_starts_with_rest; [| |exact Huri].
  - unfold ret. rewrite write_pair_spec. reflexivity.
  - unfold uri_prefixes. repeat constructor; cbn; lia.
Qed.

End RoutingProofs.

(** ** Bad requests, and the hex form of every binary reply *)

Section ValidationProofs.

Context {X : Extern}.

Lemma bru_throw {A : Type} (e : RestErr) :
  bad_request_untouched (@throw X A e).
Proof. intros w e' w' [= _ <-] _. reflexivity. Qed.

Lemma bru_of_never {A : Type} (m : M A) :
  never_bad_request m -> bad_request_untouched m.
Proof. intros H w e w' E Hs. destruct (H _ _ _ E Hs). Qed.

Lemma nbr_bind {A B : Type} (m : M A) (k : A -> M B) :
  never_bad_request m -> (forall a, never_bad_request (k a)) ->
  never_bad_request (bind m k).
Proof.
  intros Hm Hk w e w'. unfold bind.
  destruct (m w) as [[e1|a] w1] eqn:E.
  - intros [= <- _]. apply (Hm _ _ _ E).
  - apply Hk.
Qed.

Lemma nbr_ret {A : Type} (a : A) : never_bad_request (@ret X A a).
Proof. intros w e w'. discriminate. Qed.

Lemma nbr_observe (e : Event) : never_bad_request (observe e).
Proof. intros w e' w'. discriminate. Qed.

Lemma nbr_throw {A : Type} (e : RestErr) :
  status e <> HTTP_BAD_REQUEST -> never_bad_request (@throw X A e).
Proof. intros H w e' w' [= <- _]. exact H. Qed.

Lemma nbr_LOCK {A : Type} (body : M A) :
  never_bad_request body -> never_bad_request (LOCK body).
Proof.
  intros Hb w e w'. unfold LOCK.
  destruct (body (acquire w)) as [[e1|a] w1] eqn:E; [|discriminate].
  intros [= <- _]. apply (Hb _ _ _ E).
Qed.

Lemma nbr_reply_binary (fRun : bool) (body ct : string) :
  never_bad_request (reply_binary fRun body ct).
Proof. intros w e w'. rewrite reply_binary_spec. discriminate. Qed.

Lemma nbr_reply_text (fRun : bool) (s : string) :
  never_bad_request (reply_text fRun s).
Proof. intros w e w'. rewrite reply_text_spec. discriminate. Qed.

Lemma nbr_reply_json (fRun : bool) (s : string) :
  never_bad_request (reply_json fRun s).
Proof. intros w e w'. rewrite reply_json_spec. discriminate. Qed.

Lemma nbr_getutxos_query (flag : bool) (ops : list COutPoint) :
  never_bad_request (getutxos_query flag ops).
Proof.
  intros w e w' E.
  destruct (getutxos_query_spec flag ops w) as (w1 & evs & E1 & _).
  rewrite E1 in E. discriminate.
Qed.

Lemma nbr_getutxos_input (rf : RetFormat) (param strRequest : string) :
  never_bad_request (lift (getutxos_input rf param strRequest)).
Proof.
  intros w e w'. unfold lift.
  destruct (getutxos_input rf param strRequest) as [e0|i] eqn:Hin;
    [|discriminate].
  intros [= <- _]. revert Hin. unfold getutxos_input.
  destruct (getutxos_uri strRequest (getutxos_uriParts param)) as [e1|i] eqn:Hu.
  - intros [= <-]. rewrite (getutxos_uri_error _ _ _ Hu). discriminate.
  - intros Hb. destruct (getutxos_body_error _ _ _ _ Hb) as [Hs|[_ ->]];
      [rewrite Hs|]; discriminate.
Qed.

Create HintDb validation.

#[local] Hint Resolve nbr_ret nbr_observe nbr_reply_binary nbr_reply_text
  nbr_reply_json nbr_getutxos_query nbr_getutxos_input : validation.

Ltac never_400 :=
  repeat first
    [ progress intros
    | progress cbv beta zeta
    | solve [auto with validation]
    | solve [apply nbr_throw; intros Hs; lazy in Hs; discriminate Hs]
    | apply nbr_LOCK
    | apply nbr_bind
    | match goal with
      | |- context [match ?x with _ => _ end] => destruct x
      | |- context [if ?x then _ else _] => destruct x
      end ].

Ltac validates :=
  repeat first
    [ apply bru_throw
    | solve [apply bru_of_never; never_400]
    | match goal with
      | |- context [match ?x with _ => _ end] => destruct x
      | |- context [if ?x then _ else _] => destruct x
      end ].

(** X17.  Bad-request is decided on the text of the request alone: when
    any handler of the route table throws a bad-request error, the world is
    as the request found it, with no lock taken, no chain state read and
    nothing written.  The UTXO and chain-info handlers never throw it. *)
Theorem bad_request_before_any_lookup (ph : string * Handler)
  (part strRequest : string) (fRun : bool) (w w' : World) (e : RestErr) :
  In ph uri_prefixes ->
  snd ph part strRequest fRun w = (Threw e, w') ->
  status e = HTTP_BAD_REQUEST ->
  w' = w.
Proof.
  intros Hin.
  assert (H : bad_request_untouched (snd ph part strRequest fRun)).
  { unfold uri_prefixes in Hin. cbn [In] in Hin.
    destruct Hin as [<-|[<-|[<-|[<-|[<-|[<-|[<-|[]]]]]]]]; cbn [snd].
    - unfold rest_tx. validates.
    - unfold rest_block_notxdetails, rest_block. validates.
    - unfold rest_block_extended, rest_block. validates.
    - unfold rest_chaininfo. validates.
    - unfold rest_headers. validates.
    - unfold rest_getutxos, getutxos_render. validates.
    - unfold rest_name. validates. }
  apply H.
Qed.

End ValidationProofs.

Section HexProofs.

Context {X : Extern}.

Lemma ParseHex_of_hex_body (body : string) :
  ParseHex (HexStr body +++ LF) = body.
Proof. rewrite ParseHex_HexStr. apply append_nil_r. Qed.

(** X18.  A transaction asked for in hex is the transaction asked for in
    binary, written in hex: on the same state both requests fail alike, or
    both succeed and the hex reply is the lowercase hex text of the binary
    body followed by a line feed, which reads back to that body. *)
Theorem rest_tx_hex_matches_binary (hashStr strRequest : string)
  (fRun : bool) (w : World) :
  match rest_tx (hashStr +++ ".bin") strRequest fRun w with
  | (Threw e, w1) =>
      rest_tx (hashStr +++ ".hex") strRequest fRun w = (Threw e, w1)
  | (Val _, w1) =>
      exists body w0,
        w1 = add_conn [ HTTPReplyHeader HTTP_OK fRun (String.length body)
                                        "application/octet-stream";
                        Body body; Flush ] w0
        /\ rest_tx (hashStr +++ ".hex") strRequest fRun w
           = (Val true,
              add_conn [ HTTPReply HTTP_OK (HexStr body +++ LF) fRun false
                                   "text/plain"; Flush ] w0)
        /\ ParseHex (HexStr body +++ LF) = body
  end.
Proof.
  unfold rest_tx.
  rewrite (ParseDataFormat_cut _ "bin" eq_refl),
    (ParseDataFormat_cut _ "hex" eq_refl).
  change (spec_format_of_suffix "bin") with RF_BINARY.
  change (spec_format_of_suffix "hex") with RF_HEX.
  destruct (ParseHashStr hashStr) as [hash|]; [|reflexivity].
  rewrite !(bind_Val _ _ _ _ _ (observe_eq _ _)).
  destruct (GetTransaction (w_chain (yield w)) hash) as [[tx hashBlock]|];
    [|reflexivity].
  rewrite reply_binary_spec, reply_text_spec.
  do 2 eexists. split; [reflexivity|]. split; [reflexivity|].
  apply ParseHex_of_hex_body.
Qed.

(** X19.  The same for blocks, on either block route: the hex reply is the
    hex text of the binary body, and the two formats fail alike. *)
Theorem rest_block_hex_matches_binary (hashStr strRequest : string)
  (fRun showTxDetails : bool) (w : World) :
  match rest_block (hashStr +++ ".bin") strRequest fRun showTxDetails w with
  | (Threw e, w1) =>
      rest_block (hashStr +++ ".hex") strRequest fRun showTxDetails w
      = (Threw e, w1)
  | (Val _, w1) =>
      exists body w0,
        w1 = add_conn [ HTTPReplyHeader HTTP_OK fRun (String.length body)
                                        "application/octet-stream";
                        Body body; Flush ] w0
        /\ rest_block (hashStr +++ ".hex") strRequest fRun showTxDetails w
           = (Val true,
              add_conn [ HTTPReply HTTP_OK (HexStr body +++ LF) fRun false
                                   "text/plain"; Flush ] w0)
        /\ ParseHex (HexStr body +++ LF) = body
  end.
Proof.
  unfold rest_block.
  rewrite (ParseDataFormat_cut _ "bin" eq_refl),
    (ParseDataFormat_cut _ "hex" eq_refl).
  change (spec_format_of_suffix "bin") with RF_BINARY.
  change (spec_format_of_suffix "hex") with RF_HEX.
  destruct (ParseHashStr hashStr) as [hash|]; [|reflexivity].
  match goal with
  | |- context [bind ?m _ w] => destruct (m w) as [[e|[block idx]] w1] eqn:E
  end; [rewrite !(bind_Threw _ _ _ _ _ E); reflexivity|].
  rewrite !(bind_Val _ _ _ _ _ E).
  rewrite reply_binary_spec, reply_text_spec.
  do 2 eexists. split; [reflexivity|]. split; [reflexivity|].
  apply ParseHex_of_hex_body.
Qed.

(** X20.  The same for header lists: the hex reply is the hex text of the
    binary body, the serialized headers one after the other, and the two
    formats fail alike. *)
Theorem rest_headers_hex_matches_binary (param strRequest : string)
  (fRun : bool) (w : World) :
  match rest_headers (param +++ ".bin") strRequest fRun w with
  | (Threw e, w1) =>
      rest_headers (param +++ ".hex") strRequest fRun w = (Threw e, w1)
  | (Val _, w1) =>
      exists body w0,
        w1 = add_conn [ HTTPReplyHeader HTTP_OK fRun (String.length body)
                                        "application/octet-stream";
                        Body body; Flush ] w0
        /\ rest_headers (param +++ ".hex") strRequest fRun w
           = (Val true,
              add_conn [ HTTPReply HTTP_OK (HexStr body +++ LF) fRun false
                                   "text/plain"; Flush ] w0)
        /\ ParseHex (HexStr body +++ LF) = body
  end.
Proof.
  unfold rest_headers.
  rewrite (ParseDataFormat_cut _ "bin" eq_refl),
    (ParseDataFormat_cut _ "hex" eq_refl).
  change (spec_format_of_suffix "bin") with RF_BINARY.
  change (spec_format_of_suffix "hex") with RF_HEX.
  destruct (negb (List.length (Str.split "/" param) =? 2)%nat);
    [reflexivity|].
  destruct ((strtol (nth 0 (Str.split "/" param) "") <? 1)
            || (2000 <? strtol (nth 0 (Str.split "/" param) "")));
    [reflexivity|].
  destruct (ParseHashStr (nth 1 (Str.split "/" param) "")) as [hash|];
    [|reflexivity].
  match goal with
  | |- context [bind ?m _ w] => destruct (m w) as [[e|headers] w1] eqn:E
  end; [rewrite !(bind_Threw _ _ _ _ _ E); reflexivity|].
  rewrite !(bind_Val _ _ _ _ _ E).
  rewrite reply_binary_spec, reply_text_spec.
  do 2 eexists. split; [reflexivity|]. split; [reflexivity|].
  apply ParseHex_of_hex_body.
Qed.

(** X21.  The same for name values, with one difference the code makes:
    the binary reply of a name is declared as plain text, not as an octet
    stream.  The hex reply is the hex text of the value's bytes. *)
Theorem rest_name_hex_matches_binary (encodedName strRequest : string)
  (fRun : bool) (w : World) :
  match rest_name (encodedName +++ ".bin") strRequest fRun w with
  | (Threw e, w1) =>
      rest_name (encodedName +++ ".hex") strRequest fRun w = (Threw e, w1)
  | (Val _, w1) =>
      exists body w0,
        w1 = add_conn [ HTTPReplyHeader HTTP_OK fRun (String.length body)
                                        "text/plain";
                        Body body; Flush ] w0
        /\ rest_name (encodedName +++ ".hex") strRequest fRun w
           = (Val true,
              add_conn [ HTTPReply HTTP_OK (HexStr body +++ LF) fRun false
                                   "text/plain"; Flush ] w0)
        /\ ParseHex (HexStr body +++ LF) = body
  end.
Proof.
  unfold rest_name.
  rewrite (ParseDataFormat_cut _ "bin" eq_refl),
    (ParseDataFormat_cut _ "hex" eq_refl).
  change (spec_format_of_suffix "bin") with RF_BINARY.
  change (spec_format_of_suffix "hex") with RF_HEX.
  destruct (DecodeName encodedName) as [plainName|]; [|reflexivity].
  rewrite !(bind_Val _ _ _ _ _ (observe_eq _ _)).
  destruct (pcoinsTip_GetName (w_chain (yield w)) plainName) as [data|];
    [|reflexivity].
  rewrite reply_binary_spec, reply_text_spec. unfold ValtypeToString.
  do 2 eexists. split; [reflexivity|]. split; [reflexivity|].
  apply ParseHex_of_hex_body.
Qed.

End HexProofs.

(** ** Names through their encoding, and requests during start-up *)

Section NameProofs.

Context {X : Extern}.

(** X22.  Every registered name can be looked up, whatever bytes it holds:
    asking for the percent encoding of a name with the json suffix cuts the
    suffix off, decodes the rest back to the name, and answers with that
    name's record.  Dots and slashes in the name do no harm once encoded. *)
Theorem rest_name_reaches_every_name (v : valtype) (data : CNameData)
  (strRequest : string) (fRun : bool) (w : World) :
  pcoinsTip_GetName (w_chain (yield w)) v = Some data ->
  rest_name (percent_encode v +++ ".json") strRequest fRun w
  = (Val true,
     add_conn [HTTPReply HTTP_OK
                 (UniValue_write (getNameInfo v data) +++ LF) fRun false
                 "application/json"; Flush]
              (log_event (EvRead "pcoinsTip->GetName") (yield w))).
Proof.
  intros Hname. unfold rest_name.
  rewrite (ParseDataFormat_cut (percent_encode v) "json" eq_refl).
  change (spec_format_of_suffix "json") with RF_JSON.
  rewrite DecodeName_tokens, spec_DecodeName_percent_encode.
  rewrite (bind_Val _ _ _ _ _ (observe_eq _ _)), Hname.
  apply reply_json_spec.
Qed.

(** X23.  Start-up comes before routing: while the node reports that it is
    warming up, every request, whatever its URI and whether or not a route
    would match, is refused with status 503 and the warm-up message, and the
    connection is not kept. *)
Theorem HTTPReq_REST_warmup_first (strURI strRequest statusmessage : string)
  (fRun : bool) (w : World) :
  RPCIsInWarmup (w_chain (yield w)) = Some statusmessage ->
  HTTPReq_REST strURI strRequest fRun w
  = (false,
     add_conn [HTTPReply HTTP_SERVICE_UNAVAILABLE
                 (("Service temporarily unavailable: " +++ statusmessage)
                  +++ CRLF)
                 false false "text/plain"; Flush]
              (log_event (EvRead "RPCIsInWarmup") (yield w))).
Proof.
  intros Hwarm.
  unfold HTTPReq_REST, HTTPReq_REST_on, HTTPReq_REST_try.
  rewrite (bind_Val _ _ _ _ _ (observe_eq _ _)), Hwarm.
  unfold throw. rewrite write_pair_spec. reflexivity.
Qed.

End NameProofs.

(** ** The further properties on the concrete nodes *)

Lemma headers_loop_is_chain_walk_witness :
  exists bs,
    headers_loop (X := Demo.node) DemoChain.chain1 (Z.to_nat 5) 5 (Some "b2") []
    = map (GetBlockHeader (Extern := Demo.node)) bs
    /\ walk_from (X := Demo.node) DemoChain.chain1 (Some "b2") bs
    /\ Z.of_nat (List.length bs) <= 5
    /\ (Z.of_nat (List.length bs) = 5
        \/ off_chain (X := Demo.node) DemoChain.chain1
             (walk_end (X := Demo.node) DemoChain.chain1 (Some "b2") bs)).
Proof.
  apply (headers_loop_is_chain_walk (X := Demo.node) DemoChain.chain1 5
           (Some "b2")).
  lia.
Defined.

Lemma rest_headers_unknown_hash_witness :
  exists w',
    rest_headers (X := Demo.node) ("5/" +++ DemoChain.hash64 +++ ".bin") ""
                 true Demo.world0 = (Val true, w')
    /\ w_conn w'
       = w_conn Demo.world0
         ++ [ HTTPReplyHeader HTTP_OK true 0 "application/octet-stream";
              Body EmptyString; Flush ].
Proof.
  apply (rest_headers_unknown_hash (X := Demo.node)
           ("5/" +++ DemoChain.hash64 +++ ".bin") ""
           ("5/" +++ DemoChain.hash64) "5" DemoChain.hash64
           (Demo.setHex DemoChain.hash64) true Demo.world0).
  - reflexivity.
  - reflexivity.
  - vm_compute. split; discriminate.
  - reflexivity.
  - reflexivity.
Defined.

Lemma rest_block_details_only_json_witness :
  rest_block_extended (X := Demo.node) (DemoChain.hash64 +++ ".hex") "" true
                      Demo.world0
  = rest_block_notxdetails (X := Demo.node) (DemoChain.hash64 +++ ".hex") ""
                           true Demo.world0.
Proof.
  apply (rest_block_details_only_json (X := Demo.node)).
  discriminate.
Defined.

Lemma dispatch_routes_witness :
  dispatch (X := Demo.node) uri_prefixes ("/rest/block/" +++ "00.json") "" true
  = (b <- rest_block_extended (X := Demo.node) "00.json" "" true ;;
     ret (Some b)).
Proof.
  apply (proj1 (proj2 (proj2 (dispatch_routes (X := Demo.node) "00.json" ""
                                              true)))).
  intros H. vm_compute in H. discriminate H.
Defined.

Lemma HTTPReq_REST_outside_rest_witness :
  HTTPReq_REST (X := Demo.node) "/index.html" "" true Demo.world0
  = (false,
     add_conn [HTTPError HTTP_NOT_FOUND false; Flush]
              (log_event (EvRead "RPCIsInWarmup") (yield Demo.world0))).
Proof.
  apply (HTTPReq_REST_outside_rest (X := Demo.node)).
  - intros H. vm_compute in H. discriminate H.
  - reflexivity.
Defined.

Lemma bad_request_before_any_lookup_witness :
  rest_tx (X := Demo.node) "zz.json" "" true Demo.world0
  = (Threw (RESTERR HTTP_BAD_REQUEST "Invalid hash: zz"),
     snd (rest_tx (X := Demo.node) "zz.json" "" true Demo.world0))
  /\ snd (rest_tx (X := Demo.node) "zz.json" "" true Demo.world0)
     = Demo.world0.
Proof.
  split; [reflexivity|].
  apply (bad_request_before_any_lookup (X := Demo.node)
           ("/rest/tx/", rest_tx (X := Demo.node)) "zz.json" "" true
           Demo.world0 _ (RESTERR HTTP_BAD_REQUEST "Invalid hash: zz")).
  - left. reflexivity.
  - reflexivity.
  - reflexivity.
Defined.

Lemma rest_name_reaches_every_name_witness :
  rest_name (X := Demo.node) (percent_encode DemoChain.the_name +++ ".json")
            "" true DemoChain.named_world
  = (Val true,
     add_conn (X := Demo.node)
       [HTTPReply HTTP_OK
          (UniValue_write (Extern := Demo.node)
             (getNameInfo (Extern := Demo.node) DemoChain.the_name
                (list_ascii_of_string "1.2.3.4")) +++ LF)
          true false "application/json"; Flush]
       (log_event (X := Demo.node) (EvRead "pcoinsTip->GetName")
          (yield DemoChain.named_world))).
Proof.
  apply (rest_name_reaches_every_name (X := Demo.node)).
  reflexivity.
Defined.

Lemma HTTPReq_REST_warmup_first_witness :
  HTTPReq_REST (X := Demo.node) "/rest/chaininfo.json" "" true
               DemoChain.warming_world
  = (false,
     add_conn (X := Demo.node)
       [HTTPReply HTTP_SERVICE_UNAVAILABLE
          (("Service temporarily unavailable: " +++ "Loading block index...")
           +++ CRLF)
          false false "text/plain"; Flush]
       (log_event (X := Demo.node) (EvRead "RPCIsInWarmup")
          (yield DemoChain.warming_world))).
Proof.
  apply (HTTPReq_REST_warmup_first (X := Demo.node)).
  reflexivity.
Defined.
